(** * The ipywidgets message dispatcher

    A shallow embedding of [IPyWidgetMessageDispatcher]
    (src/notebooks/controllers/ipywidgets/message/ipyWidgetMessageDispatcher.ts)
    and the properties of its message-synchronisation protocol.

    The class is single-threaded JavaScript: every method runs to completion
    or to its first [await].  The embedding is a state-and-exception monad
    over the fields of the class plus the part of the JavaScript run time the
    class relies on: the store of deferred promises, the suspended [async]
    calls and the microtask queue.  Collaborators that live outside the file
    (the JSON parser, the Jupyter deserializer, the mirroring predicate, the
    kernel connection) are parameters. *)

From stdpp Require Import base option list strings pretty.
From Stdlib Require Import Lia.


(** ** JavaScript containers *)

(** [String.prototype.includes]. *)
Fixpoint includes (hay needle : string) : bool :=
  match hay with
  | EmptyString => String.prefix needle EmptyString
  | String _ rest => String.prefix needle hay || includes rest needle
  end.

(** A string is truthy when it is not empty. *)
Definition truthy (s : string) : bool := negb (String.eqb s "").

(** A JavaScript [Set]: members in insertion order, no duplicates. *)
Module JsSet.
Section Ops.
Context {A : Type} `{EqDecision A}.
Definition has (x : A) (l : list A) : bool := bool_decide (x ∈ l).
Definition add (x : A) (l : list A) : list A := if has x l then l else l ++ [x].
Definition delete (x : A) (l : list A) : list A := filter (λ y, y ≠ x) l.
End Ops.
End JsSet.

(** A JavaScript [Map]: entries in insertion order, one entry per key;
    [set] on a key that is present replaces the value where it stands. *)
Module JsMap.
Section Ops.
Context {K V : Type} `{EqDecision K}.
Fixpoint get (k : K) (l : list (K * V)) : option V :=
  match l with
  | [] => None
  | (k', v) :: rest => if decide (k' = k) then Some v else get k rest
  end.
Definition has (k : K) (l : list (K * V)) : bool := bool_decide (is_Some (get k l)).
Fixpoint set (k : K) (v : V) (l : list (K * V)) : list (K * V) :=
  match l with
  | [] => [(k, v)]
  | (k', v') :: rest =>
      if decide (k' = k) then (k, v) :: rest else (k', v') :: set k v rest
  end.
Definition delete (k : K) (l : list (K * V)) : list (K * V) :=
  filter (λ e, e.1 ≠ k) l.
End Ops.
End JsMap.

(** ** Protocol data *)

(** What arrives on a socket or from the render surface: a string, a binary
    frame, or (the payloads are typed [any]) nothing at all. *)
Inductive Raw :=
  | RString (s : string)
  | RBinary (b : list Byte.byte)
  | RUndefined.

Definition is_string (d : Raw) : bool :=
  match d with RString _ => true | _ => false end.

Record Header := { msg_type : string; msg_id : string }.

Record WidgetState := { _model_module : option string; _model_name : option string }.

(** [content.data]: [widget_view] is the truthiness of
    [data[WIDGET_MIMETYPE]]. *)
Record ContentData := {
  widget_view : bool;
  method : option string;
  state : option WidgetState
}.

Record Content := {
  comm_id : option string;
  target_name : option string;
  data : option ContentData
}.

Inductive Buffer :=
  | DataView (buffer : list Byte.byte)
  | ArrayBuffer (bytes : list Byte.byte).

(** A deserialized kernel message, as far as the dispatcher reads it.  Absent
    properties are [None]. *)
Record KMessage := {
  channel : option string;
  header : option Header;
  parent_header : option Header;
  content : option Content;
  buffers : list Buffer
}.

Inductive Error :=
  | SyntaxError
  | TypeError
  | DeserializeError
  | SendError.

(** ** Messages exchanged with the render surface *)

(** Commands received from the render surface ([receiveMessage]). *)
Inductive IPyWidgetMessage :=
  | IPyWidgets_logMessage (category message : string)
  | IPyWidgets_Ready
  | IPyWidgets_msg (payload : Raw)
  | IPyWidgets_binary_msg (payload : string)
  | IPyWidgets_msg_received (id : string)
  | IPyWidgets_registerCommTarget (targetName : string)
  | IPyWidgets_RegisterMessageHook (msgId : string)
  | IPyWidgets_RemoveMessageHook (hookMsgId : string) (lastHookedMsgId : option string)
  | IPyWidgets_MessageHookResult (requestId parentId msgType : string) (result : bool)
  | IPyWidgets_iopub_msg_handled (id : string)
  | IPyWidgets_other.

Inductive HandledOperation := RegisterMessageHook | RemoveMessageHook.

(** Notifications posted to the render surface ([raisePostMessage]). *)
Inductive PostMsg :=
  | Post_kernelOptions (id clientId userName protocol : string)
  | Post_onRestartKernel
  | Post_mirror_execute (id : string) (msg : KMessage)
  | Post_msg (id : string) (data : string)
  | Post_binary_msg (id : string) (data : string)
  | Post_registerCommTarget (targetName : string)
  | Post_ExtensionOperationHandled (id : string) (type : HandledOperation)
  | Post_MessageHookCall (requestId : string) (parentId : option string) (msg : KMessage).

Inductive LogEntry :=
  | log_error (what : string) (ex : option Error)
  | log_trace (what : string)
  | console_error (dataToSend : string) (deSerialized : option (list Raw)).

(** ** The world outside the dispatcher *)

(** A [Kernel.IKernelConnection], as far as it is read. *)
Record IKernelConnection := { kid : string; clientId : string; username : string }.

(** Objects of the extension host are named by numbers: [IKernel] objects,
    kernel connections and kernel sockets each have their own numbering.
    [Env] is what the dispatcher can observe of them at one instant. *)
Record Env := {
  (** [kernelProvider.get(document)] *)
  provider_get : option nat;
  (** [kernel.session], and inside it [session.kernel] *)
  session : nat → option (option nat);
  (** the fields of a kernel connection *)
  connection : nat → IKernelConnection;
  (** [KernelSocketMap.get(kernelId)] *)
  KernelSocketMap : string → option nat;
  (** [socket.protocol] *)
  socket_protocol : nat → string;
  (** whether [sendShellMessage] / [sendControlMessage] throws *)
  send_throws : nat → KMessage → bool
}.

(** Calls made on the kernel connection and on kernel sockets, in the order
    they were made. *)
Inductive KernelCall :=
  | sendControlMessage (conn : nat) (msg : KMessage)
  | sendShellMessage (conn : nat) (msg : KMessage)
  | registerCommTarget_call (conn : nat) (targetName : string)
  | registerMessageHook_call (conn : nat) (msgId : string)
  | removeMessageHook_call (conn : nat) (msgId : string)
  | addReceiveHook (socket : nat) (protocol : string)
  | addSendHook (socket : nat) (protocol : string)
  | removeReceiveHook (socket : nat) (protocol : string)
  | removeSendHook (socket : nat) (protocol : string).

(** Subscriptions kept in [this.disposables]. *)
Inductive Disposable :=
  | onDidStartKernel_subscription
  | onRestarted_subscription (kernel : nat).

(** ** Promises and suspended calls *)

Inductive PValue := VUndefined | VBool (b : bool).

(** A deferred ([createDeferred]): pending, or resolved with a value.  The
    dispatcher never rejects one. *)
Inductive PState := Pending | Resolved (v : PValue).

(** The points at which an [async] method of the class can be suspended, with
    the promise it waits for. *)
Inductive Cont :=
  (** [onKernelSocketMessage], at [await promise.promise] *)
  | AwaitSocketAck (promise : nat)
  (** [onKernelSocketMessage], at [await this.fullHandleMessage.promise.promise] *)
  | AwaitFullHandle (promise : nat)
  (** [mirrorSend], at [await promise] *)
  | AwaitMirror (promise : nat)
  (** [messageHookCallback], at [return promise.promise] *)
  | AwaitHookDecision (promise : nat).

Definition awaited (k : Cont) : nat :=
  match k with
  | AwaitSocketAck p | AwaitFullHandle p | AwaitMirror p | AwaitHookDecision p => p
  end.

(** The promise returned by a call of an [async] method. *)
Inductive Status :=
  | Suspended (k : Cont)
  | Returned (v : PValue)
  | Rejected (e : Error).

(** ** The state

    The fields of the class, under their own names.  [kernel] names an
    [IKernel] object; a [Deferred] is the number of its promise. *)
Record Dispatcher := {
  commTargetsRegistered : list string;
  pendingTargetNames : list string;
  kernel : option nat;
  messageHooks : list string;
  pendingHookRemovals : list (string * string);
  messageHookRequests : list (string * nat);
  disposables : list Disposable;
  kernelRestartHandlerAttached : bool;
  kernelWasConnectedAtLeastOnce : bool;
  disposed : bool;
  pendingMessages : list Raw;
  subscribedToKernelSocket : bool;
  waitingMessageIds : list (string * nat);
  outputWidgetIds : list (option string);
  fullHandleMessage : option (string * nat);
  isUsingIPyWidgets : bool;
  kernelSocketHandlers : list (nat * string)
}.

Definition set_commTargetsRegistered (v : list string) (x : Dispatcher) : Dispatcher :=
  {| commTargetsRegistered := v; pendingTargetNames := pendingTargetNames x; kernel := kernel x;
     messageHooks := messageHooks x; pendingHookRemovals := pendingHookRemovals x;
     messageHookRequests := messageHookRequests x; disposables := disposables x;
     kernelRestartHandlerAttached := kernelRestartHandlerAttached x;
     kernelWasConnectedAtLeastOnce := kernelWasConnectedAtLeastOnce x; disposed := disposed x;
     pendingMessages := pendingMessages x;
     subscribedToKernelSocket := subscribedToKernelSocket x;
     waitingMessageIds := waitingMessageIds x; outputWidgetIds := outputWidgetIds x;
     fullHandleMessage := fullHandleMessage x; isUsingIPyWidgets := isUsingIPyWidgets x;
     kernelSocketHandlers := kernelSocketHandlers x |}.
Definition set_pendingTargetNames (v : list string) (x : Dispatcher) : Dispatcher :=
  {| commTargetsRegistered := commTargetsRegistered x; pendingTargetNames := v;
     kernel := kernel x; messageHooks := messageHooks x;
     pendingHookRemovals := pendingHookRemovals x; messageHookRequests := messageHookRequests x;
     disposables := disposables x;
     kernelRestartHandlerAttached := kernelRestartHandlerAttached x;
     kernelWasConnectedAtLeastOnce := kernelWasConnectedAtLeastOnce x; disposed := disposed x;
     pendingMessages := pendingMessages x;
     subscribedToKernelSocket := subscribedToKernelSocket x;
     waitingMessageIds := waitingMessageIds x; outputWidgetIds := outputWidgetIds x;
     fullHandleMessage := fullHandleMessage x; isUsingIPyWidgets := isUsingIPyWidgets x;
     kernelSocketHandlers := kernelSocketHandlers x |}.
Definition set_kernel (v : option nat) (x : Dispatcher) : Dispatcher :=
  {| commTargetsRegistered := commTargetsRegistered x;
     pendingTargetNames := pendingTargetNames x; kernel := v; messageHooks := messageHooks x;
     pendingHookRemovals := pendingHookRemovals x; messageHookRequests := messageHookRequests x;
     disposables := disposables x;
     kernelRestartHandlerAttached := kernelRestartHandlerAttached x;
     kernelWasConnectedAtLeastOnce := kernelWasConnectedAtLeastOnce x; disposed := disposed x;
     pendingMessages := pendingMessages x;
     subscribedToKernelSocket := subscribedToKernelSocket x;
     waitingMessageIds := waitingMessageIds x; outputWidgetIds := outputWidgetIds x;
     fullHandleMessage := fullHandleMessage x; isUsingIPyWidgets := isUsingIPyWidgets x;
     kernelSocketHandlers := kernelSocketHandlers x |}.
Definition set_messageHooks (v : list string) (x : Dispatcher) : Dispatcher :=
  {| commTargetsRegistered := commTargetsRegistered x;
     pendingTargetNames := pendingTargetNames x; kernel := kernel x; messageHooks := v;
     pendingHookRemovals := pendingHookRemovals x; messageHookRequests := messageHookRequests x;
     disposables := disposables x;
     kernelRestartHandlerAttached := kernelRestartHandlerAttached x;
     kernelWasConnectedAtLeastOnce := kernelWasConnectedAtLeastOnce x; disposed := disposed x;
     pendingMessages := pendingMessages x;
     subscribedToKernelSocket := subscribedToKernelSocket x;
     waitingMessageIds := waitingMessageIds x; outputWidgetIds := outputWidgetIds x;
     fullHandleMessage := fullHandleMessage x; isUsingIPyWidgets := isUsingIPyWidgets x;
     kernelSocketHandlers := kernelSocketHandlers x |}.
Definition set_pendingHookRemovals (v : list (string * string)) (x : Dispatcher) : Dispatcher :=
  {| commTargetsRegistered := commTargetsRegistered x;
     pendingTargetNames := pendingTargetNames x; kernel := kernel x;
     messageHooks := messageHooks x; pendingHookRemovals := v;
     messageHookRequests := messageHookRequests x; disposables := disposables x;
     kernelRestartHandlerAttached := kernelRestartHandlerAttached x;
     kernelWasConnectedAtLeastOnce := kernelWasConnectedAtLeastOnce x; disposed := disposed x;
     pendingMessages := pendingMessages x;
     subscribedToKernelSocket := subscribedToKernelSocket x;
     waitingMessageIds := waitingMessageIds x; outputWidgetIds := outputWidgetIds x;
     fullHandleMessage := fullHandleMessage x; isUsingIPyWidgets := isUsingIPyWidgets x;
     kernelSocketHandlers := kernelSocketHandlers x |}.
Definition set_messageHookRequests (v : list (string * nat)) (x : Dispatcher) : Dispatcher :=
  {| commTargetsRegistered := commTargetsRegistered x;
     pendingTargetNames := pendingTargetNames x; kernel := kernel x;
     messageHooks := messageHooks x; pendingHookRemovals := pendingHookRemovals x;
     messageHookRequests := v; disposables := disposables x;
     kernelRestartHandlerAttached := kernelRestartHandlerAttached x;
     kernelWasConnectedAtLeastOnce := kernelWasConnectedAtLeastOnce x; disposed := disposed x;
     pendingMessages := pendingMessages x;
     subscribedToKernelSocket := subscribedToKernelSocket x;
     waitingMessageIds := waitingMessageIds x; outputWidgetIds := outputWidgetIds x;
     fullHandleMessage := fullHandleMessage x; isUsingIPyWidgets := isUsingIPyWidgets x;
     kernelSocketHandlers := kernelSocketHandlers x |}.
Definition set_disposables (v : list Disposable) (x : Dispatcher) : Dispatcher :=
  {| commTargetsRegistered := commTargetsRegistered x;
     pendingTargetNames := pendingTargetNames x; kernel := kernel x;
     messageHooks := messageHooks x; pendingHookRemovals := pendingHookRemovals x;
     messageHookRequests := messageHookRequests x; disposables := v;
     kernelRestartHandlerAttached := kernelRestartHandlerAttached x;
     kernelWasConnectedAtLeastOnce := kernelWasConnectedAtLeastOnce x; disposed := disposed x;
     pendingMessages := pendingMessages x;
     subscribedToKernelSocket := subscribedToKernelSocket x;
     waitingMessageIds := waitingMessageIds x; outputWidgetIds := outputWidgetIds x;
     fullHandleMessage := fullHandleMessage x; isUsingIPyWidgets := isUsingIPyWidgets x;
     kernelSocketHandlers := kernelSocketHandlers x |}.
Definition set_kernelRestartHandlerAttached (v : bool) (x : Dispatcher) : Dispatcher :=
  {| commTargetsRegistered := commTargetsRegistered x;
     pendingTargetNames := pendingTargetNames x; kernel := kernel x;
     messageHooks := messageHooks x; pendingHookRemovals := pendingHookRemovals x;
     messageHookRequests := messageHookRequests x; disposables := disposables x;
     kernelRestartHandlerAttached := v;
     kernelWasConnectedAtLeastOnce := kernelWasConnectedAtLeastOnce x; disposed := disposed x;
     pendingMessages := pendingMessages x;
     subscribedToKernelSocket := subscribedToKernelSocket x;
     waitingMessageIds := waitingMessageIds x; outputWidgetIds := outputWidgetIds x;
     fullHandleMessage := fullHandleMessage x; isUsingIPyWidgets := isUsingIPyWidgets x;
     kernelSocketHandlers := kernelSocketHandlers x |}.
Definition set_kernelWasConnectedAtLeastOnce (v : bool) (x : Dispatcher) : Dispatcher :=
  {| commTargetsRegistered := commTargetsRegistered x;
     pendingTargetNames := pendingTargetNames x; kernel := kernel x;
     messageHooks := messageHooks x; pendingHookRemovals := pendingHookRemovals x;
     messageHookRequests := messageHookRequests x; disposables := disposables x;
     kernelRestartHandlerAttached := kernelRestartHandlerAttached x;
     kernelWasConnectedAtLeastOnce := v; disposed := disposed x;
     pendingMessages := pendingMessages x;
     subscribedToKernelSocket := subscribedToKernelSocket x;
     waitingMessageIds := waitingMessageIds x; outputWidgetIds := outputWidgetIds x;
     fullHandleMessage := fullHandleMessage x; isUsingIPyWidgets := isUsingIPyWidgets x;
     kernelSocketHandlers := kernelSocketHandlers x |}.
Definition set_disposed (v : bool) (x : Dispatcher) : Dispatcher :=
  {| commTargetsRegistered := commTargetsRegistered x;
     pendingTargetNames := pendingTargetNames x; kernel := kernel x;
     messageHooks := messageHooks x; pendingHookRemovals := pendingHookRemovals x;
     messageHookRequests := messageHookRequests x; disposables := disposables x;
     kernelRestartHandlerAttached := kernelRestartHandlerAttached x;
     kernelWasConnectedAtLeastOnce := kernelWasConnectedAtLeastOnce x; disposed := v;
     pendingMessages := pendingMessages x;
     subscribedToKernelSocket := subscribedToKernelSocket x;
     waitingMessageIds := waitingMessageIds x; outputWidgetIds := outputWidgetIds x;
     fullHandleMessage := fullHandleMessage x; isUsingIPyWidgets := isUsingIPyWidgets x;
     kernelSocketHandlers := kernelSocketHandlers x |}.
Definition set_pendingMessages (v : list Raw) (x : Dispatcher) : Dispatcher :=
  {| commTargetsRegistered := commTargetsRegistered x;
     pendingTargetNames := pendingTargetNames x; kernel := kernel x;
     messageHooks := messageHooks x; pendingHookRemovals := pendingHookRemovals x;
     messageHookRequests := messageHookRequests x; disposables := disposables x;
     kernelRestartHandlerAttached := kernelRestartHandlerAttached x;
     kernelWasConnectedAtLeastOnce := kernelWasConnectedAtLeastOnce x; disposed := disposed x;
     pendingMessages := v; subscribedToKernelSocket := subscribedToKernelSocket x;
     waitingMessageIds := waitingMessageIds x; outputWidgetIds := outputWidgetIds x;
     fullHandleMessage := fullHandleMessage x; isUsingIPyWidgets := isUsingIPyWidgets x;
     kernelSocketHandlers := kernelSocketHandlers x |}.
Definition set_subscribedToKernelSocket (v : bool) (x : Dispatcher) : Dispatcher :=
  {| commTargetsRegistered := commTargetsRegistered x;
     pendingTargetNames := pendingTargetNames x; kernel := kernel x;
     messageHooks := messageHooks x; pendingHookRemovals := pendingHookRemovals x;
     messageHookRequests := messageHookRequests x; disposables := disposables x;
     kernelRestartHandlerAttached := kernelRestartHandlerAttached x;
     kernelWasConnectedAtLeastOnce := kernelWasConnectedAtLeastOnce x; disposed := disposed x;
     pendingMessages := pendingMessages x; subscribedToKernelSocket := v;
     waitingMessageIds := waitingMessageIds x; outputWidgetIds := outputWidgetIds x;
     fullHandleMessage := fullHandleMessage x; isUsingIPyWidgets := isUsingIPyWidgets x;
     kernelSocketHandlers := kernelSocketHandlers x |}.
Definition set_waitingMessageIds (v : list (string * nat)) (x : Dispatcher) : Dispatcher :=
  {| commTargetsRegistered := commTargetsRegistered x;
     pendingTargetNames := pendingTargetNames x; kernel := kernel x;
     messageHooks := messageHooks x; pendingHookRemovals := pendingHookRemovals x;
     messageHookRequests := messageHookRequests x; disposables := disposables x;
     kernelRestartHandlerAttached := kernelRestartHandlerAttached x;
     kernelWasConnectedAtLeastOnce := kernelWasConnectedAtLeastOnce x; disposed := disposed x;
     pendingMessages := pendingMessages x;
     subscribedToKernelSocket := subscribedToKernelSocket x; waitingMessageIds := v;
     outputWidgetIds := outputWidgetIds x; fullHandleMessage := fullHandleMessage x;
     isUsingIPyWidgets := isUsingIPyWidgets x; kernelSocketHandlers := kernelSocketHandlers x |}.
Definition set_outputWidgetIds (v : list (option string)) (x : Dispatcher) : Dispatcher :=
  {| commTargetsRegistered := commTargetsRegistered x;
     pendingTargetNames := pendingTargetNames x; kernel := kernel x;
     messageHooks := messageHooks x; pendingHookRemovals := pendingHookRemovals x;
     messageHookRequests := messageHookRequests x; disposables := disposables x;
     kernelRestartHandlerAttached := kernelRestartHandlerAttached x;
     kernelWasConnectedAtLeastOnce := kernelWasConnectedAtLeastOnce x; disposed := disposed x;
     pendingMessages := pendingMessages x;
     subscribedToKernelSocket := subscribedToKernelSocket x;
     waitingMessageIds := waitingMessageIds x; outputWidgetIds := v;
     fullHandleMessage := fullHandleMessage x; isUsingIPyWidgets := isUsingIPyWidgets x;
     kernelSocketHandlers := kernelSocketHandlers x |}.
Definition set_fullHandleMessage (v : option (string * nat)) (x : Dispatcher) : Dispatcher :=
  {| commTargetsRegistered := commTargetsRegistered x;
     pendingTargetNames := pendingTargetNames x; kernel := kernel x;
     messageHooks := messageHooks x; pendingHookRemovals := pendingHookRemovals x;
     messageHookRequests := messageHookRequests x; disposables := disposables x;
     kernelRestartHandlerAttached := kernelRestartHandlerAttached x;
     kernelWasConnectedAtLeastOnce := kernelWasConnectedAtLeastOnce x; disposed := disposed x;
     pendingMessages := pendingMessages x;
     subscribedToKernelSocket := subscribedToKernelSocket x;
     waitingMessageIds := waitingMessageIds x; outputWidgetIds := outputWidgetIds x;
     fullHandleMessage := v; isUsingIPyWidgets := isUsingIPyWidgets x;
     kernelSocketHandlers := kernelSocketHandlers x |}.
Definition set_isUsingIPyWidgets (v : bool) (x : Dispatcher) : Dispatcher :=
  {| commTargetsRegistered := commTargetsRegistered x;
     pendingTargetNames := pendingTargetNames x; kernel := kernel x;
     messageHooks := messageHooks x; pendingHookRemovals := pendingHookRemovals x;
     messageHookRequests := messageHookRequests x; disposables := disposables x;
     kernelRestartHandlerAttached := kernelRestartHandlerAttached x;
     kernelWasConnectedAtLeastOnce := kernelWasConnectedAtLeastOnce x; disposed := disposed x;
     pendingMessages := pendingMessages x;
     subscribedToKernelSocket := subscribedToKernelSocket x;
     waitingMessageIds := waitingMessageIds x; outputWidgetIds := outputWidgetIds x;
     fullHandleMessage := fullHandleMessage x; isUsingIPyWidgets := v;
     kernelSocketHandlers := kernelSocketHandlers x |}.
Definition set_kernelSocketHandlers (v : list (nat * string)) (x : Dispatcher) : Dispatcher :=
  {| commTargetsRegistered := commTargetsRegistered x;
     pendingTargetNames := pendingTargetNames x; kernel := kernel x;
     messageHooks := messageHooks x; pendingHookRemovals := pendingHookRemovals x;
     messageHookRequests := messageHookRequests x; disposables := disposables x;
     kernelRestartHandlerAttached := kernelRestartHandlerAttached x;
     kernelWasConnectedAtLeastOnce := kernelWasConnectedAtLeastOnce x; disposed := disposed x;
     pendingMessages := pendingMessages x;
     subscribedToKernelSocket := subscribedToKernelSocket x;
     waitingMessageIds := waitingMessageIds x; outputWidgetIds := outputWidgetIds x;
     fullHandleMessage := fullHandleMessage x; isUsingIPyWidgets := isUsingIPyWidgets x;
     kernelSocketHandlers := v |}.

(** The dispatcher together with the run time and the collaborators it acts
    on.  [posted], [displayed], [logged] and [calls] record what was fired on
    [_postMessageEmitter] and [_onDisplayMessage], written to the log and
    called on the kernel; the four listener fields are the event
    subscriptions the class makes; [hung] is set when a loop never exits. *)
Record St := {
  this : Dispatcher;
  promises : list PState;
  tasks : list Status;
  microtasks : list nat;
  uuids : nat;
  posted : list PostMsg;
  displayed : list KMessage;
  logged : list LogEntry;
  calls : list KernelCall;
  kernelCommTargets : list (nat * list string);
  startKernelListener : bool;
  restartedListener : option nat;
  disposedListeners : list nat;
  socketChangeListener : option (nat * option string);
  env : Env;
  hung : bool
}.

Definition set_this (v : Dispatcher) (x : St) : St :=
  {| this := v; promises := promises x; tasks := tasks x; microtasks := microtasks x;
     uuids := uuids x; posted := posted x; displayed := displayed x; logged := logged x;
     calls := calls x; kernelCommTargets := kernelCommTargets x;
     startKernelListener := startKernelListener x; restartedListener := restartedListener x;
     disposedListeners := disposedListeners x; socketChangeListener := socketChangeListener x;
     env := env x; hung := hung x |}.
Definition set_promises (v : list PState) (x : St) : St :=
  {| this := this x; promises := v; tasks := tasks x; microtasks := microtasks x;
     uuids := uuids x; posted := posted x; displayed := displayed x; logged := logged x;
     calls := calls x; kernelCommTargets := kernelCommTargets x;
     startKernelListener := startKernelListener x; restartedListener := restartedListener x;
     disposedListeners := disposedListeners x; socketChangeListener := socketChangeListener x;
     env := env x; hung := hung x |}.
Definition set_tasks (v : list Status) (x : St) : St :=
  {| this := this x; promises := promises x; tasks := v; microtasks := microtasks x;
     uuids := uuids x; posted := posted x; displayed := displayed x; logged := logged x;
     calls := calls x; kernelCommTargets := kernelCommTargets x;
     startKernelListener := startKernelListener x; restartedListener := restartedListener x;
     disposedListeners := disposedListeners x; socketChangeListener := socketChangeListener x;
     env := env x; hung := hung x |}.
Definition set_microtasks (v : list nat) (x : St) : St :=
  {| this := this x; promises := promises x; tasks := tasks x; microtasks := v; uuids := uuids x;
     posted := posted x; displayed := displayed x; logged := logged x; calls := calls x;
     kernelCommTargets := kernelCommTargets x; startKernelListener := startKernelListener x;
     restartedListener := restartedListener x; disposedListeners := disposedListeners x;
     socketChangeListener := socketChangeListener x; env := env x; hung := hung x |}.
Definition set_uuids (v : nat) (x : St) : St :=
  {| this := this x; promises := promises x; tasks := tasks x; microtasks := microtasks x;
     uuids := v; posted := posted x; displayed := displayed x; logged := logged x;
     calls := calls x; kernelCommTargets := kernelCommTargets x;
     startKernelListener := startKernelListener x; restartedListener := restartedListener x;
     disposedListeners := disposedListeners x; socketChangeListener := socketChangeListener x;
     env := env x; hung := hung x |}.
Definition set_posted (v : list PostMsg) (x : St) : St :=
  {| this := this x; promises := promises x; tasks := tasks x; microtasks := microtasks x;
     uuids := uuids x; posted := v; displayed := displayed x; logged := logged x;
     calls := calls x; kernelCommTargets := kernelCommTargets x;
     startKernelListener := startKernelListener x; restartedListener := restartedListener x;
     disposedListeners := disposedListeners x; socketChangeListener := socketChangeListener x;
     env := env x; hung := hung x |}.
Definition set_displayed (v : list KMessage) (x : St) : St :=
  {| this := this x; promises := promises x; tasks := tasks x; microtasks := microtasks x;
     uuids := uuids x; posted := posted x; displayed := v; logged := logged x; calls := calls x;
     kernelCommTargets := kernelCommTargets x; startKernelListener := startKernelListener x;
     restartedListener := restartedListener x; disposedListeners := disposedListeners x;
     socketChangeListener := socketChangeListener x; env := env x; hung := hung x |}.
Definition set_logged (v : list LogEntry) (x : St) : St :=
  {| this := this x; promises := promises x; tasks := tasks x; microtasks := microtasks x;
     uuids := uuids x; posted := posted x; displayed := displayed x; logged := v;
     calls := calls x; kernelCommTargets := kernelCommTargets x;
     startKernelListener := startKernelListener x; restartedListener := restartedListener x;
     disposedListeners := disposedListeners x; socketChangeListener := socketChangeListener x;
     env := env x; hung := hung x |}.
Definition set_calls (v : list KernelCall) (x : St) : St :=
  {| this := this x; promises := promises x; tasks := tasks x; microtasks := microtasks x;
     uuids := uuids x; posted := posted x; displayed := displayed x; logged := logged x;
     calls := v; kernelCommTargets := kernelCommTargets x;
     startKernelListener := startKernelListener x; restartedListener := restartedListener x;
     disposedListeners := disposedListeners x; socketChangeListener := socketChangeListener x;
     env := env x; hung := hung x |}.
Definition set_kernelCommTargets (v : list (nat * list string)) (x : St) : St :=
  {| this := this x; promises := promises x; tasks := tasks x; microtasks := microtasks x;
     uuids := uuids x; posted := posted x; displayed := displayed x; logged := logged x;
     calls := calls x; kernelCommTargets := v; startKernelListener := startKernelListener x;
     restartedListener := restartedListener x; disposedListeners := disposedListeners x;
     socketChangeListener := socketChangeListener x; env := env x; hung := hung x |}.
Definition set_startKernelListener (v : bool) (x : St) : St :=
  {| this := this x; promises := promises x; tasks := tasks x; microtasks := microtasks x;
     uuids := uuids x; posted := posted x; displayed := displayed x; logged := logged x;
     calls := calls x; kernelCommTargets := kernelCommTargets x; startKernelListener := v;
     restartedListener := restartedListener x; disposedListeners := disposedListeners x;
     socketChangeListener := socketChangeListener x; env := env x; hung := hung x |}.
Definition set_restartedListener (v : option nat) (x : St) : St :=
  {| this := this x; promises := promises x; tasks := tasks x; microtasks := microtasks x;
     uuids := uuids x; posted := posted x; displayed := displayed x; logged := logged x;
     calls := calls x; kernelCommTargets := kernelCommTargets x;
     startKernelListener := startKernelListener x; restartedListener := v;
     disposedListeners := disposedListeners x; socketChangeListener := socketChangeListener x;
     env := env x; hung := hung x |}.
Definition set_disposedListeners (v : list nat) (x : St) : St :=
  {| this := this x; promises := promises x; tasks := tasks x; microtasks := microtasks x;
     uuids := uuids x; posted := posted x; displayed := displayed x; logged := logged x;
     calls := calls x; kernelCommTargets := kernelCommTargets x;
     startKernelListener := startKernelListener x; restartedListener := restartedListener x;
     disposedListeners := v; socketChangeListener := socketChangeListener x; env := env x;
     hung := hung x |}.
Definition set_socketChangeListener (v : option (nat * option string)) (x : St) : St :=
  {| this := this x; promises := promises x; tasks := tasks x; microtasks := microtasks x;
     uuids := uuids x; posted := posted x; displayed := displayed x; logged := logged x;
     calls := calls x; kernelCommTargets := kernelCommTargets x;
     startKernelListener := startKernelListener x; restartedListener := restartedListener x;
     disposedListeners := disposedListeners x; socketChangeListener := v; env := env x;
     hung := hung x |}.
Definition set_env (v : Env) (x : St) : St :=
  {| this := this x; promises := promises x; tasks := tasks x; microtasks := microtasks x;
     uuids := uuids x; posted := posted x; displayed := displayed x; logged := logged x;
     calls := calls x; kernelCommTargets := kernelCommTargets x;
     startKernelListener := startKernelListener x; restartedListener := restartedListener x;
     disposedListeners := disposedListeners x; socketChangeListener := socketChangeListener x;
     env := v; hung := hung x |}.
Definition set_hung (v : bool) (x : St) : St :=
  {| this := this x; promises := promises x; tasks := tasks x; microtasks := microtasks x;
     uuids := uuids x; posted := posted x; displayed := displayed x; logged := logged x;
     calls := calls x; kernelCommTargets := kernelCommTargets x;
     startKernelListener := startKernelListener x; restartedListener := restartedListener x;
     disposedListeners := disposedListeners x; socketChangeListener := socketChangeListener x;
     env := env x; hung := v |}.

(** ** Collaborators

    Functions and constants the dispatcher imports.  None of them is part of
    the file under study, so the development is parametric in them.
    [JSON_parse] and [deserialize] answer [None] when they throw (for
    [JSON_parse] also when the text denotes [null], whose first property
    access throws at the same place).  [generateUuid] is indexed by the
    number of identifiers handed out so far. *)
Class Collaborators := {
  JSON_parse : string → option KMessage;
  deserialize : Raw → string → option KMessage;
  shouldMessageBeMirroredWithRenderer : string + KMessage → bool;
  isDisplayDataMsg : KMessage → bool;
  serializeDataViews : list Raw → string;
  deserializeDataViews : string → option (list Raw);
  generateUuid : nat → string;
  WIDGET_MIMETYPE : string;
  DefaultCommTarget : string
}.

(** ** The monad of methods

    A method transforms the state and ends in one of four ways: it returns,
    it throws, it is suspended at an [await] (only [async] methods), or it
    never ends.  The state reached is kept in every case: what a method did
    before it threw stays done. *)
Inductive Outcome (A : Type) :=
  | Ret (a : A)
  | Throw (e : Error)
  | Await (k : Cont)
  | Diverge.
Arguments Ret {A} a.
Arguments Throw {A} e.
Arguments Await {A} k.
Arguments Diverge {A}.

Definition M (A : Type) : Type := St → Outcome A * St.

Definition ret {A} (a : A) : M A := λ s, (Ret a, s).

Definition bind {A B} (m : M A) (f : A → M B) : M B := λ s,
  match m s with
  | (Ret a, s') => f a s'
  | (Throw e, s') => (Throw e, s')
  | (Await k, s') => (Await k, s')
  | (Diverge, s') => (Diverge, s')
  end.

Declare Scope method_scope.
Delimit Scope method_scope with method.
Bind Scope method_scope with M.
Notation "x <- m ;; f" := (bind m (λ x, f))
  (at level 100, m at next level, right associativity) : method_scope.
Notation "m ;; f" := (bind m (λ _, f))
  (at level 100, right associativity) : method_scope.
Open Scope method_scope.

Definition get : M St := λ s, (Ret s, s).
Definition gets {A} (f : St → A) : M A := λ s, (Ret (f s), s).
Definition modify (f : St → St) : M unit := λ s, (Ret tt, f s).
Definition throw {A} (e : Error) : M A := λ s, (Throw e, s).
Definition await {A} (k : Cont) : M A := λ s, (Await k, s).
Definition diverge {A} : M A := λ s, (Diverge, s).

(** [try { m } catch (ex) { h ex }].  A suspended body stays suspended: no
    promise of the dispatcher is ever rejected, so nothing is thrown into the
    handler after an [await]. *)
Definition try_catch {A} (m : M A) (h : Error → M A) : M A := λ s,
  match m s with
  | (Throw e, s') => h e s'
  | r => r
  end.

(** [try { m } finally { f }] *)
Definition try_finally {A} (m : M A) (f : M unit) : M A := λ s,
  match m s with
  | (Ret a, s') => (_ <- f ;; ret a) s'
  | (Throw e, s') => (_ <- f ;; throw e) s'
  | r => r
  end.

Definition when (b : bool) (m : M unit) : M unit := if b then m else ret tt.

(** An assignment to fields of [this]. *)
Definition upd (f : Dispatcher → Dispatcher) : M unit :=
  modify (λ s, set_this (f (this s)) s).

Fixpoint forEach {A} (l : list A) (f : A → M unit) : M unit :=
  match l with
  | [] => ret tt
  | x :: rest => f x ;; forEach rest f
  end.

(** ** Run-time primitives *)

Definition raisePostMessage (m : PostMsg) : M unit :=
  modify (λ s, set_posted (posted s ++ [m]) s).

Definition logger (l : LogEntry) : M unit :=
  modify (λ s, set_logged (logged s ++ [l]) s).

(** [call c] records the call [c] made on a kernel object.  What the kernel
    does with it is outside this file: the call is taken to come back, so a
    kernel method that throws is not modelled. *)
Definition call (c : KernelCall) : M unit :=
  modify (λ s, set_calls (calls s ++ [c]) s).

(** [createDeferred()]: a fresh pending promise. *)
Definition createDeferred : M nat := λ s,
  (Ret (length (promises s)), set_promises (promises s ++ [Pending]) s).

(** The calls suspended on promise [p], oldest first. *)
Fixpoint waiters (i p : nat) (ts : list Status) : list nat :=
  match ts with
  | [] => []
  | Suspended k :: rest =>
      if decide (awaited k = p) then i :: waiters (S i) p rest else waiters (S i) p rest
  | _ :: rest => waiters (S i) p rest
  end.

(** [deferred.resolve(v)]: settles a pending promise and queues a microtask
    for each call that waits for it; on a settled promise it does nothing. *)
Definition resolve (p : nat) (v : PValue) : M unit := modify (λ s,
  match promises s !! p with
  | Some Pending =>
      set_microtasks (microtasks s ++ waiters 0 p (tasks s))
        (set_promises (<[p := Resolved v]> (promises s)) s)
  | _ => s
  end).

Definition is_resolved (s : St) (p : nat) : bool :=
  match promises s !! p with Some (Resolved _) => true | _ => false end.

(** What the dispatcher sees of its kernel: [this.kernel?.session?.kernel]
    and, for an [IKernel] at hand, [kernel.session?.kernel]. *)
Definition session_kernel (e : Env) (k : nat) : option nat :=
  match session e k with Some (Some c) => Some c | _ => None end.

Definition has_session (e : Env) (k : option nat) : bool :=
  match k with
  | Some k => bool_decide (is_Some (session e k))
  | None => false
  end.

Definition this_kernel_connection (s : St) : option nat :=
  match kernel (this s) with
  | Some k => session_kernel (env s) k
  | None => None
  end.

(** [KernelSocketMap.get(id)?.protocol || ''] *)
Definition protocol_of (e : Env) (kernelId : string) : string :=
  match KernelSocketMap e kernelId with
  | Some sock => socket_protocol e sock
  | None => ""
  end.

Section Dispatcher.
Context `{Collaborators}.

Definition uuid : M string := λ s,
  (Ret (generateUuid (uuids s)), set_uuids (S (uuids s)) s).

Definition JSON_parse_or_throw (text : string) : M KMessage :=
  match JSON_parse text with
  | Some msg => ret msg
  | None => throw SyntaxError
  end.

Definition deserialize_or_throw (d : Raw) (protocol : string) : M KMessage :=
  match deserialize d protocol with
  | Some msg => ret msg
  | None => throw DeserializeError
  end.

Definition sendRestartKernel : M unit := raisePostMessage Post_onRestartKernel.

Definition sendKernelOptions (protocol : string) : M unit :=
  s <- get ;;
  match this_kernel_connection s with
  | None => ret tt
  | Some c =>
      let k := connection (env s) c in
      let protocol := if truthy protocol then protocol else protocol_of (env s) (kid k) in
      raisePostMessage (Post_kernelOptions (kid k) (clientId k) (username k) protocol)
  end.

(** *** The outbound queue *)

(** [DataView] buffers are replaced by the [ArrayBuffer] behind them. *)
Definition normalize (msg : KMessage) : KMessage :=
  {| channel := channel msg; header := header msg; parent_header := parent_header msg;
     content := content msg;
     buffers := (λ b, match b with DataView buf => ArrayBuffer buf | _ => b end)
                  <$> buffers msg |}.

(** The body of the [try] in [sendPendingMessages], for the head [message]
    of the queue. *)
Definition sendHead (protocol : string) (message : Raw) : M unit :=
  msg <- match message with
         | RString text => JSON_parse_or_throw text
         | _ => deserialize_or_throw message protocol
         end ;;
  let msg := normalize msg in
  s <- get ;;
  match this_kernel_connection s with
  | None => throw TypeError
  | Some c =>
      (if send_throws (env s) c msg then throw SendError
       else if bool_decide (channel msg = Some "control")
            then call (sendControlMessage c msg)
            else call (sendShellMessage c msg)) ;;
      upd (λ d, set_pendingMessages (tail (pendingMessages d)) d)
  end.

(** The [while] loop of [sendPendingMessages].  [queue] is
    [this.pendingMessages] as it stands at the loop test: a round either
    shifts the head and goes on with the tail, or logs and returns. *)
Fixpoint sendLoop (protocol : string) (queue : list Raw) : M unit :=
  match queue with
  | [] => ret tt
  | message :: rest =>
      sent <- try_catch (sendHead protocol message ;; ret true)
                (λ ex, logger (log_error "Failed to send message to Kernel" (Some ex)) ;;
                       ret false) ;;
      if sent : bool then sendLoop protocol rest else ret tt
  end.

Definition sendPendingMessages (protocol : string) : M unit :=
  s <- get ;;
  match this_kernel_connection s with
  | None => ret tt
  | Some c =>
      let protocol :=
        if truthy protocol then protocol
        else protocol_of (env s) (kid (connection (env s) c)) in
      sendLoop protocol (pendingMessages (this s))
  end.

Definition sendRawPayloadToKernelSocket (payload : Raw) : M unit :=
  upd (λ d, set_pendingMessages (pendingMessages d ++ [payload]) d) ;;
  sendPendingMessages "".

(** *** Comm targets *)

(** [kernelCommTargets.get(conn)?.targets?.has(name)] *)
Definition third_party_has (s : St) (c : nat) (targetName : string) : bool :=
  match JsMap.get c (kernelCommTargets s) with
  | Some targets => JsSet.has targetName targets
  | None => false
  end.

(** The [while] loop of [registerCommTargets].  A round that neither
    returns nor takes the [continue] removes a name from the pending set,
    so [registerCommTargets] gives the loop one round more than there are
    pending names: a loop still running after that is going round the
    [continue], which changes nothing, for ever. *)
Fixpoint registerCommTargets_loop (rounds : nat) (k : nat) : M unit :=
  match rounds with
  | 0 => diverge
  | S rounds =>
      d <- gets this ;;
      match pendingTargetNames d with
      | [] => ret tt
      | targetName :: _ =>
          if negb (truthy targetName) then registerCommTargets_loop rounds k
          else if JsSet.has targetName (commTargetsRegistered d) then ret tt
          else
            logger (log_trace ("Registering commtarget " +:+ targetName)) ;;
            upd (λ d, set_commTargetsRegistered
                        (JsSet.add targetName (commTargetsRegistered d)) d) ;;
            upd (λ d, set_pendingTargetNames
                        (JsSet.delete targetName (pendingTargetNames d)) d) ;;
            s <- get ;;
            match session_kernel (env s) k with
            | Some c =>
                when (negb (String.eqb targetName DefaultCommTarget)
                      && negb (third_party_has s c targetName))
                  (call (registerCommTarget_call c targetName))
            | None => ret tt
            end ;;
            registerCommTargets_loop rounds k
      end
  end.

Definition registerCommTargets (k : nat) : M unit :=
  d <- gets this ;;
  registerCommTargets_loop (S (length (pendingTargetNames d))) k.

(** *** Subscribing to the kernel socket *)

(** The body of [if (this.kernelWasConnectedAtLeastOnce)] in
    [subscribeToKernelSocketImpl]: the kernel restarted, so all of the
    messages up to this point are discarded. *)
Definition discardOnRestart : M unit :=
  upd (set_pendingMessages []) ;;
  d <- gets this ;;
  forEach (waitingMessageIds d) (λ e, resolve e.2 VUndefined) ;;
  upd (set_waitingMessageIds []) ;;
  d <- gets this ;;
  forEach (messageHookRequests d) (λ m, resolve m.2 (VBool false)) ;;
  upd (set_messageHookRequests []) ;;
  upd (set_messageHooks []) ;;
  sendRestartKernel.

(** The end of [subscribeToKernelSocketImpl], once the kernel connection [c]
    and its socket are known. *)
Definition attachToSocket (k c newSocket : nat) : M unit :=
  modify (λ s, if JsMap.has c (kernelCommTargets s) then s
               else set_kernelCommTargets (JsMap.set c [] (kernelCommTargets s)) s) ;;
  upd (set_kernelWasConnectedAtLeastOnce true) ;;
  e <- gets env ;;
  let protocol := socket_protocol e newSocket in
  call (addReceiveHook newSocket protocol) ;;
  call (addSendHook newSocket protocol) ;;
  upd (λ d, set_kernelSocketHandlers
              (JsMap.set newSocket protocol (kernelSocketHandlers d)) d) ;;
  sendKernelOptions protocol ;;
  (* Since we have connected to a kernel, send any pending messages. *)
  registerCommTargets k ;;
  sendPendingMessages protocol.

(** [oldSocket?.removeReceiveHook], [oldSocket?.removeSendHook] *)
Definition removeOldHandlers (oldKernelId : option string) : M unit :=
  s <- get ;;
  let oldSocket :=
    match oldKernelId with
    | Some i => if truthy i then KernelSocketMap (env s) i else None
    | None => None
    end in
  match oldSocket with
  | Some sock =>
      match JsMap.get sock (kernelSocketHandlers (this s)) with
      | Some protocol =>
          call (removeReceiveHook sock protocol) ;;
          call (removeSendHook sock protocol)
      | None => ret tt
      end
  | None => ret tt
  end.

Definition subscribeToKernelSocketImpl (k : nat) (oldKernelId : option string) : M unit :=
  removeOldHandlers oldKernelId ;;
  d <- gets this ;;
  when (kernelWasConnectedAtLeastOnce d) discardOnRestart ;;
  s <- get ;;
  match session_kernel (env s) k with
  | None => ret tt
  | Some c =>
      let kernelId := kid (connection (env s) c) in
      match (if truthy kernelId then KernelSocketMap (env s) kernelId else None) with
      | None => ret tt
      | Some newSocket => attachToSocket k c newSocket
      end
  end.

Definition subscribeToKernelSocket (k : nat) : M unit :=
  s <- get ;;
  if subscribedToKernelSocket (this s) || negb (has_session (env s) (Some k)) then ret tt
  else
    upd (set_subscribedToKernelSocket true) ;;
    subscribeToKernelSocketImpl k None ;;
    (* Listen to changes to kernel socket (e.g. restarts or changes to kernel). *)
    let oldKernelId := (λ c, kid (connection (env s) c)) <$> session_kernel (env s) k in
    modify (set_socketChangeListener (Some (k, oldKernelId))).

(** The listener [subscribeToKernelSocket] leaves on
    [onDidKernelSocketChange]; [oldKernelId] is the variable it closes
    over. *)
Definition onDidKernelSocketChange : M unit :=
  s <- get ;;
  match socketChangeListener s with
  | None => ret tt
  | Some (k, oldKernelId) =>
      subscribeToKernelSocketImpl k oldKernelId ;;
      let current :=
        match session_kernel (env s) k with
        | Some c => kid (connection (env s) c)
        | None => ""
        end in
      modify (set_socketChangeListener (Some (k, Some current)))
  end.

Definition getKernel : M (option nat) :=
  s <- get ;;
  when (negb (has_session (env s) (kernel (this s))))
    (upd (set_kernel (provider_get (env s))) ;;
     match provider_get (env s) with
     | Some k => modify (λ s, set_disposedListeners (disposedListeners s ++ [k]) s)
     | None => ret tt
     end) ;;
  d <- gets this ;;
  match kernel d with
  | Some k =>
      when (negb (kernelRestartHandlerAttached d))
        (upd (set_kernelRestartHandlerAttached true) ;;
         modify (set_restartedListener (Some k)) ;;
         upd (λ d, set_disposables (disposables d ++ [onRestarted_subscription k]) d))
  | None => ret tt
  end ;;
  gets (λ s, kernel (this s)).

Definition initialize : M unit :=
  k <- getKernel ;;
  match k with
  | Some k => subscribeToKernelSocket k ;; registerCommTargets k
  | None => ret tt
  end.

Definition registerCommTarget (targetName : string) : M unit :=
  upd (λ d, set_pendingTargetNames (JsSet.add targetName (pendingTargetNames d)) d) ;;
  initialize.

(** When a kernel restarts, the comm targets are registered again. *)
Definition handleKernelRestarts : M unit :=
  s <- get ;;
  if disposed (this s)
     || bool_decide (commTargetsRegistered (this s) = [])
     || negb (has_session (env s) (kernel (this s)))
  then ret tt
  else
    forEach (commTargetsRegistered (this s)) (λ targetName,
      upd (λ d, set_commTargetsRegistered
                  (JsSet.delete targetName (commTargetsRegistered d)) d) ;;
      upd (λ d, set_pendingTargetNames
                  (JsSet.add targetName (pendingTargetNames d)) d)) ;;
    match kernel (this s) with
    | Some k => subscribeToKernelSocket k ;; registerCommTargets k
    | None => ret tt
    end.

(** [disposable.dispose()] for the subscriptions the class keeps. *)
Definition dispose_subscription (x : Disposable) : M unit :=
  match x with
  | onDidStartKernel_subscription => modify (set_startKernelListener false)
  | onRestarted_subscription _ => modify (set_restartedListener None)
  end.

Definition dispose : M unit :=
  upd (set_disposed true) ;;
  d <- gets this ;;
  forEach (disposables d) (λ disposable,
    upd (λ d, set_disposables (tail (disposables d)) d) ;;
    dispose_subscription disposable).

(** *** Message hooks *)

Definition removeMessageHook (msgId : string) : M unit :=
  s <- get ;;
  match this_kernel_connection s with
  | Some c =>
      when (JsSet.has msgId (messageHooks (this s)))
        (upd (λ d, set_messageHooks (JsSet.delete msgId (messageHooks d)) d) ;;
         call (removeMessageHook_call c msgId))
  | None => ret tt
  end.

Definition registerMessageHook (msgId : string) : M unit :=
  try_finally
    (s <- get ;;
     match this_kernel_connection s with
     | Some c =>
         when (negb (JsSet.has msgId (messageHooks (this s))))
           (upd (λ d, set_messageHooks (JsSet.add msgId (messageHooks d)) d) ;;
            call (registerMessageHook_call c msgId))
     | None => ret tt
     end)
    (raisePostMessage (Post_ExtensionOperationHandled msgId RegisterMessageHook)).

Definition possiblyRemoveMessageHook (hookMsgId : string) (lastHookedMsgId : option string)
  : M unit :=
  try_finally
    (match lastHookedMsgId with
     | Some l =>
         if truthy l
         then upd (λ d, set_pendingHookRemovals (JsMap.set l hookMsgId (pendingHookRemovals d)) d)
         else removeMessageHook hookMsgId
     | None => removeMessageHook hookMsgId
     end)
    (raisePostMessage (Post_ExtensionOperationHandled hookMsgId RemoveMessageHook)).

Definition messageHookCallback (msg : KMessage) : M PValue :=
  promise <- createDeferred ;;
  requestId <- uuid ;;
  d <- gets this ;;
  match msg_id <$> parent_header msg with
  | Some parentId =>
      if JsSet.has parentId (messageHooks d)
      then
        upd (λ d, set_messageHookRequests
                    (JsMap.set requestId promise (messageHookRequests d)) d) ;;
        raisePostMessage (Post_MessageHookCall requestId (Some parentId) msg)
      else resolve promise (VBool true)
  | None => resolve promise (VBool true)
  end ;;
  (* Might have a pending removal. *)
  match header msg with
  | None => throw TypeError
  | Some h =>
      d <- gets this ;;
      match JsMap.get (msg_id h) (pendingHookRemovals d) with
      | Some hookId =>
          upd (λ d, set_pendingHookRemovals
                      (JsMap.delete (msg_id h) (pendingHookRemovals d)) d) ;;
          removeMessageHook hookId
      | None => ret tt
      end
  end ;;
  await (AwaitHookDecision promise).

Definition handleMessageHookResponse (requestId parentId msgType : string) (result : bool)
  : M unit :=
  d <- gets this ;;
  match JsMap.get requestId (messageHookRequests d) with
  | Some promise =>
      upd (λ d, set_messageHookRequests (JsMap.delete requestId (messageHookRequests d)) d) ;;
      (* During a comm message, make sure all messages come out. *)
      resolve promise (VBool (if includes msgType "comm" then true else result))
  | None => ret tt
  end.

(** *** Inbound frames *)

Definition msg_type_is (message : KMessage) (t : string) : bool :=
  bool_decide (msg_type <$> header message = Some t).

Definition content_data (message : KMessage) : option ContentData :=
  match content message with Some c => data c | None => None end.

Definition content_comm_id (message : KMessage) : option string :=
  match content message with Some c => comm_id c | None => None end.

(** Whether only the UI acknowledging the message as fully handled lets the
    next message through. *)
Definition messageNeedsFullHandle (d : Dispatcher) (message : KMessage) : bool :=
  bool_decide (channel message = Some "iopub")
  && msg_type_is message "comm_msg"
  && bool_decide ((content_data message ≫= method) = Some "update")
  && JsSet.has (content_comm_id message) (outputWidgetIds d).

(** Callback from the UI kernel when an iopub message has been fully
    handled. *)
Definition iopubMessageHandled (msgId : string) : M unit :=
  d <- gets this ;;
  match fullHandleMessage d with
  | Some (i, promise) =>
      when (String.eqb i msgId)
        (resolve promise VUndefined ;; upd (set_fullHandleMessage None))
  | None => ret tt
  end.

Definition onKernelSocketResponse (i : string) : M unit :=
  d <- gets this ;;
  match JsMap.get i (waitingMessageIds d) with
  | Some pending =>
      upd (λ d, set_waitingMessageIds (JsMap.delete i (waitingMessageIds d)) d) ;;
      resolve pending VUndefined
  | None => ret tt
  end.

Definition mustDeserialize (d : Raw) : bool :=
  match d with
  | RString text =>
      includes text WIDGET_MIMETYPE || includes text DefaultCommTarget
      || includes text "comm_open" || includes text "comm_close"
      || includes text "comm_msg"
  | _ => true
  end.

(** Hints that ipywidgets are used in outputs. *)
Definition usesIPyWidgets (message : KMessage) : bool :=
  match content message with
  | Some c =>
      match data c with
      | Some cd => widget_view cd || bool_decide (target_name c = Some DefaultCommTarget)
      | None => false
      end
  | None => false
  end.

Definition isIPYWidgetOutputModelOpen (message : KMessage) : bool :=
  let st := content_data message ≫= state in
  msg_type_is message "comm_open"
  && bool_decide ((st ≫= _model_module) = Some "@jupyter-widgets/output")
  && bool_decide ((st ≫= _model_name) = Some "OutputModel").

Definition isIPYWidgetOutputModelClose (d : Dispatcher) (message : KMessage) : bool :=
  msg_type_is message "comm_close"
  && JsSet.has (content_comm_id message) (outputWidgetIds d).

(** [onKernelSocketMessage] up to its first [await]. *)
Definition onKernelSocketMessage (protocol : string) (d : Raw) : M unit :=
  msgUuid <- uuid ;;
  promise <- createDeferred ;;
  upd (λ t, set_waitingMessageIds (JsMap.set msgUuid promise (waitingMessageIds t)) t) ;;
  deserializedMessage <-
    match d with
    | RString text =>
        if shouldMessageBeMirroredWithRenderer (inl text) then
          raisePostMessage (Post_msg msgUuid text) ;;
          if includes text "display_data" then
            message <- deserialize_or_throw d protocol ;;
            when (isDisplayDataMsg message)
              (modify (λ s, set_displayed (displayed s ++ [message]) s)) ;;
            ret (Some message)
          else ret None
        else ret None
    | _ =>
        let dataToSend := serializeDataViews [d] in
        let deSerialized := deserializeDataViews dataToSend in
        logger (console_error dataToSend deSerialized) ;;
        raisePostMessage (Post_binary_msg msgUuid (serializeDataViews [d])) ;;
        ret None
    end ;;
  (* Deserialize only if the message may hold data we are interested in. *)
  if mustDeserialize d then
    message <- match deserializedMessage with
               | Some message => ret message
               | None => deserialize_or_throw d protocol
               end ;;
    if negb (shouldMessageBeMirroredWithRenderer (inr message)) then ret tt
    else
      when (usesIPyWidgets message) (upd (set_isUsingIPyWidgets true)) ;;
      t <- gets this ;;
      if isIPYWidgetOutputModelOpen message then
        upd (λ t, set_outputWidgetIds
                    (JsSet.add (content_comm_id message) (outputWidgetIds t)) t)
      else if isIPYWidgetOutputModelClose t message then
        upd (λ t, set_outputWidgetIds
                    (JsSet.delete (content_comm_id message) (outputWidgetIds t)) t)
      else if messageNeedsFullHandle t message then
        match header message with
        | None => throw TypeError
        | Some h =>
            gate <- createDeferred ;;
            upd (set_fullHandleMessage (Some (msg_id h, gate))) ;;
            await (AwaitSocketAck promise)
        end
      else ret tt
  else ret tt.

(** *** Mirroring of execute requests *)

Definition mirrorExecuteRequest (h : Header) (msg : KMessage) : M nat :=
  promise <- createDeferred ;;
  upd (λ t, set_waitingMessageIds (JsMap.set (msg_id h) promise (waitingMessageIds t)) t) ;;
  raisePostMessage (Post_mirror_execute (msg_id h) msg) ;;
  ret promise.

(** What both branches of [mirrorSend] do with the message once they have
    it.  [msg.header.msg_type] is read only when the channel is ['shell'],
    and throws when there is no header. *)
Definition mirrorShellExecute (msg : KMessage) : M unit :=
  if bool_decide (channel msg = Some "shell") then
    match header msg with
    | None => throw TypeError
    | Some h =>
        if String.eqb (msg_type h) "execute_request" then
          if negb (shouldMessageBeMirroredWithRenderer (inr msg)) then ret tt
          else
            promise <- mirrorExecuteRequest h msg ;;
            t <- gets this ;;
            (* Without ipywidgets so far there is no need to synchronize. *)
            if isUsingIPyWidgets t then await (AwaitMirror promise) else ret tt
        else ret tt
    end
  else ret tt.

(** [mirrorSend] up to its [await].  In the string branch the source tests
    [typeof data === 'string'] once more, so its [this.deserialize(data)]
    alternative is never taken. *)
Definition mirrorSend (protocol : string) (d : Raw) : M unit :=
  match d with
  | RString text =>
      if includes text "shell" && includes text "execute_request" then
        msg <- JSON_parse_or_throw text ;;
        mirrorShellExecute msg
      else ret tt
  | _ =>
      try_catch
        (msg <- deserialize_or_throw d protocol ;;
         mirrorShellExecute msg)
        (λ ex, logger (log_error "Failed to mirror message to kernel" (Some ex)))
  end.

(** *** Commands of the render surface *)

Definition receiveMessage (message : IPyWidgetMessage) : M unit :=
  match message with
  | IPyWidgets_logMessage category text =>
      if String.eqb category "error"
      then logger (log_error ("Widget Error: " +:+ text) None)
      else logger (log_trace ("Widget Message: " +:+ text))
  | IPyWidgets_Ready => sendKernelOptions "" ;; initialize
  | IPyWidgets_msg payload => sendRawPayloadToKernelSocket payload
  | IPyWidgets_binary_msg payload =>
      match deserializeDataViews payload with
      | Some views => sendRawPayloadToKernelSocket (default RUndefined (head views))
      | None => throw TypeError
      end
  | IPyWidgets_msg_received i => onKernelSocketResponse i
  | IPyWidgets_registerCommTarget targetName => registerCommTarget targetName
  | IPyWidgets_RegisterMessageHook msgId => registerMessageHook msgId
  | IPyWidgets_RemoveMessageHook hookMsgId lastHookedMsgId =>
      possiblyRemoveMessageHook hookMsgId lastHookedMsgId
  | IPyWidgets_MessageHookResult requestId parentId msgType result =>
      handleMessageHookResponse requestId parentId msgType result
  | IPyWidgets_iopub_msg_handled i => iopubMessageHandled i
  | IPyWidgets_other => ret tt
  end.

(** *** Comm targets of other extensions (module level) *)

Definition registerCommTargetFor3rdPartyExtensions (c : nat) (targetName : string) : M unit :=
  s <- get ;;
  match JsMap.get c (kernelCommTargets s) with
  | Some targets =>
      modify (set_kernelCommTargets
                (JsMap.set c (JsSet.add targetName targets) (kernelCommTargets s))) ;;
      raisePostMessage (Post_registerCommTarget targetName)
  | None => ret tt
  end.

Definition removeCommTargetFor3rdPartyExtensions (c : nat) (targetName : string) : M unit :=
  s <- get ;;
  match JsMap.get c (kernelCommTargets s) with
  | Some targets =>
      modify (set_kernelCommTargets
                (JsMap.set c (JsSet.delete targetName targets) (kernelCommTargets s)))
  | None => ret tt
  end.

(** ** Calls, suspension and the event loop *)

(** What runs when a suspended call is woken up. *)
Definition continue (k : Cont) : M PValue :=
  match k with
  | AwaitSocketAck _ =>
      t <- gets this ;;
      match fullHandleMessage t with
      | Some (_, gate) => await (AwaitFullHandle gate)
      | None => throw TypeError
      end
  | AwaitFullHandle _ => upd (set_fullHandleMessage None) ;; ret VUndefined
  | AwaitMirror _ => ret VUndefined
  | AwaitHookDecision p =>
      s <- get ;;
      match promises s !! p with
      | Some (Resolved v) => ret v
      | _ => ret VUndefined
      end
  end.

(** The promise of call number [t] after its code ended with [o].  A call
    that awaits a promise already resolved is queued at once. *)
Definition settle_call (t : nat) (o : Outcome PValue * St) : St :=
  let '(r, s) := o in
  let record st := set_tasks (if decide (t < length (tasks s))
                              then <[t := st]> (tasks s) else tasks s ++ [st]) s in
  match r with
  | Ret v => record (Returned v)
  | Throw e => record (Rejected e)
  | Await k =>
      let s' := record (Suspended k) in
      if is_resolved s' (awaited k) then set_microtasks (microtasks s' ++ [t]) s' else s'
  | Diverge => set_hung true s
  end.

(** A call of an [async] method: it runs up to its first [await]. *)
Definition async (m : M PValue) (s : St) : St :=
  let o := m s in settle_call (length (tasks o.2)) o.

Definition void (m : M unit) : M PValue := m ;; ret VUndefined.

(** A call of an ordinary method from the event loop. *)
Definition sync (m : M unit) (s : St) : St :=
  match m s with
  | (Diverge, s') => set_hung true s'
  | (_, s') => s'
  end.

(** One microtask: call [t] goes on after the [await] it was suspended at. *)
Definition resume (t : nat) (s : St) : St :=
  match tasks s !! t with
  | Some (Suspended k) =>
      if is_resolved s (awaited k) then settle_call t (continue k s) else s
  | _ => s
  end.

Fixpoint drain (fuel : nat) (s : St) : St :=
  match fuel with
  | 0 => s
  | S fuel =>
      match microtasks s with
      | [] => s
      | t :: rest => drain fuel (resume t (set_microtasks rest s))
      end
  end.

(** The microtask queue is run until it is empty.  A call is queued again
    at most once (from [AwaitSocketAck] to [AwaitFullHandle]). *)
Definition run_microtasks (s : St) : St :=
  drain (length (microtasks s) + length (tasks s)) s.

(** What can happen to a dispatcher. *)
Inductive Event :=
  (** the render surface sends a command *)
  | Receive (message : IPyWidgetMessage)
  (** [kernelProvider.onDidStartKernel] fires, for this document or another *)
  | KernelStarted (thisDocument : bool)
  (** [session.onDidKernelSocketChange] fires *)
  | KernelSocketChanged
  (** [kernel.onRestarted] fires on [IKernel] number [k] *)
  | KernelRestarted (k : nat)
  (** [kernel.onDisposed] fires on [IKernel] number [k] *)
  | KernelDisposed (k : nat)
  (** a kernel socket calls its receive hook *)
  | SocketReceive (protocol : string) (d : Raw)
  (** a kernel socket calls its send hook *)
  | SocketSend (protocol : string) (d : Raw)
  (** the kernel connection calls a message hook *)
  | IOPubHook (msg : KMessage)
  | Dispose
  | ThirdPartyRegister (c : nat) (targetName : string)
  | ThirdPartyRemove (c : nat) (targetName : string)
  (** the collaborators change: a kernel starts, a session appears, ... *)
  | World (e : Env).

Definition handle (ev : Event) (s : St) : St :=
  match ev with
  | Receive message => sync (receiveMessage message) s
  | KernelStarted thisDocument =>
      if startKernelListener s && thisDocument then sync initialize s else s
  | KernelSocketChanged => sync onDidKernelSocketChange s
  | KernelRestarted k =>
      if bool_decide (restartedListener s = Some k)
      then async (void handleKernelRestarts) s else s
  | KernelDisposed k =>
      if bool_decide (k ∈ disposedListeners s) then sync (upd (set_kernel None)) s else s
  | SocketReceive protocol d => async (void (onKernelSocketMessage protocol d)) s
  | SocketSend protocol d => async (void (mirrorSend protocol d)) s
  | IOPubHook msg => async (messageHookCallback msg) s
  | Dispose => sync dispose s
  | ThirdPartyRegister c targetName =>
      sync (registerCommTargetFor3rdPartyExtensions c targetName) s
  | ThirdPartyRemove c targetName =>
      sync (removeCommTargetFor3rdPartyExtensions c targetName) s
  | World e => set_env e s
  end.

(** One turn of the event loop: the handler, then the microtasks.  Nothing
    happens any more once a handler has failed to end. *)
Definition step (s : St) (ev : Event) : St :=
  if hung s then s else run_microtasks (handle ev s).

Definition run (s : St) (evs : list Event) : St := foldl step s evs.

(** The state the constructor leaves. *)
Definition constructed (e : Env) : St :=
  {| this := {| commTargetsRegistered := []; pendingTargetNames := ["jupyter.widget"];
                kernel := None; messageHooks := []; pendingHookRemovals := [];
                messageHookRequests := [];
                disposables := [onDidStartKernel_subscription];
                kernelRestartHandlerAttached := false;
                kernelWasConnectedAtLeastOnce := false; disposed := false;
                pendingMessages := []; subscribedToKernelSocket := false;
                waitingMessageIds := []; outputWidgetIds := [];
                fullHandleMessage := None; isUsingIPyWidgets := false;
                kernelSocketHandlers := [] |};
     promises := []; tasks := []; microtasks := []; uuids := 0; posted := [];
     displayed := []; logged := []; calls := []; kernelCommTargets := [];
     startKernelListener := true; restartedListener := None; disposedListeners := [];
     socketChangeListener := None; env := e; hung := false |}.

End Dispatcher.

(** ** A concrete setting

    One kernel with one socket, and collaborators that understand a handful
    of frames; used to run the dispatcher on explicit inputs. *)
Module Example.

Definition frame (ch type i : string) (c : option Content) : KMessage :=
  {| channel := Some ch; header := Some {| msg_type := type; msg_id := i |};
     parent_header := None; content := c; buffers := [] |}.

(** [comm_open] for an Output widget with comm id [X]. *)
Definition open_output : KMessage :=
  frame "iopub" "comm_open" "o1"
    (Some {| comm_id := Some "X"; target_name := Some "jupyter.widget";
             data := Some {| widget_view := false; method := None;
                             state := Some {| _model_module := Some "@jupyter-widgets/output";
                                              _model_name := Some "OutputModel" |} |} |}).

Definition close_output : KMessage :=
  frame "iopub" "comm_close" "c1"
    (Some {| comm_id := Some "X"; target_name := None; data := None |}).

(** A state update for comm [X], with message id [i]. *)
Definition update_output (i : string) : KMessage :=
  frame "iopub" "comm_msg" i
    (Some {| comm_id := Some "X"; target_name := None;
             data := Some {| widget_view := false; method := Some "update";
                             state := None |} |}).

Definition execute (i : string) : KMessage := frame "shell" "execute_request" i None.

Definition control : KMessage := frame "control" "comm_msg" "k1" None.

(** The frames the example parser understands, by their text. *)
Definition frames : list (string * KMessage) :=
  [ ("iopub comm_open o1 X @jupyter-widgets/output OutputModel", open_output);
    ("iopub comm_close c1 X", close_output);
    ("iopub comm_msg u1 X update", update_output "u1");
    ("iopub comm_msg u2 X update", update_output "u2");
    ("shell execute_request e1", execute "e1");
    ("shell execute_request e2", execute "e2");
    ("control comm_msg k1", control) ].

Definition parse (text : string) : option KMessage := JsMap.get text frames.

#[export] Instance collaborators : Collaborators :=
  {| JSON_parse := parse;
     deserialize := λ d _, match d with
                           | RString text => parse text
                           | RBinary [b] => if Byte.eqb b Byte.x01 then Some (execute "b1")
                                            else None
                           | _ => None
                           end;
     shouldMessageBeMirroredWithRenderer := λ _, true;
     isDisplayDataMsg := λ _, false;
     serializeDataViews := λ _, "[]";
     deserializeDataViews := λ _, Some [];
     generateUuid := λ n, "uuid-" +:+ pretty n;
     WIDGET_MIMETYPE := "application/vnd.jupyter.widget-view+json";
     DefaultCommTarget := "jupyter.widget" |}.

(** A provider with one kernel, whose session has a live connection with a
    socket; [fails] tells which messages the connection refuses to send. *)
Definition live (fails : KMessage → bool) : Env :=
  {| provider_get := Some 0;
     session := λ _, Some (Some 0);
     connection := λ _, {| kid := "kernel-1"; clientId := "client"; username := "user" |};
     KernelSocketMap := λ i, if String.eqb i "kernel-1" then Some 0 else None;
     socket_protocol := λ _, "v1.kernel.websocket.jupyter.org";
     send_throws := λ _ msg, fails msg |}.

(** No kernel yet. *)
Definition idle : Env :=
  {| provider_get := None;
     session := λ _, None;
     connection := λ _, {| kid := ""; clientId := ""; username := "" |};
     KernelSocketMap := λ _, None;
     socket_protocol := λ _, "";
     send_throws := λ _ _, false |}.

(** Frames on the socket of that kernel, as events. *)
Definition opening : Event :=
  SocketReceive "" (RString "iopub comm_open o1 X @jupyter-widgets/output OutputModel").


Definition updating (i : string) : Event :=
  SocketReceive "" (RString ("iopub comm_msg " +:+ i +:+ " X update")).

Definition sending (i : string) : Event :=
  SocketSend "" (RString ("shell execute_request " +:+ i)).

Definition acknowledged (i : string) : Event := Receive (IPyWidgets_msg_received i).

Definition handled (i : string) : Event := Receive (IPyWidgets_iopub_msg_handled i).

(** The dispatcher once the kernel has started, and once it has also seen
    the [comm_open] of the Output widget [X]. *)
Definition started : St := run (constructed (live (λ _, false))) [KernelStarted true].

Definition opened : St :=
  run (constructed (live (λ _, false))) [KernelStarted true; opening].

End Example.

(** * Properties *)

(** ** Containers *)

Section Containers.
Context {K V : Type} `{EqDecision K}.

Lemma JsMap_get_delete (k : K) (l : list (K * V)) : JsMap.get k (JsMap.delete k l) = None.
Proof.
  unfold JsMap.delete. induction l as [|[k' v] l IH]; [done|].
  rewrite filter_cons. simpl. destruct (decide (k' ≠ k)) as [Hne|Heq]; [|done].
  simpl. by destruct (decide (k' = k)).
Qed.

Lemma JsMap_get_delete_ne (k i : K) (l : list (K * V)) :
  i ≠ k → JsMap.get i (JsMap.delete k l) = JsMap.get i l.
Proof.
  intros Hik. unfold JsMap.delete. induction l as [|[k' v] l IH]; [done|].
  rewrite filter_cons. simpl. destruct (decide (k' ≠ k)) as [Hne|Heq]; simpl.
  - by rewrite IH.
  - apply dec_stable in Heq. subst k'. by destruct (decide (k = i)); [subst|].
Qed.

Lemma JsMap_get_set (k i : K) (v : V) (l : list (K * V)) :
  JsMap.get i (JsMap.set k v l) = if decide (k = i) then Some v else JsMap.get i l.
Proof.
  induction l as [|[k' v'] l IH]; simpl.
  - by destruct (decide (k = i)).
  - destruct (decide (k' = k)) as [->|Hne]; simpl.
    + by destruct (decide (k = i)).
    + rewrite IH. destruct (decide (k' = i)) as [->|]; [|done].
      by destruct (decide (k = i)); [subst|].
Qed.

Lemma JsMap_get_elem_of (k : K) (v : V) (l : list (K * V)) :
  JsMap.get k l = Some v → (k, v) ∈ l.
Proof.
  induction l as [|[k' v'] l IH]; [done|]. simpl.
  destruct (decide (k' = k)) as [->|]; [intros [= ->]; left | right; auto].
Qed.
End Containers.

Section Properties.
Context `{Collaborators}.

Lemma bind_eq {A B} (m : M A) (f : A → M B) s :
  (x <- m ;; f x) s =
  match m s with
  | (Ret a, s') => f a s'
  | (Throw e, s') => (Throw e, s')
  | (Await k, s') => (Await k, s')
  | (Diverge, s') => (Diverge, s')
  end.
Proof. reflexivity. Qed.

(** ** Decisions of message hooks *)

(** C9.  [handleMessageHookResponse] always returns.  When the request id
    names a pending hook request, its promise is resolved: with [true]
    whenever the reported message type contains "comm", whatever the
    reported result, and with the reported result otherwise; the request
    is then forgotten.  When the request id is unknown the state is left
    as it is. *)
Theorem handleMessageHookResponse_decides s requestId parentId msgType result :
  let r := handleMessageHookResponse requestId parentId msgType result s in
  r.1 = Ret tt
  ∧ (∀ promise,
       JsMap.get requestId (messageHookRequests (this s)) = Some promise →
       promises s !! promise = Some Pending →
       (includes msgType "comm" = true →
          promises r.2 !! promise = Some (Resolved (VBool true)))
       ∧ (includes msgType "comm" = false →
          promises r.2 !! promise = Some (Resolved (VBool result)))
       ∧ JsMap.get requestId (messageHookRequests (this r.2)) = None)
  ∧ (JsMap.get requestId (messageHookRequests (this s)) = None → r.2 = s).
Proof.
  unfold handleMessageHookResponse. cbn.
  destruct (JsMap.get requestId _) as [p|] eqn:Hget; cbn.
  - split; [done|]. split; [|done]. intros ? [= <-] Hp. rewrite Hp. cbn.
    assert (p < length (promises s)) by by eapply lookup_lt_Some.
    split_and!.
    + intros ->. by apply list_lookup_insert_eq.
    + intros ->. by apply list_lookup_insert_eq.
    + apply JsMap_get_delete.
  - done.
Qed.
End Properties.

Existing Instance Example.collaborators.

(** C9 on an explicit state: a hook request answered with type [comm_msg]
    and result [false] is resolved with [true]. *)
Lemma handleMessageHookResponse_decides_witness :
  let s := set_promises [Pending]
             (set_this (set_messageHookRequests [("r1", 0)] (this (constructed Example.idle)))
                (constructed Example.idle)) in
  promises (handleMessageHookResponse "r1" "p1" "comm_msg" false s).2 !! 0
    = Some (Resolved (VBool true)).
Proof.
  intros s.
  destruct (handleMessageHookResponse_decides s "r1" "p1" "comm_msg" false) as (_ & Hres & _).
  destruct (Hres 0) as (Hcomm & _ & _); [reflexivity | reflexivity |].
  apply Hcomm. reflexivity.
Defined.

(** ** What a method leaves alone

    [keeps R m]: whatever the state and however [m] ends, the state it
    leaves is related by [R] to the one it found.  For a preorder [R] this
    goes through the structure of a method. *)
Definition keeps (R : St → St → Prop) {A} (m : M A) : Prop := ∀ s, R s (m s).2.

Section Keeps.
Context (R : St → St → Prop) `{!PreOrder R}.

Lemma keeps_ret {A} (a : A) : keeps R (ret a).
Proof. intros s. reflexivity. Qed.

Lemma keeps_get : keeps R get.
Proof. intros s. reflexivity. Qed.

Lemma keeps_gets {A} (f : St → A) : keeps R (gets f).
Proof. intros s. reflexivity. Qed.

Lemma keeps_throw {A} e : keeps R (@throw A e).
Proof. intros s. reflexivity. Qed.

Lemma keeps_await {A} k : keeps R (@await A k).
Proof. intros s. reflexivity. Qed.

Lemma keeps_diverge {A} : keeps R (@diverge A).
Proof. intros s. reflexivity. Qed.

Lemma keeps_modify f : (∀ s, R s (f s)) → keeps R (modify f).
Proof. intros Hf s. apply Hf. Qed.

Lemma keeps_upd f : (∀ s, R s (set_this (f (this s)) s)) → keeps R (upd f).
Proof. intros Hf s. apply Hf. Qed.

Lemma keeps_bind {A B} (m : M A) (f : A → M B) :
  keeps R m → (∀ a, keeps R (f a)) → keeps R (x <- m ;; f x).
Proof.
  intros Hm Hf s. unfold bind. specialize (Hm s).
  destruct (m s) as [[a|e|k|] s']; try exact Hm.
  etrans; [exact Hm | apply Hf].
Qed.

Lemma keeps_try_catch {A} (m : M A) h :
  keeps R m → (∀ e, keeps R (h e)) → keeps R (try_catch m h).
Proof.
  intros Hm Hh s. unfold try_catch. specialize (Hm s).
  destruct (m s) as [[a|e|k|] s']; try exact Hm.
  etrans; [exact Hm | apply Hh].
Qed.

Lemma keeps_try_finally {A} (m : M A) f :
  keeps R m → keeps R f → keeps R (try_finally m f).
Proof.
  intros Hm Hf s. unfold try_finally. specialize (Hm s).
  destruct (m s) as [[a|e|k|] s']; try exact Hm.
  - etrans; [exact Hm|]. apply (keeps_bind f (λ _, ret a)); [done|]. intros _. apply keeps_ret.
  - etrans; [exact Hm|]. apply (keeps_bind f (λ _, throw e)); [done|]. intros _. apply keeps_throw.
Qed.

Lemma keeps_when b m : keeps R m → keeps R (when b m).
Proof. intros Hm. destruct b; [done | apply keeps_ret]. Qed.

Lemma keeps_forEach {A} (l : list A) f : (∀ x, keeps R (f x)) → keeps R (forEach l f).
Proof.
  intros Hf. induction l as [|x l IH]; [apply keeps_ret|].
  apply (keeps_bind (f x) (λ _, forEach l f)); [apply Hf | done].
Qed.

Lemma keeps_sync m s : keeps R m → (∀ s, R s (set_hung true s)) → R s (sync m s).
Proof.
  intros Hm Hh. unfold sync. specialize (Hm s).
  destruct (m s) as [[a|e|k|] s']; try exact Hm.
  etrans; [exact Hm | apply Hh].
Qed.
End Keeps.

Create HintDb keeps.
Create HintDb rel.

(** The structure of a method is taken apart down to its assignments, where
    the relation at hand is unfolded. *)
Ltac keeps_leaf := autounfold with rel; cbn; repeat case_match; cbn; auto.

Ltac preorder := try (solve [typeclasses eauto]).

Ltac keeps_step :=
  lazymatch goal with
  | |- keeps _ (bind _ _) => apply keeps_bind; preorder; [|intros ?]
  | |- keeps _ (ret _) => apply keeps_ret; preorder
  | |- keeps _ get => apply keeps_get; preorder
  | |- keeps _ (gets _) => apply keeps_gets; preorder
  | |- keeps _ (throw _) => apply keeps_throw; preorder
  | |- keeps _ (await _) => apply keeps_await; preorder
  | |- keeps _ diverge => apply keeps_diverge; preorder
  | |- keeps _ (when _ _) => apply keeps_when; preorder
  | |- keeps _ (try_catch _ _) => apply keeps_try_catch; preorder; [|intros ?]
  | |- keeps _ (try_finally _ _) => apply keeps_try_finally; preorder
  | |- keeps _ (forEach _ _) => apply keeps_forEach; preorder; intros ?
  | |- keeps _ (modify _) => apply keeps_modify; intros ?; keeps_leaf
  | |- keeps _ (upd _) => apply keeps_upd; intros ?; keeps_leaf
  | |- keeps _ (match ?x with _ => _ end) => destruct x
  | |- keeps _ (let '(_, _) := ?x in _) => destruct x
  | |- keeps _ _ => first [solve [auto with keeps] | progress cbv zeta]
  end.

Ltac keeps_go := repeat keeps_step.

(** ** The sticky flag *)

(** Once set, [isUsingIPyWidgets] is set. *)
Definition flag_kept (s s' : St) : Prop :=
  isUsingIPyWidgets (this s) = true → isUsingIPyWidgets (this s') = true.

#[export] Instance flag_kept_preorder : PreOrder flag_kept.
Proof. split; [intros s Hs; exact Hs | intros s1 s2 s3 H12 H23 H1; auto]. Qed.

#[export] Hint Unfold flag_kept : rel.

Section Flag.
Context `{Collaborators}.

Lemma flag_resolve p v : keeps flag_kept (resolve p v).
Proof. unfold resolve. keeps_go. Qed.
Hint Resolve flag_resolve : keeps.

Lemma flag_raisePostMessage m : keeps flag_kept (raisePostMessage m).
Proof. unfold raisePostMessage. keeps_go. Qed.
Hint Resolve flag_raisePostMessage : keeps.

Lemma flag_logger l : keeps flag_kept (logger l).
Proof. unfold logger. keeps_go. Qed.
Hint Resolve flag_logger : keeps.

Lemma flag_call c : keeps flag_kept (call c).
Proof. unfold call. keeps_go. Qed.
Hint Resolve flag_call : keeps.

Lemma flag_createDeferred : keeps flag_kept createDeferred.
Proof. intros s Hs. exact Hs. Qed.
Hint Resolve flag_createDeferred : keeps.

Lemma flag_uuid : keeps flag_kept uuid.
Proof. intros s Hs. exact Hs. Qed.
Hint Resolve flag_uuid : keeps.

Lemma flag_sendKernelOptions protocol : keeps flag_kept (sendKernelOptions protocol).
Proof. unfold sendKernelOptions. keeps_go. Qed.
Hint Resolve flag_sendKernelOptions : keeps.

Lemma flag_sendHead protocol message : keeps flag_kept (sendHead protocol message).
Proof. unfold sendHead, JSON_parse_or_throw, deserialize_or_throw. keeps_go. Qed.
Hint Resolve flag_sendHead : keeps.

Lemma flag_sendLoop protocol queue : keeps flag_kept (sendLoop protocol queue).
Proof. induction queue as [|message rest IH]; cbn [sendLoop]; keeps_go. Qed.
Hint Resolve flag_sendLoop : keeps.

Lemma flag_sendPendingMessages protocol : keeps flag_kept (sendPendingMessages protocol).
Proof. unfold sendPendingMessages. keeps_go. Qed.
Hint Resolve flag_sendPendingMessages : keeps.

Lemma flag_registerCommTargets_loop rounds k :
  keeps flag_kept (registerCommTargets_loop rounds k).
Proof. induction rounds as [|rounds IH]; cbn [registerCommTargets_loop]; keeps_go. Qed.
Hint Resolve flag_registerCommTargets_loop : keeps.

Lemma flag_registerCommTargets k : keeps flag_kept (registerCommTargets k).
Proof. unfold registerCommTargets. keeps_go. Qed.
Hint Resolve flag_registerCommTargets : keeps.

Lemma flag_subscribeToKernelSocketImpl k old :
  keeps flag_kept (subscribeToKernelSocketImpl k old).
Proof.
  unfold subscribeToKernelSocketImpl, removeOldHandlers, discardOnRestart, attachToSocket,
    sendRestartKernel.
  keeps_go.
Qed.
Hint Resolve flag_subscribeToKernelSocketImpl : keeps.

Lemma flag_subscribeToKernelSocket k : keeps flag_kept (subscribeToKernelSocket k).
Proof. unfold subscribeToKernelSocket. keeps_go. Qed.
Hint Resolve flag_subscribeToKernelSocket : keeps.

Lemma flag_onDidKernelSocketChange : keeps flag_kept onDidKernelSocketChange.
Proof. unfold onDidKernelSocketChange. keeps_go. Qed.

Lemma flag_getKernel : keeps flag_kept getKernel.
Proof. unfold getKernel. keeps_go. Qed.
Hint Resolve flag_getKernel : keeps.

Lemma flag_initialize : keeps flag_kept initialize.
Proof. unfold initialize. keeps_go. Qed.
Hint Resolve flag_initialize : keeps.

Lemma flag_handleKernelRestarts : keeps flag_kept handleKernelRestarts.
Proof. unfold handleKernelRestarts. keeps_go. Qed.

Lemma flag_dispose : keeps flag_kept dispose.
Proof. unfold dispose, dispose_subscription. keeps_go. Qed.

Lemma flag_removeMessageHook msgId : keeps flag_kept (removeMessageHook msgId).
Proof. unfold removeMessageHook. keeps_go. Qed.
Hint Resolve flag_removeMessageHook : keeps.

Lemma flag_messageHookCallback msg : keeps flag_kept (messageHookCallback msg).
Proof. unfold messageHookCallback. keeps_go. Qed.

Lemma flag_onKernelSocketMessage protocol d : keeps flag_kept (onKernelSocketMessage protocol d).
Proof. unfold onKernelSocketMessage, deserialize_or_throw. keeps_go. Qed.

Lemma flag_mirrorSend protocol d : keeps flag_kept (mirrorSend protocol d).
Proof.
  unfold mirrorSend, mirrorShellExecute, mirrorExecuteRequest, JSON_parse_or_throw,
    deserialize_or_throw.
  keeps_go.
Qed.

Lemma flag_receiveMessage message : keeps flag_kept (receiveMessage message).
Proof.
  unfold receiveMessage, sendRawPayloadToKernelSocket, registerCommTarget,
    registerMessageHook, possiblyRemoveMessageHook, handleMessageHookResponse,
    iopubMessageHandled, onKernelSocketResponse.
  keeps_go.
Qed.

Lemma flag_continue k : keeps flag_kept (continue k).
Proof. unfold continue. keeps_go. Qed.

Lemma flag_settle_call t (o : Outcome PValue * St) s :
  flag_kept s o.2 → flag_kept s (settle_call t o).
Proof. destruct o as [[v|e|k|] s']; unfold flag_kept; cbn; repeat case_match; cbn; auto. Qed.

Lemma flag_async (m : M PValue) s : keeps flag_kept m → flag_kept s (async m s).
Proof. intros Hm. unfold async. apply flag_settle_call, Hm. Qed.

Lemma flag_void (m : M unit) : keeps flag_kept m → keeps flag_kept (void m).
Proof. intros Hm. unfold void. keeps_go. Qed.

Lemma flag_handle ev s : flag_kept s (handle ev s).
Proof.
  assert (Hhung : ∀ s, flag_kept s (set_hung true s)) by (intros ? Hs; exact Hs).
  destruct ev; cbn [handle]; repeat case_match; try reflexivity;
    try (apply keeps_sync; [apply _| |exact Hhung]);
    try apply flag_async; try apply flag_void;
    auto using flag_receiveMessage, flag_initialize, flag_onDidKernelSocketChange,
      flag_handleKernelRestarts, flag_onKernelSocketMessage, flag_mirrorSend,
      flag_messageHookCallback, flag_dispose.
  - unfold registerCommTargetFor3rdPartyExtensions. keeps_go.
  - unfold removeCommTargetFor3rdPartyExtensions. keeps_go.
  - intros Hs. exact Hs.
Qed.

Lemma flag_resume t s : flag_kept s (resume t s).
Proof.
  unfold resume. repeat case_match; try reflexivity.
  apply flag_settle_call, flag_continue.
Qed.

Lemma flag_drain fuel s : flag_kept s (drain fuel s).
Proof.
  revert s. induction fuel as [|fuel IH]; intros s; cbn [drain]; [reflexivity|].
  case_match; [reflexivity|]. etrans; [|apply IH]. etrans; [|apply flag_resume]. intros Hs. exact Hs.
Qed.

Lemma flag_step s ev : flag_kept s (step s ev).
Proof.
  unfold step, run_microtasks. case_match; [reflexivity|].
  etrans; [apply flag_handle | apply flag_drain].
Qed.

Lemma flag_run evs s : flag_kept s (run s evs).
Proof.
  revert s. induction evs as [|ev evs IH]; intros s; [reflexivity|].
  etrans; [apply flag_step | apply IH].
Qed.
End Flag.

(** ** The outbound queue *)

(** The message a payload stands for, as it is handed to the kernel. *)
Definition wire `{Collaborators} (protocol : string) (payload : Raw) : option KMessage :=
  normalize <$> match payload with
                | RString text => JSON_parse text
                | _ => deserialize payload protocol
                end.

(** The call a successful dispatch of [payload] makes on connection [c]; [None]
    when parsing or sending throws. *)
Definition dispatch `{Collaborators} (e : Env) (c : nat) (protocol : string) (payload : Raw)
  : option KernelCall :=
  msg ← wire protocol payload;
  if send_throws e c msg then None
  else Some (if bool_decide (channel msg = Some "control")
             then sendControlMessage c msg else sendShellMessage c msg).

Definition failed_to_send (ex : Error) : LogEntry :=
  log_error "Failed to send message to Kernel" (Some ex).

Section Outbound.
Context `{Collaborators}.

Lemma sendHead_sent protocol payload s c call :
  this_kernel_connection s = Some c →
  dispatch (env s) c protocol payload = Some call →
  sendHead protocol payload s
  = (Ret tt, set_this (set_pendingMessages (tail (pendingMessages (this s))) (this s))
               (set_calls (calls s ++ [call]) s)).
Proof.
  intros Hc Hd. unfold dispatch, wire in Hd. unfold sendHead.
  assert (Hparse : ∃ m, match payload with
                        | RString text => JSON_parse_or_throw text
                        | _ => deserialize_or_throw payload protocol
                        end = ret m
                        ∧ (if send_throws (env s) c (normalize m) then None
                           else Some (if bool_decide (channel (normalize m) = Some "control")
                                      then sendControlMessage c (normalize m)
                                      else sendShellMessage c (normalize m))) = Some call).
  { unfold JSON_parse_or_throw, deserialize_or_throw.
    destruct payload as [text|b|];
      [destruct (JSON_parse text) as [m|] eqn:Hp
      |destruct (deserialize (RBinary b) protocol) as [m|] eqn:Hp
      |destruct (deserialize RUndefined protocol) as [m|] eqn:Hp];
      try done; exists m; by rewrite ?Hp. }
  destruct Hparse as (m & -> & Hsend). cbn. rewrite Hc.
  destruct (send_throws (env s) c (normalize m)); [done|]. injection Hsend as <-.
  by destruct (bool_decide _).
Qed.

Lemma sendHead_failed protocol payload s c :
  this_kernel_connection s = Some c →
  dispatch (env s) c protocol payload = None →
  ∃ ex, sendHead protocol payload s = (Throw ex, s).
Proof.
  intros Hc Hd. unfold dispatch, wire in Hd. unfold sendHead.
  unfold JSON_parse_or_throw, deserialize_or_throw.
  destruct payload as [text|b|];
    [destruct (JSON_parse text) as [m|] eqn:Hp
    |destruct (deserialize (RBinary b) protocol) as [m|] eqn:Hp
    |destruct (deserialize RUndefined protocol) as [m|] eqn:Hp];
    cbn in *; eauto; rewrite Hc;
    destruct (send_throws (env s) c (normalize m)); cbn; eauto; done.
Qed.

(** One flush.  The loop always returns; it hands a prefix of the queue to
    the kernel, in order, and leaves exactly the rest; it stops early only
    at a payload whose dispatch throws, which stays at the head of the queue
    and is logged. *)
Lemma sendLoop_flushes protocol s c :
  this_kernel_connection s = Some c →
  let queue := pendingMessages (this s) in
  let r := sendLoop protocol queue s in
  r.1 = Ret tt
  ∧ ∃ n cs,
      n ≤ length queue
      ∧ Forall2 (λ payload call, dispatch (env s) c protocol payload = Some call)
          (take n queue) cs
      ∧ calls r.2 = calls s ++ cs
      ∧ pendingMessages (this r.2) = drop n queue
      ∧ env r.2 = env s ∧ kernel (this r.2) = kernel (this s) ∧ hung r.2 = hung s
      ∧ match queue !! n with
        | Some payload =>
            dispatch (env s) c protocol payload = None
            ∧ ∃ ex, logged r.2 = logged s ++ [failed_to_send ex]
        | None => logged r.2 = logged s
        end.
Proof.
  intros Hc queue. subst queue.
  remember (pendingMessages (this s)) as queue eqn:Hq.
  revert s Hc Hq. induction queue as [|payload rest IH]; intros s Hc Hq r.
  - split; [done|]. exists 0, []. subst r. cbn. rewrite <- Hq, app_nil_r. done.
  - subst r. cbn [sendLoop]. unfold try_catch. rewrite !bind_eq.
    destruct (dispatch (env s) c protocol payload) as [call|] eqn:Hd.
    + rewrite (sendHead_sent _ _ _ _ _ Hc Hd). cbn.
      set (s1 := set_this _ _).
      destruct (IH s1) as (Hret & n & cs & Hn & Hcs & Hcalls & Hpend & Henv & Hk & Hh & Hnext).
      { done. } { subst s1. cbn. by rewrite <- Hq. }
      split; [done|]. exists (S n), (call :: cs). cbn.
      rewrite Hcalls, Hpend, Henv, Hk, Hh. subst s1. cbn.
      rewrite <- (assoc_L (++)). split_and!; try done; try lia; by constructor.
    + destruct (sendHead_failed _ _ _ _ Hc Hd) as [ex Hex]. rewrite Hex. cbn.
      split; [done|]. exists 0, []. cbn. rewrite <- Hq, app_nil_r.
      split_and!; eauto; try lia; constructor.
Qed.

(** The fields the outbound path reads and writes. *)
Definition outbound (s : St) := (pendingMessages (this s), calls s, kernel (this s), env s, hung s).

Lemma continue_effect k s :
  (continue k s).1 ≠ Diverge
  ∧ ((continue k s).2 = s
     ∨ (continue k s).2 = set_this (set_fullHandleMessage None (this s)) s).
Proof.
  destruct k; cbn; repeat case_match; cbn; auto.
Qed.

(** Microtasks change nothing but the suspended calls, the queue of
    microtasks and the gate. *)
Definition beside_microtasks {B} (π : St → B) : Prop :=
  (∀ s v, π (set_tasks v s) = π s)
  ∧ (∀ s v, π (set_microtasks v s) = π s)
  ∧ (∀ s v, π (set_this (set_fullHandleMessage v (this s)) s) = π s).

Lemma settle_call_beside {B} (π : St → B) t o :
  beside_microtasks π → o.1 ≠ Diverge → π (settle_call t o) = π o.2.
Proof.
  intros (Ht & Hm & _) Hd. destruct o as [[v|e|k|] s]; cbn in *; try done;
    repeat case_match; by rewrite ?Hm, ?Ht.
Qed.

Lemma resume_beside {B} (π : St → B) t s : beside_microtasks π → π (resume t s) = π s.
Proof.
  intros Hπ. unfold resume. repeat case_match; try done.
  destruct (continue_effect k s) as [Hd Hs].
  rewrite settle_call_beside by done.
  destruct Hπ as (_ & _ & Hg). by destruct Hs as [-> | ->].
Qed.

Lemma drain_beside {B} (π : St → B) fuel s : beside_microtasks π → π (drain fuel s) = π s.
Proof.
  intros Hπ. revert s. induction fuel as [|fuel IH]; intros s; cbn [drain]; [done|].
  case_match; [done|]. rewrite IH, resume_beside by done. by destruct Hπ as (_ & -> & _).
Qed.

Lemma run_microtasks_beside {B} (π : St → B) s :
  beside_microtasks π → π (run_microtasks s) = π s.
Proof. apply drain_beside. Qed.

Lemma outbound_beside : beside_microtasks outbound.
Proof. done. Qed.

Lemma sendRawPayloadToKernelSocket_flushes payload s c :
  this_kernel_connection s = Some c →
  let protocol := protocol_of (env s) (kid (connection (env s) c)) in
  let queue := pendingMessages (this s) ++ [payload] in
  let r := sendRawPayloadToKernelSocket payload s in
  r.1 = Ret tt
  ∧ ∃ n cs,
      n ≤ length queue
      ∧ Forall2 (λ payload call, dispatch (env s) c protocol payload = Some call)
          (take n queue) cs
      ∧ calls r.2 = calls s ++ cs
      ∧ pendingMessages (this r.2) = drop n queue
      ∧ env r.2 = env s ∧ kernel (this r.2) = kernel (this s) ∧ hung r.2 = hung s
      ∧ match queue !! n with
        | Some payload =>
            dispatch (env s) c protocol payload = None
            ∧ ∃ ex, logged r.2 = logged s ++ [failed_to_send ex]
        | None => logged r.2 = logged s
        end.
Proof.
  intros Hc protocol queue r.
  set (s1 := set_this (set_pendingMessages queue (this s)) s).
  assert (Hc1 : this_kernel_connection s1 = Some c) by done.
  assert (Hr : r = sendLoop protocol queue s1).
  { subst r. unfold sendRawPayloadToKernelSocket, sendPendingMessages. cbn.
    fold queue. fold s1. by rewrite Hc1. }
  rewrite Hr. apply (sendLoop_flushes protocol s1 c Hc1).
Qed.

(** A raw-send command that finds no kernel connection only queues. *)
Lemma sendRawPayloadToKernelSocket_queues payload s :
  this_kernel_connection s = None →
  sendRawPayloadToKernelSocket payload s
  = (Ret tt, set_this (set_pendingMessages (pendingMessages (this s) ++ [payload]) (this s)) s).
Proof.
  intros Hc. unfold sendRawPayloadToKernelSocket, sendPendingMessages. cbn.
  change (this_kernel_connection (set_this _ s)) with (this_kernel_connection s).
  by rewrite Hc.
Qed.

(** The state after a flush, described: [n] payloads of [queue] went to the
    kernel as the calls [cs], the rest is pending, and the flush stopped
    early only at a payload whose dispatch throws, which it logged. *)
Definition flushed (c : nat) (protocol : string) (queue : list Raw) (s s' : St) : Prop :=
  ∃ n cs,
    n ≤ length queue
    ∧ Forall2 (λ payload call, dispatch (env s) c protocol payload = Some call)
        (take n queue) cs
    ∧ calls s' = calls s ++ cs
    ∧ pendingMessages (this s') = drop n queue
    ∧ match queue !! n with
      | Some payload =>
          dispatch (env s) c protocol payload = None
          ∧ ∃ ex, logged s' = logged s ++ [failed_to_send ex]
      | None => logged s' = logged s
      end.

(** C1.  Raw-send commands never throw into the caller.  With a live kernel
    connection, a raw-send command queues its payload and flushes: a prefix
    of the queue goes to the kernel in order, the rest stays, and a payload
    whose dispatch throws stops the flush, stays queued with all that
    follow it and is logged.  After any sequence of raw-send commands the
    kernel has been handed, in the order of queueing, a prefix of everything
    that was queued, and the pending queue is exactly the rest: a payload
    leaves the queue only by a successful dispatch. *)
Theorem outbound_queue_is_fifo s c payloads :
  hung s = false →
  this_kernel_connection s = Some c →
  let protocol := protocol_of (env s) (kid (connection (env s) c)) in
  (∀ s0 payload, (sendRawPayloadToKernelSocket payload s0).1 = Ret tt)
  ∧ (∀ payload,
       flushed c protocol (pendingMessages (this s) ++ [payload]) s
         (sendRawPayloadToKernelSocket payload s).2)
  ∧ (let queued := pendingMessages (this s) ++ payloads in
     let s' := run s ((λ payload, Receive (IPyWidgets_msg payload)) <$> payloads) in
     ∃ n cs,
       n ≤ length queued
       ∧ Forall2 (λ payload call, dispatch (env s) c protocol payload = Some call)
           (take n queued) cs
       ∧ calls s' = calls s ++ cs
       ∧ pendingMessages (this s') = drop n queued).
Proof.
  intros Hh Hc protocol. split_and!.
  - intros s0 payload. destruct (this_kernel_connection s0) as [c0|] eqn:Hc0.
    + by destruct (sendRawPayloadToKernelSocket_flushes payload s0 c0 Hc0) as [? _].
    + by rewrite sendRawPayloadToKernelSocket_queues.
  - intros payload.
    destruct (sendRawPayloadToKernelSocket_flushes payload s c Hc)
      as (_ & n & cs & ? & ? & ? & ? & _ & _ & _ & ?).
    by exists n, cs.
  - subst protocol. revert s Hh Hc.
    induction payloads as [|payload payloads IH]; intros s Hh Hc.
    + exists 0, []. cbn. rewrite !app_nil_r. split_and!; [lia | constructor | done..].
    + cbn [fmap list_fmap run foldl]. fold (run (step s (Receive (IPyWidgets_msg payload)))
        ((λ payload, Receive (IPyWidgets_msg payload)) <$> payloads)).
      destruct (sendRawPayloadToKernelSocket_flushes payload s c Hc)
        as (Hret & n & cs & Hn & Hcs & Hcalls & Hpend & Henv & Hk & Hhung & _).
      set (s1 := step s (Receive (IPyWidgets_msg payload))).
      assert (Hout : outbound s1 = outbound (sendRawPayloadToKernelSocket payload s).2).
      { subst s1. unfold step. rewrite Hh. rewrite run_microtasks_beside by apply outbound_beside.
        cbn [handle receiveMessage]. unfold sync.
        destruct (sendRawPayloadToKernelSocket payload s) as [[[]| | |] s2]; done. }
      unfold outbound in Hout. injection Hout as Hp1 Hc1 Hk1 He1 Hh1.
      destruct (IH s1) as (n1 & cs1 & Hn1 & Hcs1 & Hcalls1 & Hpend1).
      { congruence. }
      { unfold this_kernel_connection in *. by rewrite Hk1, He1, Hk, Henv. }
      rewrite He1, Henv, Hp1, Hpend in Hcs1. rewrite Hp1, Hpend in Hn1, Hpend1.
      rewrite Hc1, Hcalls in Hcalls1.
      exists (n + n1), (cs ++ cs1).
      assert (Hsplit : pendingMessages (this s) ++ payload :: payloads
                       = take n (pendingMessages (this s) ++ [payload])
                         ++ (drop n (pendingMessages (this s) ++ [payload]) ++ payloads)).
      { rewrite (assoc_L (++)), take_drop. by rewrite <- (assoc_L (++)). }
      assert (Hlen : length (take n (pendingMessages (this s) ++ [payload])) = n).
      { rewrite length_take. lia. }
      rewrite length_app, length_drop in Hn1.
      split_and!.
      * rewrite Hsplit, !length_app, Hlen, length_drop. lia.
      * rewrite Hsplit, take_app_add' by done. by apply Forall2_app.
      * by rewrite Hcalls1, (assoc_L (++)).
      * rewrite Hpend1, Hsplit, drop_app_add' by done. done.
Qed.
End Outbound.



(** ** Kernel restart *)

Definition is_restart_notice (m : PostMsg) : bool :=
  match m with Post_onRestartKernel => true | _ => false end.

(** How many restart notices were posted. *)
Definition restart_notices (s : St) : nat := length (filter is_restart_notice (posted s)).

Definition is_send (c : KernelCall) : bool :=
  match c with sendControlMessage _ _ | sendShellMessage _ _ => true | _ => false end.

(** The payloads handed to the kernel so far. *)
Definition sends (s : St) : list KernelCall := filter is_send (calls s).

(** What a restart settles, and what must not move while the rest of
    [subscribeToKernelSocketImpl] runs on an empty queue. *)
Definition settled (s : St) :=
  (pendingMessages (this s), promises s, waitingMessageIds (this s),
   messageHookRequests (this s), messageHooks (this s), restart_notices s, sends s).

Definition settled_kept (s s' : St) : Prop :=
  pendingMessages (this s) = [] → settled s' = settled s.

#[export] Instance settled_kept_preorder : PreOrder settled_kept.
Proof.
  split; [by intros s|]. intros s1 s2 s3 H12 H23 H1.
  rewrite H23, H12; [done..|]. specialize (H12 H1). unfold settled in H12. congruence.
Qed.

#[export] Hint Unfold settled_kept settled restart_notices sends : rel.

(** Resolving promises touches the promises and the microtask queue only. *)
Definition resolving (s s' : St) : Prop :=
  s' = set_microtasks (microtasks s') (set_promises (promises s') s)
  ∧ length (promises s') = length (promises s)
  ∧ ∀ p v, promises s !! p = Some (Resolved v) → promises s' !! p = Some (Resolved v).

#[export] Instance resolving_preorder : PreOrder resolving.
Proof.
  split.
  - intros s. split_and!; [by destruct s | done | done].
  - intros s1 s2 s3 (E12 & L12 & R12) (E23 & L23 & R23). split_and!.
    + rewrite E23 at 1. rewrite E12 at 1. done.
    + congruence.
    + eauto.
Qed.

Section Restart.
Context `{Collaborators}.

Lemma resolving_resolve p v : keeps resolving (resolve p v).
Proof.
  intros s. unfold resolve, modify. cbn. destruct (promises s !! p) as [[|w]|] eqn:Hp;
    try reflexivity.
  split_and!; [done | cbn; by rewrite length_insert |].
  intros q w Hq. cbn. rewrite list_lookup_insert_ne; [done | congruence].
Qed.

Lemma resolve_resolves p v s :
  p < length (promises s) → is_resolved (resolve p v s).2 p = true.
Proof.
  intros Hp. unfold resolve, modify, is_resolved. cbn.
  destruct (lookup_lt_is_Some_2 _ _ Hp) as [st Hst]. rewrite Hst.
  destruct st; cbn; [|by rewrite Hst]. by rewrite list_lookup_insert_eq.
Qed.

Lemma is_resolved_resolving s s' p :
  resolving s s' → is_resolved s p = true → is_resolved s' p = true.
Proof.
  intros (_ & _ & Hr). unfold is_resolved.
  destruct (promises s !! p) as [[|v]|] eqn:Hp; try done. by rewrite (Hr _ _ Hp).
Qed.

(** [map.forEach((d) => d.resolve(v))]: every promise of the map is resolved
    afterwards. *)
Lemma forEach_resolve (l : list (string * nat)) v s :
  let r := forEach l (λ d, resolve d.2 v) s in
  r.1 = Ret tt ∧ resolving s r.2
  ∧ ∀ i p, (i, p) ∈ l → p < length (promises s) → is_resolved r.2 p = true.
Proof.
  revert s. induction l as [|[j q] l IH]; intros s r.
  - split_and!; [done | reflexivity |]. intros i p Hin. by apply elem_of_nil in Hin.
  - subst r. cbn [forEach]. rewrite bind_eq. change ((j, q).2) with q.
    pose proof (resolving_resolve q v s) as Hq1.
    pose proof (resolve_resolves q v s) as Hq2.
    destruct (resolve q v s) as [[[]| | |] s1] eqn:Hres; try done. cbn in Hq1, Hq2.
    destruct (IH s1) as (Hret & Hres1 & Hall). split_and!; [done | by etrans |].
    intros i p [[= -> ->]|Hin]%elem_of_cons Hp.
    + eapply is_resolved_resolving; eauto.
    + apply (Hall i); [done|]. destruct Hq1 as (_ & -> & _). done.
Qed.

Lemma filter_snoc_false {A} (P : A → bool) l x :
  P x = false → filter P (l ++ [x]) = filter P l.
Proof.
  intros Hx. rewrite filter_app, filter_cons, filter_nil.
  destruct (decide (P x)) as [HP|HP]; [by rewrite Hx in HP | by rewrite app_nil_r].
Qed.

Lemma filter_snoc_true {A} (P : A → bool) l x :
  P x = true → filter P (l ++ [x]) = filter P l ++ [x].
Proof.
  intros Hx. rewrite filter_app, filter_cons, filter_nil.
  destruct (decide (P x)) as [HP|HP]; [done | by rewrite Hx in HP].
Qed.

Lemma settled_post m : is_restart_notice m = false → keeps settled_kept (raisePostMessage m).
Proof.
  intros Hm s _. unfold settled, restart_notices, sends. cbn.
  by rewrite filter_snoc_false.
Qed.

Lemma settled_call c : is_send c = false → keeps settled_kept (call c).
Proof.
  intros Hc s _. unfold settled, restart_notices, sends. cbn.
  by rewrite filter_snoc_false.
Qed.

Lemma settled_logger l : keeps settled_kept (logger l).
Proof. by intros s _. Qed.
Hint Resolve settled_logger : keeps.

Lemma settled_sendKernelOptions protocol : keeps settled_kept (sendKernelOptions protocol).
Proof. unfold sendKernelOptions. keeps_go. by apply settled_post. Qed.
Hint Resolve settled_sendKernelOptions : keeps.

Lemma settled_registerCommTargets_loop rounds k :
  keeps settled_kept (registerCommTargets_loop rounds k).
Proof.
  induction rounds as [|rounds IH]; cbn [registerCommTargets_loop]; keeps_go.
  by apply settled_call.
Qed.
Hint Resolve settled_registerCommTargets_loop : keeps.

Lemma settled_registerCommTargets k : keeps settled_kept (registerCommTargets k).
Proof. unfold registerCommTargets. keeps_go. Qed.
Hint Resolve settled_registerCommTargets : keeps.

(** With nothing queued, a flush does nothing. *)
Lemma sendPendingMessages_empty protocol s :
  pendingMessages (this s) = [] → sendPendingMessages protocol s = (Ret tt, s).
Proof.
  intros Hq. unfold sendPendingMessages. cbn. rewrite Hq. by destruct (this_kernel_connection s).
Qed.

Lemma settled_sendPendingMessages protocol : keeps settled_kept (sendPendingMessages protocol).
Proof. intros s Hq. by rewrite sendPendingMessages_empty. Qed.
Hint Resolve settled_sendPendingMessages : keeps.

Lemma settled_attachToSocket k c newSocket : keeps settled_kept (attachToSocket k c newSocket).
Proof. unfold attachToSocket. keeps_go; by apply settled_call. Qed.

Lemma removeOldHandlers_effect old s :
  (removeOldHandlers old s).1 = Ret tt
  ∧ settled (removeOldHandlers old s).2 = settled s
  ∧ this (removeOldHandlers old s).2 = this s
  ∧ env (removeOldHandlers old s).2 = env s.
Proof.
  unfold removeOldHandlers, settled, restart_notices, sends. cbn.
  repeat case_match; cbn; rewrite ?filter_app, ?app_nil_r; done.
Qed.

(** What [discardOnRestart] leaves: nothing queued, no waiting message, no
    hook request, no hook; every promise that was waited for is resolved;
    one restart notice more; nothing sent. *)
Lemma discardOnRestart_discards s :
  let r := discardOnRestart s in
  r.1 = Ret tt
  ∧ pendingMessages (this r.2) = []
  ∧ waitingMessageIds (this r.2) = []
  ∧ messageHookRequests (this r.2) = []
  ∧ messageHooks (this r.2) = []
  ∧ restart_notices r.2 = S (restart_notices s)
  ∧ sends r.2 = sends s
  ∧ env r.2 = env s
  ∧ (∀ i p, (i, p) ∈ waitingMessageIds (this s) → p < length (promises s) →
       is_resolved r.2 p = true)
  ∧ (∀ i p, (i, p) ∈ messageHookRequests (this s) → p < length (promises s) →
       is_resolved r.2 p = true).
Proof.
  intros r. subst r. unfold discardOnRestart, sendRestartKernel.
  rewrite bind_eq. cbn [upd modify]. rewrite bind_eq. cbn [gets]. rewrite bind_eq.
  set (s1 := set_this (set_pendingMessages [] (this s)) s).
  change (waitingMessageIds (this s1)) with (waitingMessageIds (this s)).
  destruct (forEach_resolve (waitingMessageIds (this s)) VUndefined s1) as (Hr1 & Hres1 & Hall1).
  destruct (forEach (waitingMessageIds (this s)) _ s1) as [o1 s2]. cbn in Hr1, Hres1, Hall1.
  subst o1. rewrite bind_eq. cbn [upd modify]. rewrite bind_eq. cbn [gets]. rewrite bind_eq.
  set (s3 := set_this (set_waitingMessageIds [] (this s2)) s2).
  assert (Hthis2 : this s2 = this s1) by (destruct Hres1 as [-> _]; done).
  change (messageHookRequests (this s3)) with (messageHookRequests (this s2)).
  rewrite Hthis2. change (messageHookRequests (this s1)) with (messageHookRequests (this s)).
  destruct (forEach_resolve (messageHookRequests (this s)) (VBool false) s3)
    as (Hr2 & Hres2 & Hall2).
  destruct (forEach (messageHookRequests (this s)) _ s3) as [o2 s4]. cbn in Hr2, Hres2, Hall2.
  subst o2. cbn.
  assert (Hthis4 : this s4 = this s3) by (destruct Hres2 as [-> _]; done).
  assert (Hposted : posted s4 = posted s).
  { destruct Hres2 as [-> _]. cbn. destruct Hres1 as [-> _]. done. }
  assert (Hcalls : calls s4 = calls s).
  { destruct Hres2 as [-> _]. cbn. destruct Hres1 as [-> _]. done. }
  assert (Henv : env s4 = env s).
  { destruct Hres2 as [-> _]. cbn. destruct Hres1 as [-> _]. done. }
  assert (Hlen2 : length (promises s2) = length (promises s)) by by destruct Hres1 as (_ & -> & _).
  split_and!.
  - done.
  - cbn. by rewrite Hthis4; subst s3; cbn; rewrite Hthis2.
  - cbn. by rewrite Hthis4.
  - done.
  - done.
  - unfold restart_notices. cbn. rewrite Hposted, filter_snoc_true, length_app by done.
    cbn. lia.
  - unfold sends. cbn. by rewrite Hcalls.
  - done.
  - intros i p Hin Hp. unfold is_resolved. cbn.
    change (is_resolved s4 p = true). eapply is_resolved_resolving; [exact Hres2|].
    change (is_resolved s2 p = true). by apply (Hall1 i).
  - intros i p Hin Hp. change (is_resolved s4 p = true). apply (Hall2 i); [done|].
    subst s3. cbn. by rewrite Hlen2.
Qed.

(** C3.  A change of kernel socket noticed after the dispatcher has
    connected to a kernel once is a restart.  In the turn of the event loop
    that handles it the pending queue is emptied and nothing is sent to the
    kernel, every promise of a waiting message and of a message-hook
    request is resolved (a deferred cannot be rejected at all), the tables
    of waiting messages, of hook requests and of hooks are emptied, and
    exactly one restart notice is posted. *)
Theorem kernel_restart_discards s k old :
  hung s = false →
  socketChangeListener s = Some (k, old) →
  kernelWasConnectedAtLeastOnce (this s) = true →
  let s' := step s KernelSocketChanged in
  pendingMessages (this s') = []
  ∧ sends s' = sends s
  ∧ (∀ i p, (i, p) ∈ waitingMessageIds (this s) → p < length (promises s) →
       is_resolved s' p = true)
  ∧ (∀ i p, (i, p) ∈ messageHookRequests (this s) → p < length (promises s) →
       is_resolved s' p = true)
  ∧ waitingMessageIds (this s') = []
  ∧ messageHookRequests (this s') = []
  ∧ messageHooks (this s') = []
  ∧ restart_notices s' = S (restart_notices s).
Proof.
  intros Hh Hl Hw s'.
  assert (Himpl : ∃ s2 s3,
    (subscribeToKernelSocketImpl k old s).2 = s3
    ∧ settled s3 = settled s2
    ∧ pendingMessages (this s2) = []
    ∧ waitingMessageIds (this s2) = []
    ∧ messageHookRequests (this s2) = []
    ∧ messageHooks (this s2) = []
    ∧ restart_notices s2 = S (restart_notices s)
    ∧ sends s2 = sends s
    ∧ (∀ i p, (i, p) ∈ waitingMessageIds (this s) → p < length (promises s) →
         is_resolved s2 p = true)
    ∧ (∀ i p, (i, p) ∈ messageHookRequests (this s) → p < length (promises s) →
         is_resolved s2 p = true)).
  { unfold subscribeToKernelSocketImpl. rewrite bind_eq.
    destruct (removeOldHandlers_effect old s) as (Hr0 & Hs0 & Ht0 & He0).
    destruct (removeOldHandlers old s) as [o0 s1]. cbn in Hr0, Hs0, Ht0, He0. subst o0.
    rewrite bind_eq. cbn [gets]. rewrite Ht0, Hw. cbn [when]. rewrite bind_eq.
    destruct (discardOnRestart_discards s1)
      as (Hr & Hq & Hwm & Hhr & Hmh & Hn & Hsd & He & Hall1 & Hall2).
    destruct (discardOnRestart s1) as [o s2]. cbn in Hr, Hq, Hwm, Hhr, Hmh, Hn, Hsd, He, Hall1, Hall2.
    subst o. unfold settled in Hs0. injection Hs0 as Hs0_1 Hs0_2 Hs0_3 Hs0_4 Hs0_5 Hs0_6 Hs0_7.
    eexists s2, _. split; [reflexivity|]. split_and!; try done.
    - rewrite bind_eq. cbn [get]. repeat case_match; try done.
      by apply settled_attachToSocket.
    - congruence.
    - congruence.
    - intros i p Hin Hp. apply (Hall1 i); congruence.
    - intros i p Hin Hp. apply (Hall2 i); congruence. }
  destruct Himpl as (s2 & s3 & Hs3 & Hsettled & Hq & Hwm & Hhr & Hmh & Hn & Hsd & Hall1 & Hall2).
  assert (Hsync : ∃ s4, handle KernelSocketChanged s = s4 ∧ settled s4 = settled s3).
  { cbn [handle]. unfold sync, onDidKernelSocketChange. rewrite bind_eq. cbn [get].
    rewrite Hl, bind_eq, <- Hs3.
    destruct (subscribeToKernelSocketImpl k old s) as [[[]| | |] s5]; eauto. }
  destruct Hsync as (s4 & Hs4 & Hsettled4).
  assert (Hfinal : settled s' = settled s2).
  { subst s'. unfold step. rewrite Hh, Hs4.
    rewrite (run_microtasks_beside settled) by done. congruence. }
  unfold settled in Hfinal. injection Hfinal as F1 F2 F3 F4 F5 F6 F7.
  split_and!; try congruence.
  - intros i p Hin Hp. unfold is_resolved. rewrite F2. by apply (Hall1 i).
  - intros i p Hin Hp. unfold is_resolved. rewrite F2. by apply (Hall2 i).
Qed.
End Restart.

(** ** Disposal *)

(** [same π]: the part [π] of the state is left as it was. *)
Definition same {B} (π : St → B) (s s' : St) : Prop := π s' = π s.

#[export] Instance same_preorder {B} (π : St → B) : PreOrder (same π).
Proof. split; [by intros s | intros s1 s2 s3 H12 H23; unfold same in *; congruence]. Qed.

#[export] Hint Unfold same : rel.

(** Every wait the dispatcher keeps track of, and every suspended call. *)
Definition waits (s : St) :=
  (promises s, waitingMessageIds (this s), messageHookRequests (this s),
   fullHandleMessage (this s), tasks s, microtasks s).

(** No wait is outstanding: the promise of every waiting message, of every
    hook request and of the gate is resolved. *)
Definition no_wait_outstanding (s : St) : Prop :=
  (∀ i p, (i, p) ∈ waitingMessageIds (this s) → is_resolved s p = true)
  ∧ (∀ i p, (i, p) ∈ messageHookRequests (this s) → is_resolved s p = true)
  ∧ (∀ i p, fullHandleMessage (this s) = Some (i, p) → is_resolved s p = true).

Section Disposal.
Context `{Collaborators}.

Lemma dispose_loop l rest s :
  disposables (this s) = l ++ rest →
  let r := forEach l (λ disposable,
             upd (λ d, set_disposables (tail (disposables d)) d) ;;
             dispose_subscription disposable) s in
  r.1 = Ret tt ∧ disposables (this r.2) = rest ∧ disposed (this r.2) = disposed (this s).
Proof.
  revert s. induction l as [|x l IH]; intros s Hs r; [done|].
  subst r. cbn [forEach]. rewrite !bind_eq. cbn [upd modify].
  set (s1 := set_this _ s).
  assert (Hx : ∃ s2, dispose_subscription x s1 = (Ret tt, s2) ∧ this s2 = this s1).
  { destruct x; cbn; eauto. }
  destruct Hx as (s2 & -> & Hthis).
  destruct (IH s2) as (? & ? & Hd); [|split_and!; try done].
  - rewrite Hthis. subst s1. cbn. by rewrite Hs.
  - by rewrite Hd, Hthis.
Qed.

End Disposal.

(** ** Comm targets *)

Section CommTargets.
Context `{Collaborators}.

(** A pending name that is already registered stops [registerCommTargets]
    at once, with nothing changed: the name stays pending, ahead of every
    name requested later. *)
Lemma registerCommTargets_stops_at_registered k s targetName rest :
  pendingTargetNames (this s) = targetName :: rest →
  truthy targetName = true →
  JsSet.has targetName (commTargetsRegistered (this s)) = true →
  registerCommTargets k s = (Ret tt, s).
Proof.
  intros Hp Ht Hr. unfold registerCommTargets. cbn. rewrite Hp. cbn. by rewrite ?Hp, Ht, Hr.
Qed.

(** An empty name at the head of the pending names is never removed: the
    loop goes round for ever. *)
Lemma registerCommTargets_spins k s rest :
  pendingTargetNames (this s) = "" :: rest →
  registerCommTargets k s = (Diverge, s).
Proof.
  intros Hp. unfold registerCommTargets. rewrite bind_eq. cbn [gets].
  generalize (S (length (pendingTargetNames (this s)))). intros rounds.
  induction rounds as [|rounds IH]; [done|].
  cbn [registerCommTargets_loop]. rewrite bind_eq. cbn [gets]. by rewrite Hp.
Qed.
End CommTargets.

(** ** Reachable states *)

(** [subscribeToKernelSocketImpl] first runs with
    [subscribedToKernelSocket] set, and the listener for socket changes is
    left after that. *)
Definition subscribed_first (s : St) : Prop :=
  (kernelWasConnectedAtLeastOnce (this s) = true → subscribedToKernelSocket (this s) = true)
  ∧ (is_Some (socketChangeListener s) → subscribedToKernelSocket (this s) = true).

(** Every promise the dispatcher holds has been created, and
    [subscribed_first]. *)
Definition wf (s : St) : Prop :=
  (∀ i p, (i, p) ∈ waitingMessageIds (this s) → p < length (promises s))
  ∧ (∀ i p, (i, p) ∈ messageHookRequests (this s) → p < length (promises s))
  ∧ (∀ i p, fullHandleMessage (this s) = Some (i, p) → p < length (promises s))
  ∧ subscribed_first s.

Definition connected (s : St) :=
  (kernelWasConnectedAtLeastOnce (this s), subscribedToKernelSocket (this s),
   socketChangeListener s).

(** What most methods never touch. *)
Definition plumb (s : St) := (waits s, connected s).

(** What the end of [subscribeToKernelSocketImpl] never touches. *)
Definition plumb_attach (s : St) :=
  (waits s, subscribedToKernelSocket (this s), socketChangeListener s).

#[export] Hint Unfold plumb plumb_attach waits connected : rel.

Section Plumbing.
Context `{Collaborators}.

Lemma plumb_raisePostMessage m : keeps (same plumb) (raisePostMessage m).
Proof. by intros s. Qed.
Lemma plumb_logger l : keeps (same plumb) (logger l).
Proof. by intros s. Qed.
Lemma plumb_call c : keeps (same plumb) (call c).
Proof. by intros s. Qed.
Hint Resolve plumb_raisePostMessage plumb_logger plumb_call : keeps.

Lemma plumb_sendKernelOptions protocol : keeps (same plumb) (sendKernelOptions protocol).
Proof. unfold sendKernelOptions. keeps_go. Qed.
Hint Resolve plumb_sendKernelOptions : keeps.

Lemma plumb_sendHead protocol message : keeps (same plumb) (sendHead protocol message).
Proof. unfold sendHead, JSON_parse_or_throw, deserialize_or_throw. keeps_go. Qed.
Hint Resolve plumb_sendHead : keeps.

Lemma plumb_sendLoop protocol queue : keeps (same plumb) (sendLoop protocol queue).
Proof. induction queue as [|message rest IH]; cbn [sendLoop]; keeps_go. Qed.
Hint Resolve plumb_sendLoop : keeps.

Lemma plumb_sendPendingMessages protocol : keeps (same plumb) (sendPendingMessages protocol).
Proof. unfold sendPendingMessages. keeps_go. Qed.
Hint Resolve plumb_sendPendingMessages : keeps.

Lemma plumb_registerCommTargets_loop rounds k :
  keeps (same plumb) (registerCommTargets_loop rounds k).
Proof. induction rounds as [|rounds IH]; cbn [registerCommTargets_loop]; keeps_go. Qed.
Hint Resolve plumb_registerCommTargets_loop : keeps.

Lemma plumb_registerCommTargets k : keeps (same plumb) (registerCommTargets k).
Proof. unfold registerCommTargets. keeps_go. Qed.
Hint Resolve plumb_registerCommTargets : keeps.

Lemma plumb_getKernel : keeps (same plumb) getKernel.
Proof. unfold getKernel. keeps_go. Qed.

Lemma plumb_removeOldHandlers old : keeps (same plumb) (removeOldHandlers old).
Proof. unfold removeOldHandlers. keeps_go. Qed.

Lemma plumb_removeMessageHook msgId : keeps (same plumb) (removeMessageHook msgId).
Proof. unfold removeMessageHook. keeps_go. Qed.
Hint Resolve plumb_removeMessageHook : keeps.

Lemma plumb_registerMessageHook msgId : keeps (same plumb) (registerMessageHook msgId).
Proof. unfold registerMessageHook. keeps_go. Qed.

Lemma plumb_possiblyRemoveMessageHook hookMsgId lastHookedMsgId :
  keeps (same plumb) (possiblyRemoveMessageHook hookMsgId lastHookedMsgId).
Proof. unfold possiblyRemoveMessageHook. keeps_go. Qed.

Lemma plumb_sendRawPayloadToKernelSocket payload :
  keeps (same plumb) (sendRawPayloadToKernelSocket payload).
Proof. unfold sendRawPayloadToKernelSocket. keeps_go. Qed.

Lemma plumb_dispose : keeps (same plumb) dispose.
Proof. unfold dispose, dispose_subscription. keeps_go. Qed.

Lemma plumb_thirdParty_register c targetName :
  keeps (same plumb) (registerCommTargetFor3rdPartyExtensions c targetName).
Proof. unfold registerCommTargetFor3rdPartyExtensions. keeps_go. Qed.

Lemma plumb_thirdParty_remove c targetName :
  keeps (same plumb) (removeCommTargetFor3rdPartyExtensions c targetName).
Proof. unfold removeCommTargetFor3rdPartyExtensions. keeps_go. Qed.

Lemma plumb_attach_attachToSocket k c newSocket :
  keeps (same plumb_attach) (attachToSocket k c newSocket).
Proof.
  assert (Hweak : ∀ A (m : M A), keeps (same plumb) m → keeps (same plumb_attach) m).
  { intros A m Hm s. specialize (Hm s). unfold same, plumb, plumb_attach, connected in *.
    congruence. }
  unfold attachToSocket. keeps_go; apply Hweak; auto with keeps.
Qed.
End Plumbing.

Section Subscribing.
Context `{Collaborators}.

Lemma plumb_inv s s' :
  same plumb s s' →
  waits s' = waits s
  ∧ kernelWasConnectedAtLeastOnce (this s') = kernelWasConnectedAtLeastOnce (this s)
  ∧ subscribedToKernelSocket (this s') = subscribedToKernelSocket (this s)
  ∧ socketChangeListener s' = socketChangeListener s.
Proof.
  intros Heq. split_and!;
    [exact (f_equal (λ x, x.1) Heq) | exact (f_equal (λ x, x.2.1.1) Heq)
    | exact (f_equal (λ x, x.2.1.2) Heq) | exact (f_equal (λ x, x.2.2) Heq)].
Qed.

Lemma plumb_attach_inv s s' :
  same plumb_attach s s' →
  waits s' = waits s
  ∧ subscribedToKernelSocket (this s') = subscribedToKernelSocket (this s)
  ∧ socketChangeListener s' = socketChangeListener s.
Proof.
  intros Heq. split_and!;
    [exact (f_equal (λ x, x.1.1) Heq) | exact (f_equal (λ x, x.1.2) Heq)
    | exact (f_equal (λ x, x.2) Heq)].
Qed.

(** Nothing is discarded while [kernelWasConnectedAtLeastOnce] is unset. *)
Lemma subscribeToKernelSocketImpl_first k old s :
  kernelWasConnectedAtLeastOnce (this s) = false →
  same plumb_attach s (subscribeToKernelSocketImpl k old s).2.
Proof.
  intros Hw. unfold subscribeToKernelSocketImpl. rewrite bind_eq.
  pose proof (plumb_removeOldHandlers old s) as Hrm.
  destruct (removeOldHandlers old s) as [o s1]. cbn [snd] in Hrm.
  destruct (plumb_inv _ _ Hrm) as (Hwaits & Hwas & Hsub & Hl).
  assert (Hpre : same plumb_attach s s1) by (unfold same, plumb_attach; congruence).
  destruct o as [[]| | |]; try exact Hpre.
  rewrite bind_eq. cbn [gets]. rewrite Hwas, Hw. cbn [when]. rewrite bind_eq. cbn [ret].
  rewrite bind_eq. cbn [get].
  repeat case_match; try exact Hpre;
    (etrans; [exact Hpre | apply plumb_attach_attachToSocket]).
Qed.

Lemma subscribeToKernelSocket_calm k s :
  subscribed_first s →
  waits (subscribeToKernelSocket k s).2 = waits s
  ∧ subscribed_first (subscribeToKernelSocket k s).2.
Proof.
  intros HJ. unfold subscribeToKernelSocket. rewrite bind_eq. cbn [get].
  destruct (subscribedToKernelSocket (this s)) eqn:Hsub; [done|].
  destruct (negb (has_session (env s) (Some k))); [done|]. cbn [orb].
  rewrite bind_eq. cbn [upd modify]. rewrite bind_eq.
  set (s1 := set_this (set_subscribedToKernelSocket true (this s)) s).
  assert (Hw : kernelWasConnectedAtLeastOnce (this s1) = false).
  { cbn. destruct (kernelWasConnectedAtLeastOnce (this s)) eqn:E; [|done].
    destruct HJ as [HJ _]. specialize (HJ E). congruence. }
  pose proof (subscribeToKernelSocketImpl_first k None s1 Hw) as Hi.
  destruct (subscribeToKernelSocketImpl k None s1) as [o s2]. cbn [snd] in Hi.
  destruct (plumb_attach_inv _ _ Hi) as (Hw2 & Hsub2 & Hl2).
  assert (Hs2 : subscribed_first s2) by (split; intros _; exact Hsub2).
  destruct o as [[]| | |]; done.
Qed.

Lemma initialize_calm s :
  subscribed_first s →
  waits (initialize s).2 = waits s ∧ subscribed_first (initialize s).2.
Proof.
  intros HJ. unfold initialize. rewrite bind_eq.
  pose proof (plumb_getKernel s) as Hg.
  destruct (getKernel s) as [o s1]. cbn [snd] in Hg.
  destruct (plumb_inv _ _ Hg) as (Hw & Hwas & Hsub & Hl).
  assert (HJ1 : subscribed_first s1).
  { unfold subscribed_first in *. by rewrite Hwas, Hsub, Hl. }
  destruct o as [[k|]| | |]; try done.
  rewrite bind_eq.
  destruct (subscribeToKernelSocket_calm k s1 HJ1) as [Hw2 HJ2].
  destruct (subscribeToKernelSocket k s1) as [o2 s2]. cbn in Hw2, HJ2.
  destruct o2 as [[]| | |]; try (cbn; split; [congruence | done]).
  pose proof (plumb_registerCommTargets k s2) as Hr.
  destruct (registerCommTargets k s2) as [o3 s3]. cbn [snd] in Hr.
  destruct (plumb_inv _ _ Hr) as (Hw3 & Hwas3 & Hsub3 & Hl3). cbn.
  split; [congruence|]. unfold subscribed_first in *. by rewrite Hwas3, Hsub3, Hl3.
Qed.

Lemma handleKernelRestarts_calm s :
  subscribed_first s →
  waits (handleKernelRestarts s).2 = waits s ∧ subscribed_first (handleKernelRestarts s).2.
Proof.
  intros HJ. unfold handleKernelRestarts. rewrite bind_eq. cbn [get].
  destruct (_ || _); [done|]. rewrite bind_eq.
  assert (Hmove : keeps (same plumb)
    (forEach (commTargetsRegistered (this s)) (λ targetName,
       upd (λ d, set_commTargetsRegistered
                   (JsSet.delete targetName (commTargetsRegistered d)) d) ;;
       upd (λ d, set_pendingTargetNames
                   (JsSet.add targetName (pendingTargetNames d)) d)))) by keeps_go.
  specialize (Hmove s).
  destruct (forEach _ _ s) as [o s1]. cbn [snd] in Hmove.
  destruct (plumb_inv _ _ Hmove) as (Hw & Hwas & Hsub & Hl).
  assert (HJ1 : subscribed_first s1).
  { unfold subscribed_first in *. by rewrite Hwas, Hsub, Hl. }
  destruct o as [[]| | |]; try done.
  destruct (kernel (this s)) as [k|]; [|done].
  rewrite bind_eq.
  destruct (subscribeToKernelSocket_calm k s1 HJ1) as [Hw2 HJ2].
  destruct (subscribeToKernelSocket k s1) as [o2 s2]. cbn in Hw2, HJ2.
  destruct o2 as [[]| | |]; try (cbn; split; [congruence | done]).
  pose proof (plumb_registerCommTargets k s2) as Hr.
  destruct (registerCommTargets k s2) as [o3 s3]. cbn [snd] in Hr.
  destruct (plumb_inv _ _ Hr) as (Hw3 & Hwas3 & Hsub3 & Hl3). cbn.
  split; [congruence|]. unfold subscribed_first in *. by rewrite Hwas3, Hsub3, Hl3.
Qed.
End Subscribing.

(** ** What one event can do to the waits *)

(** A state update for a widget: the only kind of message that can need to be
    fully handled. *)
Definition is_update `{Collaborators} (m : KMessage) : bool :=
  bool_decide (channel m = Some "iopub")
  && msg_type_is m "comm_msg"
  && bool_decide ((content_data m ≫= method) = Some "update").

Definition update_frame `{Collaborators} (ev : Event) : Prop :=
  ∃ protocol d m, ev = SocketReceive protocol d ∧ deserialize d protocol = Some m
                  ∧ is_update m = true.

(** The promises an event can resolve: the acknowledgement of a waiting
    message resolves the promise filed under its id, the answer to a hook
    request the promise of that request, a completion report the gate with
    its id, and a change of kernel socket every waiting message and hook
    request. *)
Definition resolvable (ev : Event) (s : St) (p : nat) : Prop :=
  match ev with
  | Receive (IPyWidgets_msg_received i) => JsMap.get i (waitingMessageIds (this s)) = Some p
  | Receive (IPyWidgets_MessageHookResult r _ _ _) =>
      JsMap.get r (messageHookRequests (this s)) = Some p
  | Receive (IPyWidgets_iopub_msg_handled i) => fullHandleMessage (this s) = Some (i, p)
  | KernelSocketChanged =>
      (∃ i, (i, p) ∈ waitingMessageIds (this s)) ∨ (∃ i, (i, p) ∈ messageHookRequests (this s))
  | _ => False
  end.

Definition gate_stage (k : Cont) : bool :=
  match k with AwaitSocketAck _ | AwaitFullHandle _ => true | _ => false end.

Definition fresh (s s' : St) (q : nat) : Prop :=
  length (promises s) ≤ q < length (promises s').

Record Effect `{Collaborators} (ev : Event) (s s' : St) : Prop := {
  effect_grows : length (promises s) ≤ length (promises s');
  effect_pending : ∀ p, promises s !! p = Some Pending →
                     promises s' !! p = Some Pending ∨ resolvable ev s p;
  effect_waiting : ∀ i q, (i, q) ∈ waitingMessageIds (this s') →
                     (i, q) ∈ waitingMessageIds (this s) ∨ fresh s s' q;
  effect_requests : ∀ i q, (i, q) ∈ messageHookRequests (this s') →
                      (i, q) ∈ messageHookRequests (this s) ∨ fresh s s' q;
  effect_gate : fullHandleMessage (this s') = fullHandleMessage (this s)
                ∨ (fullHandleMessage (this s') = None
                   ∧ ∃ i q, ev = Receive (IPyWidgets_iopub_msg_handled i)
                            ∧ fullHandleMessage (this s) = Some (i, q))
                ∨ (update_frame ev
                   ∧ ∃ i q, fullHandleMessage (this s') = Some (i, q) ∧ fresh s s' q);
  effect_subscribed : subscribed_first s';
  effect_tasks : tasks s' = tasks s
                 ∨ ∃ st, tasks s' = tasks s ++ [st]
                         ∧ ∀ k, st = Suspended k → gate_stage k = true → update_frame ev
}.

Section Effects.
Context `{Collaborators}.

Lemma waits_inv s s' :
  waits s' = waits s →
  promises s' = promises s
  ∧ waitingMessageIds (this s') = waitingMessageIds (this s)
  ∧ messageHookRequests (this s') = messageHookRequests (this s)
  ∧ fullHandleMessage (this s') = fullHandleMessage (this s)
  ∧ tasks s' = tasks s
  ∧ microtasks s' = microtasks s.
Proof. unfold waits. by intros [= -> -> -> -> -> ->]. Qed.

(** A method that leaves the waits and the subscriptions alone. *)
Lemma Effect_calm ev s s' :
  waits s' = waits s → subscribed_first s' → Effect ev s s'.
Proof.
  intros (HP & HW & HH & HG & HT & HM)%waits_inv HJ.
  split; rewrite ?HP, ?HW, ?HH, ?HG, ?HT; auto.
Qed.

Lemma Effect_plumb ev s s' :
  subscribed_first s → same plumb s s' → Effect ev s s'.
Proof.
  intros HJ Hp. destruct (plumb_inv _ _ Hp) as (Hw & Hwas & Hsub & Hl).
  apply Effect_calm; [done|]. unfold subscribed_first in *. by rewrite Hwas, Hsub, Hl.
Qed.

Lemma Effect_sync_plumb ev s (m : M unit) :
  subscribed_first s → keeps (same plumb) m → Effect ev s (sync m s).
Proof.
  intros HJ Hm. apply Effect_plumb; [done|]. apply keeps_sync; [apply _ | done | by intros ?].
Qed.

Lemma elem_of_JsMap_set {V} (k i : string) (v w : V) l :
  (i, w) ∈ JsMap.set k v l → (i, w) ∈ l ∨ (i = k ∧ w = v).
Proof.
  induction l as [|[k' v'] l IH]; cbn.
  - intros [[= -> ->]|[]%elem_of_nil]%elem_of_cons. by right.
  - destruct (decide (k' = k)) as [->|].
    + intros [[= -> ->]|Hin]%elem_of_cons; [by right | left; by right].
    + intros [[= -> ->]|Hin]%elem_of_cons; [left; by left|].
      destruct (IH Hin) as [?|?]; [left; by right | by right].
Qed.

Lemma elem_of_JsMap_delete {V} (k i : string) (w : V) l :
  (i, w) ∈ JsMap.delete k l → (i, w) ∈ l.
Proof. unfold JsMap.delete. by intros [_ ?]%list_elem_of_filter. Qed.
End Effects.

Section EffectsOfHandlers.
Context `{Collaborators}.

Lemma resolve_spec p v s :
  ∃ P' M', resolve p v s = (Ret tt, set_microtasks M' (set_promises P' s))
           ∧ length P' = length (promises s)
           ∧ (∀ q, q ≠ p → P' !! q = promises s !! q)
           ∧ (∀ q, promises s !! q = Some Pending → P' !! q = Some Pending ∨ q = p).
Proof.
  unfold resolve, modify.
  destruct (promises s !! p) as [[|w]|] eqn:Hp.
  - eexists _, _. split; [reflexivity|]. split_and!.
    + by rewrite length_insert.
    + intros q Hq. by rewrite list_lookup_insert_ne.
    + intros q Hq. destruct (decide (q = p)) as [->|]; [by right|].
      left. by rewrite list_lookup_insert_ne.
  - exists (promises s), (microtasks s). split; [by destruct s|]. auto.
  - exists (promises s), (microtasks s). split; [by destruct s|]. auto.
Qed.

Lemma forEach_resolve_spec (l : list (string * nat)) v s :
  ∃ P' M', forEach l (λ d, resolve d.2 v) s = (Ret tt, set_microtasks M' (set_promises P' s))
           ∧ length P' = length (promises s)
           ∧ (∀ q, promises s !! q = Some Pending →
                P' !! q = Some Pending ∨ ∃ i, (i, q) ∈ l).
Proof.
  revert s. induction l as [|[j p] l IH]; intros s.
  - exists (promises s), (microtasks s). split; [by destruct s|]. auto.
  - cbn [forEach]. rewrite bind_eq. change ((j, p).2) with p.
    destruct (resolve_spec p v s) as (P1 & M1 & -> & Hl1 & _ & Hp1).
    destruct (IH (set_microtasks M1 (set_promises P1 s))) as (P2 & M2 & -> & Hl2 & Hp2).
    exists P2, M2. split; [done|]. split; [cbn in Hl2; congruence|].
    intros q Hq. destruct (Hp1 q Hq) as [Hq1| ->].
    + destruct (Hp2 q Hq1) as [?|[i Hi]]; [by left|]. right. exists i. by right.
    + right. exists j. by left.
Qed.

Lemma discardOnRestart_effect s :
  ∃ P' M',
    discardOnRestart s
    = (Ret tt,
       set_posted (posted s ++ [Post_onRestartKernel])
         (set_this (set_messageHooks [] (set_messageHookRequests []
                      (set_waitingMessageIds [] (set_pendingMessages [] (this s)))))
            (set_microtasks M' (set_promises P' s))))
    ∧ length P' = length (promises s)
    ∧ (∀ q, promises s !! q = Some Pending →
         P' !! q = Some Pending
         ∨ (∃ i, (i, q) ∈ waitingMessageIds (this s))
         ∨ (∃ i, (i, q) ∈ messageHookRequests (this s))).
Proof.
  unfold discardOnRestart, sendRestartKernel.
  rewrite bind_eq. cbn [upd modify]. rewrite bind_eq. cbn [gets]. rewrite bind_eq.
  set (s1 := set_this (set_pendingMessages [] (this s)) s).
  change (waitingMessageIds (this s1)) with (waitingMessageIds (this s)).
  destruct (forEach_resolve_spec (waitingMessageIds (this s)) VUndefined s1)
    as (P1 & M1 & -> & Hl1 & Hp1).
  rewrite bind_eq. cbn [upd modify]. rewrite bind_eq. cbn [gets]. rewrite bind_eq.
  set (s3 := set_this _ _).
  change (messageHookRequests (this s3)) with (messageHookRequests (this s)).
  destruct (forEach_resolve_spec (messageHookRequests (this s)) (VBool false) s3)
    as (P2 & M2 & -> & Hl2 & Hp2).
  exists P2, M2. split; [done|]. split; [cbn in *; congruence|].
  intros q Hq. destruct (Hp1 q Hq) as [Hq1|?]; [|auto].
  destruct (Hp2 q Hq1) as [?|?]; auto.
Qed.

Lemma Effect_trans_calm ev s s1 s2 :
  Effect ev s s1 → waits s2 = waits s1 → subscribed_first s2 → Effect ev s s2.
Proof.
  intros [a b c d e f g] (HP & HW & HH & HG & HT & HM)%waits_inv HJ.
  split; unfold fresh in *; rewrite ?HP, ?HW, ?HH, ?HG, ?HT; auto.
Qed.

(** A change of kernel socket, whatever [kernelWasConnectedAtLeastOnce]. *)
Lemma subscribeToKernelSocketImpl_effect k old s :
  subscribedToKernelSocket (this s) = true →
  Effect KernelSocketChanged s (subscribeToKernelSocketImpl k old s).2
  ∧ tasks (subscribeToKernelSocketImpl k old s).2 = tasks s
  ∧ socketChangeListener (subscribeToKernelSocketImpl k old s).2 = socketChangeListener s
  ∧ subscribedToKernelSocket (this (subscribeToKernelSocketImpl k old s).2) = true.
Proof.
  intros Hsub.
  destruct (kernelWasConnectedAtLeastOnce (this s)) eqn:Hw.
  - unfold subscribeToKernelSocketImpl. rewrite bind_eq.
    pose proof (plumb_removeOldHandlers old s) as Hrm.
    destruct (removeOldHandlers old s) as [o s1]. cbn [snd] in Hrm.
    destruct (plumb_inv _ _ Hrm) as (Hwaits & Hwas & Hsub1 & Hl).
    assert (HJ1 : subscribed_first s1) by (split; intros _; congruence).
    destruct (waits_inv _ _ Hwaits) as (HP & HW & HH & HG & HT & HM).
    assert (Ht1 : tasks s1 = tasks s) by done.
    destruct o as [[]| | |];
      try (cbn [snd]; split_and!; [by apply Effect_calm | done | done | congruence]).
    rewrite bind_eq. cbn [gets]. rewrite Hwas, Hw. cbn [when]. rewrite bind_eq.
    destruct (discardOnRestart_effect s1) as (P' & M' & -> & Hlen & Hpend).
    set (s2 := set_posted _ _).
    assert (HE2 : Effect KernelSocketChanged s s2).
    { split; subst s2; cbn; unfold fresh; cbn.
      - rewrite Hlen, HP. lia.
      - intros p Hp. rewrite <- HW, <- HH. rewrite <- HP in Hp. destruct (Hpend p Hp); auto.
      - by intros i q []%elem_of_nil.
      - by intros i q []%elem_of_nil.
      - by left.
      - split; intros _; cbn; congruence.
      - by left. }
    assert (Hsub2 : subscribedToKernelSocket (this s2) = true) by (subst s2; cbn; congruence).
    assert (Ht2 : tasks s2 = tasks s) by (subst s2; cbn; congruence).
    assert (Hl2 : socketChangeListener s2 = socketChangeListener s) by (subst s2; cbn; congruence).
    rewrite bind_eq. cbn [get].
    repeat case_match; try (split_and!; [exact HE2 | exact Ht2 | exact Hl2 | exact Hsub2]).
    all: match goal with |- context [attachToSocket ?k ?c ?n ?st] =>
           pose proof (plumb_attach_attachToSocket k c n st) as Ha;
           destruct (plumb_attach_inv _ _ Ha) as (Hwa & Hsa & Hla) end.
    all: split_and!;
      [eapply Effect_trans_calm; [exact HE2 | exact Hwa | split; intros _; congruence]
      | destruct (waits_inv _ _ Hwa) as (_ & _ & _ & _ & ? & _); congruence | congruence
      | congruence].
  - pose proof (subscribeToKernelSocketImpl_first k old s Hw) as Hi.
    destruct (plumb_attach_inv _ _ Hi) as (Hwa & Hsa & Hla).
    split_and!; [apply Effect_calm; [done | split; intros _; congruence]
                | by destruct (waits_inv _ _ Hwa) as (_ & _ & _ & _ & ? & _) | done
                | congruence].
Qed.
End EffectsOfHandlers.

Section EffectsOfCommands.
Context `{Collaborators}.

Lemma Effect_sync ev s (m : M unit) :
  Effect ev s (m s).2 → Effect ev s (sync m s).
Proof.
  intros HE. unfold sync. destruct (m s) as [[[]| | |] s1]; try done.
  eapply Effect_trans_calm; [exact HE | done | by destruct HE].
Qed.

Lemma onDidKernelSocketChange_effect s :
  wf s → Effect KernelSocketChanged s (sync onDidKernelSocketChange s).
Proof.
  intros (_ & _ & _ & HJ). apply Effect_sync.
  unfold onDidKernelSocketChange. rewrite bind_eq. cbn [get].
  destruct (socketChangeListener s) as [[k old]|] eqn:Hl; [|by apply Effect_calm].
  assert (Hsub : subscribedToKernelSocket (this s) = true) by (apply HJ; by rewrite Hl).
  rewrite bind_eq.
  destruct (subscribeToKernelSocketImpl_effect k old s Hsub) as (HE & _ & _ & Hsub1).
  destruct (subscribeToKernelSocketImpl k old s) as [[[]| | |] s1]; try done.
  cbn in HE, Hsub1 |- *. eapply Effect_trans_calm; [exact HE | done |].
  split; cbn; intros _; exact Hsub1.
Qed.

(** The three answers of the render surface that resolve a promise. *)
Lemma onKernelSocketResponse_effect i s :
  subscribed_first s →
  Effect (Receive (IPyWidgets_msg_received i)) s (onKernelSocketResponse i s).2.
Proof.
  intros HJ. unfold onKernelSocketResponse. rewrite bind_eq. cbn [gets].
  destruct (JsMap.get i (waitingMessageIds (this s))) as [p|] eqn:Hget; [|by apply Effect_calm].
  rewrite bind_eq. cbn [upd modify]. set (s1 := set_this _ s).
  destruct (resolve_spec p VUndefined s1) as (P' & M' & -> & Hlen & _ & Hpend).
  split; cbn; unfold fresh; cbn; auto.
  - rewrite Hlen. done.
  - intros q Hq. destruct (Hpend q Hq) as [?| ->]; auto.
  - intros j q Hin%elem_of_JsMap_delete. auto.
Qed.

Lemma handleMessageHookResponse_effect requestId parentId msgType result s :
  subscribed_first s →
  Effect (Receive (IPyWidgets_MessageHookResult requestId parentId msgType result)) s
    (handleMessageHookResponse requestId parentId msgType result s).2.
Proof.
  intros HJ. unfold handleMessageHookResponse. rewrite bind_eq. cbn [gets].
  destruct (JsMap.get requestId (messageHookRequests (this s))) as [p|] eqn:Hget;
    [|by apply Effect_calm].
  rewrite bind_eq. cbn [upd modify]. set (s1 := set_this _ s).
  destruct (resolve_spec p (VBool (if includes msgType "comm" then true else result)) s1)
    as (P' & M' & -> & Hlen & _ & Hpend).
  split; cbn; unfold fresh; cbn; auto.
  - rewrite Hlen. done.
  - intros q Hq. destruct (Hpend q Hq) as [?| ->]; auto.
  - intros j q Hin%elem_of_JsMap_delete. auto.
Qed.

Lemma iopubMessageHandled_effect i s :
  subscribed_first s →
  Effect (Receive (IPyWidgets_iopub_msg_handled i)) s (iopubMessageHandled i s).2.
Proof.
  intros HJ. unfold iopubMessageHandled. rewrite bind_eq. cbn [gets].
  destruct (fullHandleMessage (this s)) as [[j p]|] eqn:Hg; [|by apply Effect_calm].
  destruct (String.eqb j i) eqn:Hji; [|by apply Effect_calm].
  apply String.eqb_eq in Hji as ->. cbn [when]. rewrite bind_eq.
  destruct (resolve_spec p VUndefined s) as (P' & M' & -> & Hlen & _ & Hpend).
  split; cbn; unfold fresh; cbn; auto.
  - rewrite Hlen. done.
  - intros q Hq. destruct (Hpend q Hq) as [?| ->]; auto.
  - right. left. split; [done|]. eauto.
Qed.
End EffectsOfCommands.

(** The steps of a method are carried out on the state at hand. *)
Ltac run_method :=
  cbv beta iota zeta delta
    [bind ret get gets modify upd throw await diverge try_catch try_finally when
     raisePostMessage logger call createDeferred uuid].

(** A case analysis on a test the method is stuck at. *)
Ltac case_inner :=
  match goal with
  | |- context [match ?x with _ => _ end] =>
      lazymatch x with
      | context [match _ with _ => _ end] => fail
      | _ => lazymatch type of x with
             | prod _ _ => fail
             | Outcome _ => fail
             | _ => destruct x eqn:?
             end
      end
  end.

Ltac crunch := repeat (run_method; cbn [fst snd]; case_inner).

Lemma messageNeedsFullHandle_is_update `{Collaborators} d m :
  messageNeedsFullHandle d m = true → is_update m = true.
Proof.
  unfold messageNeedsFullHandle, is_update. intros Hn.
  apply andb_prop in Hn as [Hn _]. exact Hn.
Qed.

Ltac solve_update_frame :=
  eexists _, _, _; split_and!;
    [reflexivity | eassumption | eapply messageNeedsFullHandle_is_update; eassumption].

(** Goals about an explicit final state. *)
Ltac explicit_effect HJ :=
  split; cbn; unfold fresh; cbn; rewrite ?length_app; cbn;
    [ lia
    | intros ? ?; left; rewrite ?lookup_app_l_Some; eauto using lookup_app_l_Some
    | try (intros ? ? [?|[-> ->]]%elem_of_JsMap_set; [by left | right; lia]); auto
    | try (intros ? ? [?|[-> ->]]%elem_of_JsMap_set; [by left | right; lia]); auto
    | first [ by left
            | right; right; split;
                [solve_update_frame | eexists _, _; split; [reflexivity | lia]] ]
    | exact HJ
    | by left ].

Section EffectsOfCalls.
Context `{Collaborators}.

(** An inbound frame files a waiting message; it opens a gate, and its call
    is suspended, only if the frame is a state update. *)
Lemma onKernelSocketMessage_effect protocol d s :
  subscribed_first s →
  let r := onKernelSocketMessage protocol d s in
  Effect (SocketReceive protocol d) s r.2
  ∧ tasks r.2 = tasks s
  ∧ r.1 ≠ Diverge
  ∧ (∀ k, r.1 = Await k → update_frame (SocketReceive protocol d)).
Proof.
  intros HJ r. subst r.
  unfold onKernelSocketMessage, deserialize_or_throw.
  destruct d as [text|b|]; crunch; run_method; cbn;
    (split_and!; [| try done | try done | try done]).
  all: try (intros ? _; solve_update_frame).
  all: explicit_effect HJ.
Qed.

(** A frame on its way out files at most one waiting message, and its call
    is suspended on nothing but that. *)
Lemma mirrorSend_effect protocol d s :
  subscribed_first s →
  let r := mirrorSend protocol d s in
  Effect (SocketSend protocol d) s r.2
  ∧ tasks r.2 = tasks s
  ∧ r.1 ≠ Diverge
  ∧ (∀ k, r.1 = Await k → gate_stage k = false).
Proof.
  intros HJ r. subst r.
  unfold mirrorSend, mirrorShellExecute, mirrorExecuteRequest, JSON_parse_or_throw,
    deserialize_or_throw.
  destruct d as [text|b|]; crunch; run_method; cbn;
    (split_and!; [| try done | try done | try done]).
  all: try (by intros ? [= <-]).
  all: explicit_effect HJ.
Qed.

(** A call of a message hook creates its own promise, files it as a hook
    request or resolves it at once, and waits for it. *)
Lemma messageHookCallback_effect msg s :
  subscribed_first s →
  let r := messageHookCallback msg s in
  Effect (IOPubHook msg) s r.2
  ∧ tasks r.2 = tasks s
  ∧ r.1 ≠ Diverge
  ∧ (∀ k, r.1 = Await k → gate_stage k = false).
Proof.
  intros HJ r. subst r.
  unfold messageHookCallback, removeMessageHook.
  crunch.
  all: repeat match goal with
       | |- context [resolve ?p ?v ?st] =>
           let P' := fresh "P'" in let M' := fresh "M'" in
           let Hlen := fresh "Hlen" in let Hother := fresh "Hother" in
           destruct (resolve_spec p v st) as (P' & M' & -> & Hlen & Hother & _);
           cbn in Hlen, Hother; rewrite length_app in Hlen; cbn in Hlen; crunch
       end.
  all: run_method; cbn; (split_and!; [| try done | try done | try done]).
  all: try (by intros ? [= <-]).
  all: try (explicit_effect HJ; fail).
  all: split; cbn; unfold fresh; cbn; rewrite ?Hlen; auto; try lia.
  all: intros q Hq; left; rewrite Hother by (apply lookup_lt_Some in Hq; lia);
       by apply lookup_app_l_Some.
Qed.
End EffectsOfCalls.

(** ** Methods that are not [async] never await *)

Definition no_await {A} (m : M A) : Prop := ∀ s k, (m s).1 ≠ Await k.

Section NoAwait.

Lemma na_ret {A} (a : A) : no_await (ret a).
Proof. by intros s k. Qed.
Lemma na_get : no_await get.
Proof. by intros s k. Qed.
Lemma na_gets {A} (f : St → A) : no_await (gets f).
Proof. by intros s k. Qed.
Lemma na_modify f : no_await (modify f).
Proof. by intros s k. Qed.
Lemma na_upd f : no_await (upd f).
Proof. by intros s k. Qed.
Lemma na_throw {A} e : no_await (@throw A e).
Proof. by intros s k. Qed.
Lemma na_diverge {A} : no_await (@diverge A).
Proof. by intros s k. Qed.

Lemma na_bind {A B} (m : M A) (f : A → M B) :
  no_await m → (∀ a, no_await (f a)) → no_await (x <- m ;; f x).
Proof.
  intros Hm Hf s k. rewrite bind_eq. specialize (Hm s).
  destruct (m s) as [[a|e|k'|] s1]; cbn in *; try done; [apply Hf | by destruct (Hm k')].
Qed.

Lemma na_try_catch {A} (m : M A) h :
  no_await m → (∀ e, no_await (h e)) → no_await (try_catch m h).
Proof.
  intros Hm Hh s k. unfold try_catch. specialize (Hm s k).
  destruct (m s) as [[a|e|k'|] s1]; cbn in *; try done. apply Hh.
Qed.

Lemma na_try_finally {A} (m : M A) f : no_await m → no_await f → no_await (try_finally m f).
Proof.
  intros Hm Hf s k. unfold try_finally. specialize (Hm s k).
  destruct (m s) as [[a|e|k'|] s1]; cbn in *; try done.
  - apply (na_bind f (λ _, ret a)); [done | intros _; apply na_ret].
  - apply (na_bind f (λ _, throw e)); [done | intros _; apply na_throw].
Qed.

Lemma na_when b m : no_await m → no_await (when b m).
Proof. intros Hm. destruct b; [done | apply na_ret]. Qed.

Lemma na_forEach {A} (l : list A) f : (∀ x, no_await (f x)) → no_await (forEach l f).
Proof.
  intros Hf. induction l as [|x l IH]; [apply na_ret|].
  apply (na_bind (f x) (λ _, forEach l f)); [apply Hf | done].
Qed.
End NoAwait.

Create HintDb na.

Ltac na_step :=
  lazymatch goal with
  | |- no_await (bind _ _) => apply na_bind; [|intros ?]
  | |- no_await (ret _) => apply na_ret
  | |- no_await get => apply na_get
  | |- no_await (gets _) => apply na_gets
  | |- no_await (throw _) => apply na_throw
  | |- no_await diverge => apply na_diverge
  | |- no_await (when _ _) => apply na_when
  | |- no_await (try_catch _ _) => apply na_try_catch; [|intros ?]
  | |- no_await (try_finally _ _) => apply na_try_finally
  | |- no_await (forEach _ _) => apply na_forEach; intros ?
  | |- no_await (modify _) => apply na_modify
  | |- no_await (upd _) => apply na_upd
  | |- no_await (match ?x with _ => _ end) => destruct x
  | |- no_await _ => first [solve [auto with na] | progress cbv zeta]
  end.

Ltac na_go := repeat na_step.

Section NoAwaitMethods.
Context `{Collaborators}.

Lemma na_resolve p v : no_await (resolve p v).
Proof. apply na_modify. Qed.
Lemma na_raisePostMessage m : no_await (raisePostMessage m).
Proof. apply na_modify. Qed.
Lemma na_logger l : no_await (logger l).
Proof. apply na_modify. Qed.
Lemma na_call c : no_await (call c).
Proof. apply na_modify. Qed.
Hint Resolve na_resolve na_raisePostMessage na_logger na_call : na.

Lemma na_sendKernelOptions protocol : no_await (sendKernelOptions protocol).
Proof. unfold sendKernelOptions. na_go. Qed.
Hint Resolve na_sendKernelOptions : na.

Lemma na_sendHead protocol message : no_await (sendHead protocol message).
Proof. unfold sendHead, JSON_parse_or_throw, deserialize_or_throw. na_go. Qed.
Hint Resolve na_sendHead : na.

Lemma na_sendLoop protocol queue : no_await (sendLoop protocol queue).
Proof. induction queue as [|message rest IH]; cbn [sendLoop]; na_go. Qed.
Hint Resolve na_sendLoop : na.

Lemma na_sendPendingMessages protocol : no_await (sendPendingMessages protocol).
Proof. unfold sendPendingMessages. na_go. Qed.
Hint Resolve na_sendPendingMessages : na.

Lemma na_registerCommTargets_loop rounds k : no_await (registerCommTargets_loop rounds k).
Proof. induction rounds as [|rounds IH]; cbn [registerCommTargets_loop]; na_go. Qed.
Hint Resolve na_registerCommTargets_loop : na.

Lemma na_registerCommTargets k : no_await (registerCommTargets k).
Proof. unfold registerCommTargets. na_go. Qed.
Hint Resolve na_registerCommTargets : na.

Lemma na_subscribeToKernelSocketImpl k old : no_await (subscribeToKernelSocketImpl k old).
Proof.
  unfold subscribeToKernelSocketImpl, removeOldHandlers, discardOnRestart, attachToSocket,
    sendRestartKernel.
  na_go.
Qed.
Hint Resolve na_subscribeToKernelSocketImpl : na.

Lemma na_subscribeToKernelSocket k : no_await (subscribeToKernelSocket k).
Proof. unfold subscribeToKernelSocket. na_go. Qed.
Hint Resolve na_subscribeToKernelSocket : na.

Lemma na_handleKernelRestarts : no_await handleKernelRestarts.
Proof. unfold handleKernelRestarts. na_go. Qed.
End NoAwaitMethods.

(** A method is calm when, from a state that is [subscribed_first], it leaves
    the waits alone and the state [subscribed_first]. *)
Definition Calm {A} (m : M A) : Prop :=
  ∀ s, subscribed_first s → waits (m s).2 = waits s ∧ subscribed_first (m s).2.

Section EffectsOfEvents.
Context `{Collaborators}.

Lemma Calm_plumb {A} (m : M A) : keeps (same plumb) m → Calm m.
Proof.
  intros Hm s HJ. destruct (plumb_inv _ _ (Hm s)) as (Hw & Hwas & Hsub & Hl).
  split; [done|]. unfold subscribed_first in *. by rewrite Hwas, Hsub, Hl.
Qed.

Lemma Calm_bind {A B} (m : M A) (f : A → M B) :
  Calm m → (∀ a, Calm (f a)) → Calm (x <- m ;; f x).
Proof.
  intros Hm Hf s HJ. rewrite bind_eq. destruct (Hm s HJ) as [Hw HJ1].
  destruct (m s) as [[a|e|k|] s1]; try done.
  destruct (Hf a s1 HJ1) as [Hw2 HJ2]. split; [cbn in *; congruence | done].
Qed.

Lemma Calm_receiveMessage message :
  match message with
  | IPyWidgets_msg_received _ | IPyWidgets_MessageHookResult _ _ _ _
  | IPyWidgets_iopub_msg_handled _ => True
  | _ => Calm (receiveMessage message)
  end.
Proof.
  destruct message; try done; cbn [receiveMessage].
  - apply Calm_plumb. keeps_go; by intros ?.
  - apply Calm_bind; [apply Calm_plumb, plumb_sendKernelOptions | intros _; exact initialize_calm].
  - apply Calm_plumb, plumb_sendRawPayloadToKernelSocket.
  - apply Calm_plumb. destruct (deserializeDataViews payload);
      [apply plumb_sendRawPayloadToKernelSocket | by intros ?].
  - unfold registerCommTarget. apply Calm_bind; [|intros _; exact initialize_calm].
    apply Calm_plumb. by intros ?.
  - apply Calm_plumb, plumb_registerMessageHook.
  - apply Calm_plumb, plumb_possiblyRemoveMessageHook.
Qed.

Lemma Effect_sync_calm ev s (m : M unit) :
  subscribed_first s → Calm m → Effect ev s (sync m s).
Proof.
  intros HJ Hm. apply Effect_sync. destruct (Hm s HJ). by apply Effect_calm.
Qed.

(** The call of an [async] method adds its promise to the calls. *)
Lemma Effect_async ev s (m : M PValue) :
  Effect ev s (m s).2 →
  tasks (m s).2 = tasks s →
  (∀ k, (m s).1 = Await k → gate_stage k = true → update_frame ev) →
  Effect ev s (async m s).
Proof.
  intros [a b c d e f g] Ht Hk. unfold async, settle_call.
  destruct (m s) as [[v|err|k|] s1]; cbn in *.
  all: rewrite ?decide_False by lia.
  all: try case_match.
  all: split; cbn; auto.
  all: right; eexists; split; [by rewrite Ht|].
  all: intros ? Heq; first [discriminate Heq | injection Heq as <-; eauto].
Qed.

Lemma void_outcome (m : M unit) s :
  (void m s).2 = (m s).2 ∧ ∀ k, (void m s).1 = Await k → (m s).1 = Await k.
Proof.
  unfold void. rewrite bind_eq. destruct (m s) as [[[]| | |] s1]; cbn; split; try done.
  all: by intros ? [= ->].
Qed.

Lemma Effect_async_void ev s (m : M unit) :
  Effect ev s (m s).2 →
  tasks (m s).2 = tasks s →
  (∀ k, (m s).1 = Await k → gate_stage k = true → update_frame ev) →
  Effect ev s (async (void m) s).
Proof.
  intros HE Ht Hk. destruct (void_outcome m s) as [Hs Ho].
  apply Effect_async; rewrite ?Hs; eauto.
Qed.

(** What one event handler can do. *)
Lemma handle_effect ev s : wf s → Effect ev s (handle ev s).
Proof.
  intros Hwf. pose proof Hwf as (_ & _ & _ & HJ).
  destruct ev as [message|thisDocument| |k|k|protocol d|protocol d|msg| |c t|c t|e];
    cbn [handle].
  - pose proof (Calm_receiveMessage message) as Hc.
    destruct message; try (by apply Effect_sync_calm); apply Effect_sync; cbn [receiveMessage].
    + by apply onKernelSocketResponse_effect.
    + by apply handleMessageHookResponse_effect.
    + by apply iopubMessageHandled_effect.
  - case_match; [|by apply Effect_calm]. apply Effect_sync_calm; [done | exact initialize_calm].
  - by apply onDidKernelSocketChange_effect.
  - case_match; [|by apply Effect_calm].
    destruct (handleKernelRestarts_calm s HJ) as [Hw HJ1].
    apply Effect_async_void;
      [by apply Effect_calm | by destruct (waits_inv _ _ Hw) as (_&_&_&_&?&_) |].
    intros k0 Hk0. by destruct (na_handleKernelRestarts s k0).
  - case_match; [|by apply Effect_calm]. apply Effect_sync_calm; [done|].
    apply Calm_plumb. by intros ?.
  - destruct (onKernelSocketMessage_effect protocol d s HJ) as (HE & Ht & _ & Hk).
    apply Effect_async_void; eauto.
  - destruct (mirrorSend_effect protocol d s HJ) as (HE & Ht & _ & Hk).
    apply Effect_async_void; eauto. intros k0 Hk0 Hg. by rewrite (Hk _ Hk0) in Hg.
  - destruct (messageHookCallback_effect msg s HJ) as (HE & Ht & _ & Hk).
    apply Effect_async; eauto. intros k0 Hk0 Hg. by rewrite (Hk _ Hk0) in Hg.
  - apply Effect_sync_calm; [done|]. apply Calm_plumb, plumb_dispose.
  - apply Effect_sync_calm; [done|]. apply Calm_plumb, plumb_thirdParty_register.
  - apply Effect_sync_calm; [done|]. apply Calm_plumb, plumb_thirdParty_remove.
  - by apply Effect_calm.
Qed.
End EffectsOfEvents.

(** ** Microtasks *)

(** The promise of a suspended call once it is woken up in state [s]. *)
Definition next_status (k : Cont) (s : St) : Status :=
  match k with
  | AwaitSocketAck _ =>
      match fullHandleMessage (this s) with
      | Some (_, gate) => Suspended (AwaitFullHandle gate)
      | None => Rejected TypeError
      end
  | AwaitFullHandle _ | AwaitMirror _ => Returned VUndefined
  | AwaitHookDecision p =>
      match promises s !! p with
      | Some (Resolved v) => Returned v
      | _ => Returned VUndefined
      end
  end.

(** What microtasks never touch. *)
Definition held (s : St) :=
  (promises s, waitingMessageIds (this s), messageHookRequests (this s), connected s, hung s).

Section Microtasks.
Context `{Collaborators}.

Lemma resume_tasks t s :
  tasks (resume t s)
  = match tasks s !! t with
    | Some (Suspended k) =>
        if is_resolved s (awaited k) then <[t := next_status k s]> (tasks s) else tasks s
    | _ => tasks s
    end.
Proof.
  unfold resume. destruct (tasks s !! t) as [[k|v|e]|] eqn:Ht; try done.
  destruct (is_resolved s (awaited k)); [|done].
  apply lookup_lt_Some in Ht.
  destruct k; cbn; repeat case_match; cbn; rewrite ?decide_True by done; try done.
  all: by match goal with |- context [if ?b then _ else _] => destruct b end.
Qed.

Lemma resume_gate t s :
  fullHandleMessage (this (resume t s))
  = match tasks s !! t with
    | Some (Suspended (AwaitFullHandle gate)) =>
        if is_resolved s gate then None else fullHandleMessage (this s)
    | _ => fullHandleMessage (this s)
    end.
Proof.
  unfold resume. destruct (tasks s !! t) as [[k|v|e]|] eqn:Ht; try done.
  destruct (is_resolved s (awaited k)) eqn:Hr; [|by destruct k; cbn in *; rewrite ?Hr].
  destruct k; cbn in *; rewrite ?Hr; repeat case_match; cbn; try done.
  all: by match goal with |- context [if ?b then _ else _] => destruct b end.
Qed.

Lemma held_beside : beside_microtasks held.
Proof.
  split_and!; try done.
Qed.

Lemma resume_held t s : held (resume t s) = held s.
Proof. apply resume_beside, held_beside. Qed.

Lemma held_inv s s' :
  held s' = held s →
  promises s' = promises s
  ∧ waitingMessageIds (this s') = waitingMessageIds (this s)
  ∧ messageHookRequests (this s') = messageHookRequests (this s)
  ∧ connected s' = connected s.
Proof.
  intros Heq. split_and!;
    [exact (f_equal (λ x, x.1.1.1.1) Heq) | exact (f_equal (λ x, x.1.1.1.2) Heq)
    | exact (f_equal (λ x, x.1.1.2) Heq) | exact (f_equal (λ x, x.1.2) Heq)].
Qed.

Lemma subscribed_first_connected s s' :
  connected s' = connected s → subscribed_first s → subscribed_first s'.
Proof.
  intros Heq. unfold subscribed_first.
  rewrite (f_equal (λ x, x.1.1) Heq : kernelWasConnectedAtLeastOnce (this s') = _).
  rewrite (f_equal (λ x, x.1.2) Heq : subscribedToKernelSocket (this s') = _).
  by rewrite (f_equal (λ x, x.2) Heq : socketChangeListener s' = _).
Qed.

Lemma wf_resume t s : wf s → wf (resume t s).
Proof.
  intros (HW & HH & HG & HJ).
  destruct (held_inv _ _ (resume_held t s)) as (HP & HW' & HH' & HC).
  split_and!; rewrite ?HP, ?HW', ?HH'; try done.
  - intros i p. rewrite resume_gate. repeat case_match; try done; apply HG.
  - by eapply subscribed_first_connected.
Qed.

Lemma wf_set_microtasks q s : wf s → wf (set_microtasks q s).
Proof. done. Qed.

Lemma wf_drain fuel s : wf s → wf (drain fuel s).
Proof.
  revert s. induction fuel as [|fuel IH]; intros s Hwf; cbn [drain]; [done|].
  case_match; [done|]. by apply IH, wf_resume, wf_set_microtasks.
Qed.

Lemma wf_handle ev s : wf s → wf (handle ev s).
Proof.
  intros Hwf. destruct (handle_effect ev s Hwf) as [a b c d e f g].
  destruct Hwf as (HW & HH & HG & HJ). unfold fresh in *. split_and!; try done.
  - intros i p [Hin|?]%c; [|lia]. specialize (HW _ _ Hin). lia.
  - intros i p [Hin|?]%d; [|lia]. specialize (HH _ _ Hin). lia.
  - intros i p Hs. destruct e as [He|[[He _]|(_ & i' & q & He & ?)]].
    + rewrite He in Hs. specialize (HG _ _ Hs). lia.
    + congruence.
    + rewrite He in Hs. injection Hs as -> ->. lia.
Qed.

Lemma wf_step s ev : wf s → wf (step s ev).
Proof.
  intros Hwf. unfold step, run_microtasks. case_match; [done|]. by apply wf_drain, wf_handle.
Qed.

Lemma wf_run evs s : wf s → wf (run s evs).
Proof. revert s. induction evs as [|ev evs IH]; intros s Hwf; [done|]. by apply IH, wf_step. Qed.

(** Every state the dispatcher can reach is well formed. *)
Lemma wf_constructed e evs : wf (run (constructed e) evs).
Proof.
  apply wf_run. split_and!; try (by intros ? ? []%elem_of_nil); try done.
  split; [done|]. by intros [? ?].
Qed.
End Microtasks.

(** ** Promises that stay pending *)

(** Promise [p] is pending, and the dispatcher holds it at most as the
    waiting message of an id in [aW] or as the gate of an id in [aS]. *)
Definition protected (p : nat) (aW aS : string → Prop) (s : St) : Prop :=
  promises s !! p = Some Pending
  ∧ (∀ i, (i, p) ∈ waitingMessageIds (this s) → aW i)
  ∧ (∀ i, (i, p) ∉ messageHookRequests (this s))
  ∧ (∀ i, fullHandleMessage (this s) = Some (i, p) → aS i).

(** The events that cannot resolve such a promise. *)
Definition permitted (aW aS : string → Prop) (ev : Event) : Prop :=
  match ev with
  | Receive (IPyWidgets_msg_received i) => ¬ aW i
  | Receive (IPyWidgets_iopub_msg_handled i) => ¬ aS i
  | KernelSocketChanged => ∀ i, ¬ aW i
  | _ => True
  end.

Section Protected.
Context `{Collaborators}.

Lemma protected_handle p aW aS ev s :
  wf s → protected p aW aS s → permitted aW aS ev → protected p aW aS (handle ev s).
Proof.
  intros Hwf (Hp & HW & HH & HG) Hev.
  destruct (handle_effect ev s Hwf) as [a b c d e f g].
  assert (Hlt : p < length (promises s)) by by eapply lookup_lt_Some.
  unfold fresh in *. split_and!.
  - destruct (b p Hp) as [?|Hres]; [done|]. exfalso.
    destruct ev as [[]| | | | | | | | | | |]; cbn in Hres, Hev; try done.
    + apply Hev, HW. by apply JsMap_get_elem_of.
    + eapply HH. by apply JsMap_get_elem_of.
    + by apply Hev, HG.
    + destruct Hres as [[i Hi]|[i Hi]]; [by eapply Hev, HW | by eapply HH].
  - intros i [Hin|?]%c; [by apply HW | lia].
  - intros i [Hin|?]%d; [by eapply HH | lia].
  - intros i Hs. destruct e as [He|[[He _]|(_ & i' & q & He & ?)]].
    + apply HG. by rewrite <- He.
    + congruence.
    + rewrite He in Hs. injection Hs as -> ->. lia.
Qed.

Lemma protected_resume p aW aS t s : protected p aW aS s → protected p aW aS (resume t s).
Proof.
  intros (Hp & HW & HH & HG).
  destruct (held_inv _ _ (resume_held t s)) as (HP & HW' & HH' & HC).
  split_and!; rewrite ?HP, ?HW', ?HH'; try done.
  intros i. rewrite resume_gate. repeat case_match; try done; apply HG.
Qed.

(** A call suspended on a pending promise is not woken up. *)
Lemma suspended_resume t t' k s :
  promises s !! awaited k = Some Pending →
  tasks s !! t = Some (Suspended k) →
  tasks (resume t' s) !! t = Some (Suspended k).
Proof.
  intros Hp Ht. rewrite resume_tasks.
  destruct (decide (t' = t)) as [->|Hne].
  - rewrite Ht. unfold is_resolved. by rewrite Hp.
  - repeat case_match; try done. by rewrite list_lookup_insert_ne.
Qed.

Lemma handle_tasks_lookup ev s t st :
  wf s → tasks s !! t = Some st → tasks (handle ev s) !! t = Some st.
Proof.
  intros Hwf Ht. destruct (handle_effect ev s Hwf) as [_ _ _ _ _ _ [->|(st' & -> & _)]];
    [done | by apply lookup_app_l_Some].
Qed.

(** As long as no permitted event resolves its promise, a suspended call
    stays suspended. *)
Lemma suspended_step p aW aS k t s ev :
  awaited k = p →
  wf s → protected p aW aS s → tasks s !! t = Some (Suspended k) →
  permitted aW aS ev →
  wf (step s ev) ∧ protected p aW aS (step s ev)
  ∧ tasks (step s ev) !! t = Some (Suspended k).
Proof.
  intros Hk Hwf Hp Ht Hev. split; [by apply wf_step|].
  unfold step, run_microtasks. case_match; [done|].
  pose proof (protected_handle _ _ _ _ _ Hwf Hp Hev) as Hp1.
  pose proof (handle_tasks_lookup ev _ _ _ Hwf Ht) as Ht1.
  generalize (length (microtasks (handle ev s)) + length (tasks (handle ev s))).
  generalize dependent (handle ev s). clear -Hk.
  intros s Hp Ht fuel. revert s Hp Ht.
  induction fuel as [|fuel IH]; intros s Hp Ht; cbn [drain]; [done|].
  case_match; [done|]. apply IH.
  - by apply protected_resume.
  - apply suspended_resume; [|done]. rewrite Hk. by destruct Hp.
Qed.

Lemma suspended_run p aW aS k t evs s :
  awaited k = p →
  wf s → protected p aW aS s → tasks s !! t = Some (Suspended k) →
  Forall (permitted aW aS) evs →
  wf (run s evs) ∧ protected p aW aS (run s evs)
  ∧ tasks (run s evs) !! t = Some (Suspended k).
Proof.
  intros Hk. revert s. induction evs as [|ev evs IH]; intros s Hwf Hp Ht Hevs; [done|].
  apply Forall_cons in Hevs as [Hev Hevs].
  destruct (suspended_step p aW aS k t s ev) as (? & ? & ?); try done.
  by apply IH.
Qed.
End Protected.

(** ** Waking up *)

Section Waking.
Context `{Collaborators}.

Lemma resume_microtasks t s : ∃ extra, microtasks (resume t s) = microtasks s ++ extra.
Proof.
  unfold resume. destruct (tasks s !! t) as [[k|v|e]|]; try (exists []; by rewrite app_nil_r).
  destruct (is_resolved s (awaited k)); [|exists []; by rewrite app_nil_r].
  destruct (continue_effect k s) as [Hd Hs].
  destruct (continue k s) as [[v|e|k'|] s1]; cbn in *; try done;
    repeat case_match; cbn; destruct Hs as [-> | ->]; cbn;
    first [by eexists | exists []; by rewrite app_nil_r].
Qed.

(** A promise that is kept or broken stays as it is. *)
Lemma finished_resume t t' s st :
  tasks s !! t = Some st → (∀ k, st ≠ Suspended k) → tasks (resume t' s) !! t = Some st.
Proof.
  intros Ht Hst. rewrite resume_tasks.
  destruct (decide (t' = t)) as [->|Hne].
  - rewrite Ht. destruct st; try done. by destruct (Hst k).
  - repeat case_match; try done. by rewrite list_lookup_insert_ne.
Qed.

Lemma finished_drain fuel t s st :
  tasks s !! t = Some st → (∀ k, st ≠ Suspended k) → tasks (drain fuel s) !! t = Some st.
Proof.
  intros Ht Hst. revert s Ht. induction fuel as [|fuel IH]; intros s Ht; cbn [drain]; [done|].
  case_match; [done|]. apply IH. by apply finished_resume.
Qed.

(** The microtask queued for a call is run: if the state is [Before] while
    the call waits in the queue, and waking the call up makes it [After], the
    state is [After] once the queue has been run. *)
Lemma drain_wakes (Before After : St → Prop) t :
  (∀ s q, Before s → Before (set_microtasks q s)) →
  (∀ s t', t' ≠ t → Before s → Before (resume t' s)) →
  (∀ s, Before s → After (resume t s)) →
  (∀ s q, After s → After (set_microtasks q s)) →
  (∀ s t', After s → After (resume t' s)) →
  ∀ fuel s pre post,
    Before s → microtasks s = pre ++ t :: post → length pre < fuel → After (drain fuel s).
Proof.
  intros HBq HBr Hwake HAq HAr.
  assert (HAd : ∀ fuel s, After s → After (drain fuel s)).
  { induction fuel as [|fuel IH]; intros s HA; cbn [drain]; [done|].
    case_match; [done|]. by apply IH, HAr, HAq. }
  induction fuel as [|fuel IH]; intros s pre post HB Hq Hfuel; [lia|].
  cbn [drain]. rewrite Hq.
  destruct pre as [|t0 pre]; cbn [app].
  - by apply HAd, Hwake, HBq.
  - destruct (decide (t0 = t)) as [->|Hne]; [by apply HAd, Hwake, HBq|].
    set (s1 := set_microtasks (pre ++ t :: post) s).
    destruct (resume_microtasks t0 s1) as [extra Hextra].
    apply (IH _ pre (post ++ extra)).
    + by apply HBr, HBq.
    + rewrite Hextra. subst s1. cbn. by rewrite <- (assoc_L (++)).
    + cbn in Hfuel. lia.
Qed.

Lemma elem_of_waiters i p ts t k :
  ts !! t = Some (Suspended k) → awaited k = p → (i + t) ∈ waiters i p ts.
Proof.
  revert i t. induction ts as [|st ts IH]; intros i t Ht Hk; [done|].
  destruct t as [|t]; cbn in Ht.
  - injection Ht as ->. cbn. rewrite decide_True by done. rewrite Nat.add_0_r. by left.
  - replace (i + S t) with (S i + t) by lia. specialize (IH (S i) t Ht Hk).
    destruct st as [k'| |]; cbn; [destruct (decide _)|..]; try done. by right.
Qed.

(** Resolving the promise a call is suspended on gets the call to its next
    stage in the same turn, when that stage does not depend on the state. *)
Lemma resolved_wakes t k st s :
  tasks s !! t = Some (Suspended k) →
  is_resolved s (awaited k) = true →
  t ∈ microtasks s →
  (∀ s', next_status k s' = st) →
  (∀ k', st ≠ Suspended k') →
  tasks (run_microtasks s) !! t = Some st.
Proof.
  intros Ht Hr Hin Hnext Hst.
  apply list_elem_of_split in Hin as (pre & post & Hq).
  unfold run_microtasks.
  apply (drain_wakes
           (λ s, tasks s !! t = Some (Suspended k) ∧ is_resolved s (awaited k) = true)
           (λ s, tasks s !! t = Some st) t) with (pre := pre) (post := post); try done.
  - intros s0 t' Hne [Ht0 Hr0]. split.
    + rewrite resume_tasks. repeat case_match; try done. by rewrite list_lookup_insert_ne.
    + unfold is_resolved. destruct (held_inv _ _ (resume_held t' s0)) as (-> & _). done.
  - intros s0 [Ht0 Hr0]. rewrite resume_tasks, Ht0, Hr0, Hnext.
    apply list_lookup_insert_eq. by eapply lookup_lt_Some.
  - intros s0 t' Ht0. by apply finished_resume.
  - rewrite Hq, length_app. cbn. lia.
Qed.
End Waking.

(** ** Mirrored execute requests *)

Section Mirror.
Context `{Collaborators}.

(** The message [mirrorSend] reads from an outbound frame. *)
Definition outbound_message (protocol : string) (d : Raw) : option KMessage :=
  match d with
  | RString text =>
      if includes text "shell" && includes text "execute_request" then JSON_parse text
      else None
  | _ => deserialize d protocol
  end.

(** Frame [d] is a shell [execute_request] with header [h] that the
    mirroring predicate accepts. *)
Definition accepted_execute_request (protocol : string) (d : Raw) (msg : KMessage) (h : Header)
    : Prop :=
  outbound_message protocol d = Some msg
  ∧ channel msg = Some "shell"
  ∧ header msg = Some h
  ∧ msg_type h = "execute_request"
  ∧ shouldMessageBeMirroredWithRenderer (inr msg) = true.

(** The state [mirrorExecuteRequest] leaves: a fresh promise, filed as the
    waiting message of the request, and the request posted to the render
    surface. *)
Definition mirrored (h : Header) (msg : KMessage) (s : St) : St :=
  set_posted (posted s ++ [Post_mirror_execute (msg_id h) msg])
    (set_this (set_waitingMessageIds
                 (JsMap.set (msg_id h) (length (promises s)) (waitingMessageIds (this s)))
                 (this s))
       (set_promises (promises s ++ [Pending]) s)).

(** The events that leave the waiting message of request [mid] alone: all
    but the acknowledgement of [mid] and a change of the kernel socket. *)
Definition leaves_waiting (mid : string) (ev : Event) : Prop :=
  ev ≠ Receive (IPyWidgets_msg_received mid) ∧ ev ≠ KernelSocketChanged.

Lemma mirrorSend_mirrored protocol d msg h s :
  accepted_execute_request protocol d msg h →
  mirrorSend protocol d s
  = (if isUsingIPyWidgets (this s) then Await (AwaitMirror (length (promises s))) else Ret tt,
     mirrored h msg s).
Proof.
  intros (Hmsg & Hch & Hh & Hty & Hok).
  assert (Hbody : mirrorShellExecute msg s
                  = (if isUsingIPyWidgets (this s)
                     then Await (AwaitMirror (length (promises s))) else Ret tt,
                     mirrored h msg s)).
  { unfold mirrorShellExecute. rewrite bool_decide_true by done. rewrite Hh, Hty, Hok. cbn.
    by destruct (isUsingIPyWidgets (this s)). }
  unfold mirrorSend, outbound_message in *. destruct d as [text| |].
  - destruct (includes text "shell" && includes text "execute_request"); [|done].
    unfold JSON_parse_or_throw. rewrite bind_eq, Hmsg. cbn. exact Hbody.
  - unfold try_catch, deserialize_or_throw. rewrite bind_eq, Hmsg. cbn. rewrite Hbody.
    by destruct (isUsingIPyWidgets (this s)).
  - unfold try_catch, deserialize_or_throw. rewrite bind_eq, Hmsg. cbn. rewrite Hbody.
    by destruct (isUsingIPyWidgets (this s)).
Qed.

Lemma leaves_waiting_permitted mid ev :
  leaves_waiting mid ev → permitted (λ i, i = mid) (λ _, False) ev.
Proof.
  intros [Hack Hchange]. destruct ev as [[]| | | | | | | | | | |]; cbn; try done.
  - intros ->. done.
  - tauto.
Qed.

Lemma suspended_drain p aW aS k t fuel s :
  awaited k = p → protected p aW aS s → tasks s !! t = Some (Suspended k) →
  protected p aW aS (drain fuel s) ∧ tasks (drain fuel s) !! t = Some (Suspended k).
Proof.
  intros Hk. revert s. induction fuel as [|fuel IH]; intros s Hp Ht; cbn [drain]; [done|].
  case_match; [done|]. apply IH.
  - by apply protected_resume.
  - apply suspended_resume; [|done]. rewrite Hk. by destruct Hp.
Qed.

Lemma protected_drain p aW aS fuel s :
  protected p aW aS s → protected p aW aS (drain fuel s).
Proof.
  revert s. induction fuel as [|fuel IH]; intros s Hp; cbn [drain]; [done|].
  case_match; [done|]. by apply IH, protected_resume.
Qed.

Lemma mirrored_protected h msg s :
  wf s → protected (length (promises s)) (λ i, i = msg_id h) (λ _, False) (mirrored h msg s).
Proof.
  intros (HW & HH & HG & _). split_and!; cbn.
  - rewrite lookup_app_r by done. by rewrite Nat.sub_diag.
  - intros i [Hin|[-> _]]%elem_of_JsMap_set; [|done]. specialize (HW _ _ Hin). lia.
  - intros i Hin. specialize (HH _ _ Hin). lia.
  - intros i Hs. specialize (HG _ _ Hs). lia.
Qed.
End Mirror.

Section MirrorTheorem.
Context `{Collaborators}.

(** The turn of the event loop in which the send hook sees an accepted
    execute request. *)
Lemma mirrorSend_turn protocol d msg h s :
  accepted_execute_request protocol d msg h → wf s → hung s = false →
  let p := length (promises s) in
  let t := length (tasks s) in
  let s1 := step s (SocketSend protocol d) in
  wf s1
  ∧ protected p (λ i, i = msg_id h) (λ _, False) s1
  ∧ held s1 = held (mirrored h msg s)
  ∧ posted s1 = posted s ++ [Post_mirror_execute (msg_id h) msg]
  ∧ tasks s1 !! t
    = Some (if isUsingIPyWidgets (this s) then Suspended (AwaitMirror p)
            else Returned VUndefined).
Proof.
  intros Hacc Hwf Hhung p t s1.
  split; [by apply wf_step|].
  subst s1. unfold step. rewrite Hhung. cbn [handle]. unfold async, void.
  rewrite bind_eq, (mirrorSend_mirrored _ _ _ _ _ Hacc).
  pose proof (mirrored_protected h msg s Hwf) as Hp. fold p in Hp |- *.
  unfold run_microtasks.
  destruct (isUsingIPyWidgets (this s)); cbn [fst snd settle_call ret].
  - unfold is_resolved. cbn [awaited].
    replace (tasks (mirrored h msg s)) with (tasks s) by done.
    rewrite decide_False by lia.
    set (s0 := set_tasks _ _).
    assert (Hp0 : protected p (λ i, i = msg_id h) (λ _, False) s0) by exact Hp.
    replace (promises s0 !! p) with (Some Pending) by (symmetry; apply Hp).
    assert (Ht0 : tasks s0 !! t = Some (Suspended (AwaitMirror p))).
    { subst s0 t. cbn. rewrite lookup_app_r by done. by rewrite Nat.sub_diag. }
    destruct (suspended_drain p _ _ (AwaitMirror p) t
                (length (microtasks s0) + length (tasks s0)) s0 eq_refl Hp0 Ht0) as [Hp1 Ht1].
    split_and!; try done.
    + by rewrite (drain_beside held) by apply held_beside.
    + by rewrite (drain_beside posted) by done.
  - replace (tasks (mirrored h msg s)) with (tasks s) by done.
    rewrite decide_False by lia.
    set (s0 := set_tasks _ _).
    assert (Hp0 : protected p (λ i, i = msg_id h) (λ _, False) s0) by exact Hp.
    assert (Ht0 : tasks s0 !! t = Some (Returned VUndefined)).
    { subst s0 t. cbn. rewrite lookup_app_r by done. by rewrite Nat.sub_diag. }
    split_and!.
    + by apply protected_drain.
    + by rewrite (drain_beside held) by apply held_beside.
    + by rewrite (drain_beside posted) by done.
    + by apply finished_drain.
Qed.

(** The acknowledgement of the render surface wakes the send hook up. *)
Lemma acknowledged_returns mid p t s :
  hung s = false →
  JsMap.get mid (waitingMessageIds (this s)) = Some p →
  promises s !! p = Some Pending →
  tasks s !! t = Some (Suspended (AwaitMirror p)) →
  tasks (step s (Receive (IPyWidgets_msg_received mid))) !! t = Some (Returned VUndefined).
Proof.
  intros Hhung HW Hp Ht. unfold step. rewrite Hhung. cbn [handle receiveMessage].
  unfold sync, onKernelSocketResponse. rewrite bind_eq. cbn. rewrite HW. cbn. rewrite Hp. cbn.
  match goal with |- tasks (drain _ ?s') !! _ = _ => change (drain _ s') with (run_microtasks s') end.
  apply resolved_wakes with (k := AwaitMirror p); try done.
  - unfold is_resolved. cbn. rewrite list_lookup_insert_eq; [done|by eapply lookup_lt_Some].
  - cbn. apply elem_of_app. right.
    by apply (elem_of_waiters 0 p (tasks s) t (AwaitMirror p)).
Qed.

(** C7.  For every outbound shell [execute_request] frame that the mirroring
    predicate accepts, the send hook [mirrorSend] posts the request to the
    render surface and files a pending waiting message under the id of the
    request.  If [isUsingIPyWidgets] is unset the hook has returned by the end
    of the turn, with the waiting message still pending.  If it is set, the
    hook is suspended on that promise and stays suspended whatever happens
    ([evs]) short of the acknowledgement of the request or a change of the
    kernel socket; the acknowledgement then makes it return. *)
Theorem mirrorSend_waits_for_acknowledgement protocol d msg h s :
  accepted_execute_request protocol d msg h → wf s → hung s = false →
  let p := length (promises s) in
  let t := length (tasks s) in
  let s1 := step s (SocketSend protocol d) in
  Post_mirror_execute (msg_id h) msg ∈ posted s1
  ∧ JsMap.get (msg_id h) (waitingMessageIds (this s1)) = Some p
  ∧ promises s1 !! p = Some Pending
  ∧ (isUsingIPyWidgets (this s) = false → tasks s1 !! t = Some (Returned VUndefined))
  ∧ (isUsingIPyWidgets (this s) = true →
     ∀ evs, Forall (leaves_waiting (msg_id h)) evs →
       let s2 := run s1 evs in
       tasks s2 !! t = Some (Suspended (AwaitMirror p))
       ∧ promises s2 !! p = Some Pending
       ∧ (hung s2 = false →
          JsMap.get (msg_id h) (waitingMessageIds (this s2)) = Some p →
          tasks (step s2 (Receive (IPyWidgets_msg_received (msg_id h)))) !! t
          = Some (Returned VUndefined))).
Proof.
  intros Hacc Hwf Hhung p t s1.
  destruct (mirrorSend_turn protocol d msg h s Hacc Hwf Hhung)
    as (Hwf1 & Hp1 & Hheld & Hposted & Ht1).
  fold p t s1 in Hwf1, Hp1, Hheld, Hposted, Ht1.
  apply held_inv in Hheld as (HP & HWait & _).
  split_and!.
  - rewrite Hposted. apply elem_of_app. right. by left.
  - rewrite HWait. cbn. rewrite JsMap_get_set. by rewrite decide_True.
  - apply Hp1.
  - intros Hflag. by rewrite Hflag in Ht1.
  - intros Hflag evs Hevs s2. rewrite Hflag in Ht1.
    destruct (suspended_run p (λ i, i = msg_id h) (λ _, False) (AwaitMirror p) t evs s1)
      as (Hwf2 & Hp2 & Ht2); try done.
    { eapply Forall_impl; [exact Hevs|]. apply leaves_waiting_permitted. }
    split_and!; [done | apply Hp2 |].
    intros Hhung2 HW2. apply acknowledged_returns with (p := p); try done. apply Hp2.
Qed.
End MirrorTheorem.

(** ** Output widgets and the full-handle gate *)

Section Gate.
Context `{Collaborators}.

(** Frame [d] is one that [onKernelSocketMessage] deserializes, to [m], and
    [m] is a message the render surface mirrors. *)
Definition inspected (protocol : string) (d : Raw) (m : KMessage) : Prop :=
  mustDeserialize d = true
  ∧ deserialize d protocol = Some m
  ∧ shouldMessageBeMirroredWithRenderer (inr m) = true.

(** The blocks of [onKernelSocketMessage]: the frame is announced to the
    render surface, and the message it holds is inspected. *)
Definition announce (protocol : string) (d : Raw) (msgUuid : string) : M (option KMessage) :=
  match d with
  | RString text =>
      if shouldMessageBeMirroredWithRenderer (inl text) then
        raisePostMessage (Post_msg msgUuid text) ;;
        if includes text "display_data" then
          message <- deserialize_or_throw d protocol ;;
          when (isDisplayDataMsg message)
            (modify (λ s, set_displayed (displayed s ++ [message]) s)) ;;
          ret (Some message)
        else ret None
      else ret None
  | _ =>
      let dataToSend := serializeDataViews [d] in
      let deSerialized := deserializeDataViews dataToSend in
      logger (console_error dataToSend deSerialized) ;;
      raisePostMessage (Post_binary_msg msgUuid (serializeDataViews [d])) ;;
      ret None
  end.

Definition inspect (promise : nat) (message : KMessage) : M unit :=
  if negb (shouldMessageBeMirroredWithRenderer (inr message)) then ret tt
  else
    when (usesIPyWidgets message) (upd (set_isUsingIPyWidgets true)) ;;
    t <- gets this ;;
    if isIPYWidgetOutputModelOpen message then
      upd (λ t, set_outputWidgetIds
                  (JsSet.add (content_comm_id message) (outputWidgetIds t)) t)
    else if isIPYWidgetOutputModelClose t message then
      upd (λ t, set_outputWidgetIds
                  (JsSet.delete (content_comm_id message) (outputWidgetIds t)) t)
    else if messageNeedsFullHandle t message then
      match header message with
      | None => throw TypeError
      | Some h =>
          gate <- createDeferred ;;
          upd (set_fullHandleMessage (Some (msg_id h, gate))) ;;
          await (AwaitSocketAck promise)
      end
    else ret tt.

Lemma onKernelSocketMessage_blocks protocol d :
  onKernelSocketMessage protocol d
  = (msgUuid <- uuid ;;
     promise <- createDeferred ;;
     upd (λ t, set_waitingMessageIds (JsMap.set msgUuid promise (waitingMessageIds t)) t) ;;
     deserializedMessage <- announce protocol d msgUuid ;;
     if mustDeserialize d then
       message <- match deserializedMessage with
                  | Some message => ret message
                  | None => deserialize_or_throw d protocol
                  end ;;
       inspect promise message
     else ret tt).
Proof. reflexivity. Qed.

(** What announcing a frame leaves alone. *)
Definition core (s : St) :=
  (this s, promises s, tasks s, microtasks s, socketChangeListener s, hung s).

Lemma announce_core protocol d m u s :
  deserialize d protocol = Some m →
  ∃ dm s', announce protocol d u s = (Ret dm, s')
           ∧ (dm = None ∨ dm = Some m) ∧ core s' = core s.
Proof.
  intros Hd. unfold announce, deserialize_or_throw. destruct d as [text| |].
  - destruct (shouldMessageBeMirroredWithRenderer (inl text)); [|by eexists _, _; eauto].
    destruct (includes text "display_data"); [|by eexists _, _; eauto].
    rewrite Hd. destruct (isDisplayDataMsg m) eqn:Hdm.
    + exists (Some m). eexists. split; [|split; [by right|]].
      * rewrite !bind_eq. cbn. rewrite Hdm. cbn. reflexivity.
      * done.
    + exists (Some m). eexists. split; [|split; [by right|]].
      * rewrite !bind_eq. cbn. rewrite Hdm. cbn. reflexivity.
      * done.
  - by eexists _, _; eauto.
  - by eexists _, _; eauto.
Qed.

(** The state once the frame has its waiting message. *)
Definition registered (s : St) : St :=
  set_this (set_waitingMessageIds
              (JsMap.set (generateUuid (uuids s)) (length (promises s))
                 (waitingMessageIds (this s))) (this s))
    (set_promises (promises s ++ [Pending]) (set_uuids (S (uuids s)) s)).

Lemma core_inv s s' :
  core s' = core s →
  this s' = this s ∧ promises s' = promises s ∧ tasks s' = tasks s
  ∧ microtasks s' = microtasks s ∧ socketChangeListener s' = socketChangeListener s
  ∧ hung s' = hung s.
Proof. unfold core. by intros [= -> -> -> -> -> ->]. Qed.

Lemma onKernelSocketMessage_inspects protocol d m s :
  inspected protocol d m →
  ∃ s1, onKernelSocketMessage protocol d s = inspect (length (promises s)) m s1
        ∧ core s1 = core (registered s).
Proof.
  intros (Hmust & Hd & Hmirror). rewrite onKernelSocketMessage_blocks.
  rewrite bind_eq. cbn.
  destruct (announce_core protocol d m (generateUuid (uuids s)) (registered s) Hd)
    as (dm & s1 & Ha & Hdm & Hcore).
  unfold registered in Ha. rewrite bind_eq, Ha. cbn. rewrite Hmust, bind_eq.
  exists s1. split; [|done].
  destruct Hdm as [-> | ->]; [|done].
  unfold deserialize_or_throw. by rewrite Hd.
Qed.

Lemma JsSet_has_add {A} `{EqDecision A} (x : A) l : JsSet.has x (JsSet.add x l) = true.
Proof.
  unfold JsSet.add. destruct (JsSet.has x l) eqn:Hx; [done|].
  apply bool_decide_eq_true, elem_of_app. right. by left.
Qed.

Lemma JsSet_has_delete {A} `{EqDecision A} (x : A) l : JsSet.has x (JsSet.delete x l) = false.
Proof.
  apply bool_decide_eq_false. unfold JsSet.delete. rewrite list_elem_of_filter. tauto.
Qed.

(** What the gate and the calls waiting at it depend on. *)
Definition gatekeeping (s : St) :=
  (messageHookRequests (this s), tasks s, microtasks s, connected s, hung s).

Lemma not_open_of_type m ty :
  msg_type_is m ty = true → ty ≠ "comm_open" → isIPYWidgetOutputModelOpen m = false.
Proof.
  unfold isIPYWidgetOutputModelOpen, msg_type_is. intros Hty%bool_decide_eq_true Hne.
  rewrite Hty. rewrite (bool_decide_eq_false_2 (Some ty = Some _)); [done|]. by intros [= ->].
Qed.

Lemma not_close_of_type m ty :
  msg_type_is m ty = true → ty ≠ "comm_close" → msg_type_is m "comm_close" = false.
Proof.
  unfold msg_type_is. intros Hty%bool_decide_eq_true Hne.
  rewrite Hty. apply bool_decide_eq_false_2. by intros [= ->].
Qed.

(** An update for a tracked Output widget: the gate is opened and the call
    suspended on the acknowledgement of the frame. *)
Lemma onKernelSocketMessage_gates protocol d m h s :
  inspected protocol d m → header m = Some h → messageNeedsFullHandle (this s) m = true →
  let p := length (promises s) in
  let r := onKernelSocketMessage protocol d s in
  r.1 = Await (AwaitSocketAck p)
  ∧ promises r.2 = promises s ++ [Pending; Pending]
  ∧ waitingMessageIds (this r.2)
    = JsMap.set (generateUuid (uuids s)) p (waitingMessageIds (this s))
  ∧ fullHandleMessage (this r.2) = Some (msg_id h, S p)
  ∧ outputWidgetIds (this r.2) = outputWidgetIds (this s)
  ∧ gatekeeping r.2 = gatekeeping s.
Proof.
  intros Hin Hh Hneeds p r. subst r p.
  destruct (onKernelSocketMessage_inspects protocol d m s Hin) as (s1 & -> & Hcore).
  apply core_inv in Hcore as (Hthis & HP & HT & HM & HL & HU).
  destruct Hin as (_ & _ & Hmirror).
  pose proof Hneeds as Hn. unfold messageNeedsFullHandle in Hn.
  apply andb_prop in Hn as [Hn Hhas]. apply andb_prop in Hn as [Hn Hmeth].
  apply andb_prop in Hn as [Hch Htype].
  pose proof (not_open_of_type m _ Htype ltac:(done)) as Hopen.
  pose proof (not_close_of_type m _ Htype ltac:(done)) as Hclose.
  unfold inspect, isIPYWidgetOutputModelClose, messageNeedsFullHandle.
  rewrite Hmirror, Hopen, Hclose, Hch, Htype, Hmeth. cbn.
  unfold gatekeeping, connected.
  destruct (usesIPyWidgets m); cbn; rewrite Hthis; cbn; rewrite Hhas, Hh; cbn;
    rewrite ?Hthis, ?HP, ?HT, ?HM, ?HL, ?HU, ?length_app; cbn;
    rewrite <- ?(assoc_L (++)), ?length_app; cbn; rewrite ?Nat.add_1_r; done.
Qed.


















Lemma tracked_beside : beside_microtasks (λ s, outputWidgetIds (this s)).
Proof. done. Qed.

Lemma hung_drain fuel s : hung (drain fuel s) = hung s.
Proof.
  pose proof (drain_beside held fuel s held_beside) as Heq.
  exact (f_equal (λ x, x.2) Heq).
Qed.

(** The turn in which a frame is handled that does not suspend. *)
Lemma returning_turn protocol d s :
  hung s = false →
  (onKernelSocketMessage protocol d s).1 = Ret tt →
  tasks (onKernelSocketMessage protocol d s).2 = tasks s →
  let s1 := step s (SocketReceive protocol d) in
  tasks s1 !! length (tasks s) = Some (Returned VUndefined)
  ∧ outputWidgetIds (this s1) = outputWidgetIds (this (onKernelSocketMessage protocol d s).2).
Proof.
  intros Hhung Hr Ht s1. subst s1. unfold step. rewrite Hhung. cbn [handle].
  unfold async, void, run_microtasks. rewrite bind_eq.
  destruct (onKernelSocketMessage protocol d s) as [r s']. cbn in Hr, Ht. subst r.
  cbn [fst snd ret settle_call]. rewrite Ht, decide_False by lia. split.
  - apply finished_drain; [|done]. cbn. rewrite lookup_app_r by done. by rewrite Nat.sub_diag.
  - by rewrite (drain_beside (λ s, outputWidgetIds (this s))) by done.
Qed.




End Gate.

(** ** The flag is sticky *)

Section Sticky.
Context `{Collaborators}.

(** A frame that hints at widgets sets the flag, however its handling ends. *)
Lemma onKernelSocketMessage_sets_flag protocol d m s :
  inspected protocol d m → usesIPyWidgets m = true →
  isUsingIPyWidgets (this (onKernelSocketMessage protocol d s).2) = true.
Proof.
  intros Hin Huses.
  destruct (onKernelSocketMessage_inspects protocol d m s Hin) as (s1 & -> & _).
  destruct Hin as (_ & _ & Hmirror).
  unfold inspect. rewrite Hmirror, Huses. cbn.
  repeat case_match; done.
Qed.

(** C10.  Once a widget-relevant inbound frame has been observed,
    [isUsingIPyWidgets] is set and stays set whatever happens afterwards
    ([evs]: restarts of the kernel, changes of socket, disposal, ...), so
    the send hook still suspends on the acknowledgement of every execute
    request it mirrors. *)
Theorem isUsingIPyWidgets_is_sticky protocol d m s evs :
  wf s → hung s = false → inspected protocol d m → usesIPyWidgets m = true →
  let s1 := step s (SocketReceive protocol d) in
  let s2 := run s1 evs in
  isUsingIPyWidgets (this s1) = true
  ∧ isUsingIPyWidgets (this s2) = true
  ∧ isUsingIPyWidgets (this (step s2 KernelSocketChanged)) = true
  ∧ ∀ protocol' d' msg h,
      hung s2 = false → accepted_execute_request protocol' d' msg h →
      tasks (step s2 (SocketSend protocol' d')) !! length (tasks s2)
      = Some (Suspended (AwaitMirror (length (promises s2)))).
Proof.
  intros Hwf Hhung Hin Huses s1 s2.
  assert (Hflag1 : isUsingIPyWidgets (this s1) = true).
  { subst s1. unfold step, run_microtasks. rewrite Hhung. apply flag_drain.
    cbn [handle]. unfold async.
    apply (flag_settle_call _ _ (void (onKernelSocketMessage protocol d) s).2); [done|].
    destruct (void_outcome (onKernelSocketMessage protocol d) s) as [-> _].
    by apply onKernelSocketMessage_sets_flag with (m := m). }
  assert (Hflag2 : isUsingIPyWidgets (this s2) = true) by by apply flag_run.
  split_and!; [done | done | by apply flag_step |].
  intros protocol' d' msg h Hhung2 Hacc.
  assert (Hwf2 : wf s2) by by apply wf_run, wf_step.
  destruct (mirrorSend_turn protocol' d' msg h s2 Hacc Hwf2 Hhung2) as (_ & _ & _ & _ & Ht).
  by rewrite Hflag2 in Ht.
Qed.
End Sticky.

(** ** Malformed frames *)

Section Malformed.
Context `{Collaborators}.

(** On its way out, a string frame that mentions [shell] and
    [execute_request] and does not parse makes [mirrorSend] throw: nothing
    is caught or logged, and the promise the hook returned is rejected. *)
Lemma mirrorSend_string_throws protocol text s :
  includes text "shell" = true → includes text "execute_request" = true →
  JSON_parse text = None →
  mirrorSend protocol (RString text) s = (Throw SyntaxError, s)
  ∧ tasks (async (void (mirrorSend protocol (RString text))) s)
    = tasks s ++ [Rejected SyntaxError].
Proof.
  intros Hs He Hp. unfold async, void. cbn. rewrite Hs, He, bind_eq. cbn.
  unfold JSON_parse_or_throw. rewrite Hp. cbn.
  split; [done|]. by rewrite decide_False by lia.
Qed.

(** What the dispatcher itself writes to the console for a frame that is not
    a string, before it looks at it. *)
Definition console_note (d : Raw) : list LogEntry :=
  if is_string d then []
  else [console_error (serializeDataViews [d])
          (deserializeDataViews (serializeDataViews [d]))].

(** The frames [onKernelSocketMessage] deserializes: those that are not
    strings, the strings that mention one of the words it looks for, and the
    mirrored strings that mention [display_data]. *)
Definition deserialized_inbound (d : Raw) : Prop :=
  mustDeserialize d = true
  ∨ ∃ text, d = RString text
            ∧ shouldMessageBeMirroredWithRenderer (inl text) = true
            ∧ includes text "display_data" = true.

Lemma onKernelSocketMessage_malformed protocol d s :
  deserialized_inbound d → deserialize d protocol = None →
  let r := onKernelSocketMessage protocol d s in
  r.1 = Throw DeserializeError
  ∧ logged r.2 = logged s ++ console_note d
  ∧ waitingMessageIds (this r.2)
    = JsMap.set (generateUuid (uuids s)) (length (promises s)) (waitingMessageIds (this s))
  ∧ tasks r.2 = tasks s
  ∧ hung r.2 = hung s.
Proof.
  intros Hdes Hd r. subst r. unfold console_note.
  unfold onKernelSocketMessage, deserialize_or_throw. rewrite Hd.
  destruct Hdes as [Hmust|(text & -> & Hmirror & Hdd)].
  - rewrite Hmust. destruct d as [text| |]; cbn.
    + destruct (shouldMessageBeMirroredWithRenderer (inl text)); cbn;
        [destruct (includes text "display_data"); cbn|]; by rewrite app_nil_r.
    + done.
    + done.
  - cbn. rewrite Hmirror. cbn. rewrite Hdd. cbn. by rewrite app_nil_r.
Qed.
End Malformed.

(** ** The full-handle gate is a single slot *)

Section Slot.
Context `{Collaborators}.

(** C5, as the code has it.  The gate is one field.  A frame that needs to be
    fully handled writes its own, fresh gate into it whatever the field
    held, before its call is suspended: the call does not wait for a gate
    that is open, that gate is replaced with its promise still pending, and
    a completion report for the message of the replaced gate no longer
    changes anything. *)
Theorem full_handle_gate_is_overwritten protocol d m h s :
  inspected protocol d m → header m = Some h → messageNeedsFullHandle (this s) m = true →
  let p := length (promises s) in
  let r := onKernelSocketMessage protocol d s in
  r.1 = Await (AwaitSocketAck p)
  ∧ fullHandleMessage (this r.2) = Some (msg_id h, S p)
  ∧ promises r.2 !! S p = Some Pending
  ∧ ∀ i gate, fullHandleMessage (this s) = Some (i, gate) →
      (promises s !! gate = Some Pending → promises r.2 !! gate = Some Pending)
      ∧ (i ≠ msg_id h → iopubMessageHandled i r.2 = (Ret tt, r.2)).
Proof.
  intros Hin Hh Hneeds p r.
  destruct (onKernelSocketMessage_gates protocol d m h s Hin Hh Hneeds)
    as (Hr & HP & _ & Hslot & _).
  fold r in Hr, HP, Hslot. clearbody r. subst p. destruct r as [o s']. cbn in Hr, HP, Hslot |- *.
  split_and!; [done..| |].
  - rewrite HP, lookup_app_r by lia.
    by replace (S (length (promises s)) - length (promises s)) with 1 by lia.
  - intros i gate _. split.
    + intros Hg. rewrite HP. by apply lookup_app_l_Some.
    + intros Hne. unfold iopubMessageHandled. cbn. rewrite Hslot.
      destruct (String.eqb (msg_id h) i) eqn:Heq; [|done].
      by apply String.eqb_eq in Heq.
Qed.
End Slot.

(** * The dispatcher at work

    The theorems above on explicit runs of the dispatcher of [Example]. *)

(** C1 on a run: two payloads queued one after the other go to the kernel
    in that order. *)
Lemma outbound_queue_is_fifo_witness :
  let payloads := [RString "shell execute_request e1"; RString "control comm_msg k1"] in
  let s' := run Example.started ((λ payload, Receive (IPyWidgets_msg payload)) <$> payloads) in
  ∃ n cs,
    n ≤ length payloads
    ∧ Forall2 (λ payload call,
                 dispatch (env Example.started) 0 "v1.kernel.websocket.jupyter.org" payload
                 = Some call) (take n payloads) cs
    ∧ calls s' = calls Example.started ++ cs
    ∧ pendingMessages (this s') = drop n payloads.
Proof.
  intros payloads s'.
  destruct (outbound_queue_is_fifo Example.started 0 payloads) as (_ & _ & Hrun);
    [reflexivity | reflexivity |].
  exact Hrun.
Defined.

(** The failing run for C2.  The constructor queues [jupyter.widget], which
    is registered when the kernel starts.  The render surface then asks for
    [jupyter.widget] again and for [bar]: [registerCommTargets] returns at
    the name that is registered already, which stays pending and in front,
    so [bar] is never registered, neither in [commTargetsRegistered] nor
    with the kernel connection.  Asked for alone, [bar] is registered. *)
Theorem registerCommTargets_returns_early :
  let blocked := run Example.started [Receive (IPyWidgets_registerCommTarget "jupyter.widget");
                                      Receive (IPyWidgets_registerCommTarget "bar")] in
  let alone := run Example.started [Receive (IPyWidgets_registerCommTarget "bar")] in
  commTargetsRegistered (this blocked) = ["jupyter.widget"]
  ∧ pendingTargetNames (this blocked) = ["jupyter.widget"; "bar"]
  ∧ calls blocked = calls Example.started
  ∧ hung blocked = false
  ∧ commTargetsRegistered (this alone) = ["jupyter.widget"; "bar"]
  ∧ pendingTargetNames (this alone) = []
  ∧ calls alone = calls Example.started ++ [registerCommTarget_call 0 "bar"].
Proof. vm_compute. repeat split; reflexivity. Qed.

(** C3 on a run: the send hook waits for the acknowledgement of [e1] when
    the kernel socket changes; the waiting message is resolved and dropped
    and one restart notice is posted. *)
Lemma kernel_restart_discards_witness :
  let s := step Example.opened (Example.sending "e1") in
  let s' := step s KernelSocketChanged in
  waitingMessageIds (this s) = [("uuid-0", 0); ("e1", 1)]
  ∧ is_resolved s' 1 = true
  ∧ waitingMessageIds (this s') = []
  ∧ pendingMessages (this s') = []
  ∧ restart_notices s' = S (restart_notices s).
Proof.
  intros s s'.
  destruct (kernel_restart_discards s 0 (Some "kernel-1"))
    as (Hqueue & _ & Hwaiting & _ & Hnone & _ & _ & Hnotice);
    [reflexivity | reflexivity | reflexivity |].
  split_and!; [reflexivity | | exact Hnone | exact Hqueue | exact Hnotice].
  apply (Hwaiting "e1").
  - vm_compute. apply list_elem_of_further, list_elem_of_here.
  - vm_compute. repeat constructor.
Defined.



(** C5 fails on this run.  Update [u1] opens the gate with promise 2.
    Update [u2] arrives while that gate is open: in the same turn the gate
    is its own (promise 4), with promise 2 still pending.  The call of [u1],
    once its frame is acknowledged, waits at the gate of [u2]; the report for
    [u1] changes nothing, the report for [u2] lets the call of [u1] return,
    and promise 2, the wait that was overwritten, is pending for ever. *)
Lemma second_gate_overwrites_first :
  let s1 := step Example.opened (Example.updating "u1") in
  let s2 := step s1 (Example.updating "u2") in
  let s3 := run s2 [Example.acknowledged "uuid-1"; Example.handled "u1"] in
  let s4 := step s3 (Example.handled "u2") in
  (fullHandleMessage (this s1) = Some ("u1", 2) ∧ promises s1 !! 2 = Some Pending)
  ∧ (fullHandleMessage (this s2) = Some ("u2", 4) ∧ promises s2 !! 2 = Some Pending
     ∧ tasks s2 !! 2 = Some (Suspended (AwaitSocketAck 3)))
  ∧ (tasks s3 !! 1 = Some (Suspended (AwaitFullHandle 4))
     ∧ fullHandleMessage (this s3) = Some ("u2", 4))
  ∧ (tasks s4 !! 1 = Some (Returned VUndefined) ∧ promises s4 !! 2 = Some Pending
     ∧ fullHandleMessage (this s4) = None).
Proof. vm_compute. repeat split; reflexivity. Qed.

(** C5, as the code has it, on the same run. *)
Lemma full_handle_gate_is_overwritten_witness :
  let s1 := step Example.opened (Example.updating "u1") in
  let r := onKernelSocketMessage "" (RString "iopub comm_msg u2 X update") s1 in
  r.1 = Await (AwaitSocketAck 3)
  ∧ fullHandleMessage (this r.2) = Some ("u2", 4)
  ∧ promises r.2 !! 2 = Some Pending
  ∧ iopubMessageHandled "u1" r.2 = (Ret tt, r.2).
Proof.
  intros s1 r.
  destruct (full_handle_gate_is_overwritten "" (RString "iopub comm_msg u2 X update")
              (Example.update_output "u2") {| msg_type := "comm_msg"; msg_id := "u2" |} s1)
    as (Hr & Hslot & _ & Hold);
    [repeat split; reflexivity | reflexivity | reflexivity |].
  destruct (Hold "u1" 2) as [Hpending Hignored]; [reflexivity|].
  split_and!; [exact Hr | exact Hslot | apply Hpending; reflexivity |].
  apply Hignored. discriminate.
Defined.


(** C7 on two runs.  Before any widget was seen the send hook returns at
    once.  After the [comm_open] of a widget it is suspended, stays so
    while the dispatcher is disposed of and other messages are acknowledged,
    and returns when [e1] is acknowledged. *)
Lemma mirrorSend_waits_for_acknowledgement_witness :
  let s1 := step Example.opened (Example.sending "e1") in
  let s2 := run s1 [Dispose; Example.acknowledged "e0"; Example.handled "e1"] in
  Post_mirror_execute "e1" (Example.execute "e1") ∈ posted s1
  ∧ tasks s2 !! 1 = Some (Suspended (AwaitMirror 1))
  ∧ tasks (step s2 (Example.acknowledged "e1")) !! 1 = Some (Returned VUndefined).
Proof.
  intros s1 s2.
  destruct (mirrorSend_waits_for_acknowledgement "" (RString "shell execute_request e1")
              (Example.execute "e1") {| msg_type := "execute_request"; msg_id := "e1" |}
              Example.opened)
    as (Hposted & _ & _ & _ & Hwaits);
    [repeat split; reflexivity
    | exact (wf_constructed _ [KernelStarted true; Example.opening])
    | reflexivity |].
  destruct (Hwaits eq_refl [Dispose; Example.acknowledged "e0"; Example.handled "e1"])
    as (Hsuspended & _ & Hreturns).
  { repeat constructor; discriminate. }
  split_and!; [exact Hposted | exact Hsuspended | apply Hreturns; reflexivity].
Defined.

(** C8 fails on this run: an inbound frame that cannot be deserialized makes
    [onKernelSocketMessage] throw; the error is not logged and the promise
    of the call is rejected.  The next frame is handled as usual. *)
Lemma malformed_inbound_frame_escapes :
  let d := RString "iopub comm_msg {" in
  let r := onKernelSocketMessage "" d Example.started in
  let s := run Example.started [SocketReceive "" d; Example.opening] in
  r.1 = Throw DeserializeError
  ∧ logged r.2 = logged Example.started
  ∧ tasks s = [Rejected DeserializeError; Returned VUndefined]
  ∧ outputWidgetIds (this s) = [Some "X"].
Proof. vm_compute. repeat split; reflexivity. Qed.

(** C10 on a run: the [comm_open] of a widget sets the flag; the kernel
    restarts (one restart notice is posted, the waiting messages are
    dropped), the flag is still set and the send hook still waits for the
    acknowledgement of the next execute request. *)
Lemma isUsingIPyWidgets_is_sticky_witness :
  let s1 := step Example.started Example.opening in
  let s2 := run s1 [Example.sending "e1"; KernelSocketChanged; Dispose] in
  isUsingIPyWidgets (this Example.started) = false
  ∧ restart_notices s2 = 1
  ∧ isUsingIPyWidgets (this s1) = true
  ∧ isUsingIPyWidgets (this s2) = true
  ∧ tasks (step s2 (SocketSend "" (RString "shell execute_request e2"))) !! length (tasks s2)
    = Some (Suspended (AwaitMirror (length (promises s2)))).
Proof.
  intros s1 s2.
  assert (Hhung : hung Example.started = false) by (vm_compute; reflexivity).
  assert (Hin : inspected "" (RString "iopub comm_open o1 X @jupyter-widgets/output OutputModel")
                  Example.open_output).
  { repeat split; vm_compute; reflexivity. }
  assert (Huses : usesIPyWidgets Example.open_output = true) by (vm_compute; reflexivity).
  destruct (isUsingIPyWidgets_is_sticky ""
              (RString "iopub comm_open o1 X @jupyter-widgets/output OutputModel")
              Example.open_output Example.started
              [Example.sending "e1"; KernelSocketChanged; Dispose]
              (wf_constructed _ [KernelStarted true]) Hhung Hin Huses)
    as (Hset & Hkept & _ & Hwaits).
  split_and!; [vm_compute; reflexivity | vm_compute; reflexivity | exact Hset | exact Hkept |].
  apply (Hwaits "" (RString "shell execute_request e2") (Example.execute "e2")
           {| msg_type := "execute_request"; msg_id := "e2" |}).
  - vm_compute; reflexivity.
  - repeat split; vm_compute; reflexivity.
Defined.

(** * Further properties

    The methods of the class that the sections above use only as steps of
    longer runs. *)

(** ** Message hooks *)

Section Hooks.
Context `{Collaborators}.

(** The acknowledgements the render surface gets for its hook commands. *)
Definition registered_hook (msgId : string) : PostMsg :=
  Post_ExtensionOperationHandled msgId RegisterMessageHook.

Definition removed_hook (hookMsgId : string) : PostMsg :=
  Post_ExtensionOperationHandled hookMsgId RemoveMessageHook.

(** [registerMessageHook] acknowledges the command to the render surface
    once, after its work, whether or not it registered anything.  The hook
    goes into the table and then to the kernel connection only if there is
    a connection and the table does not have it.  (How the method ends is
    not stated: that depends on the kernel's own [registerMessageHook].) *)
Theorem registerMessageHook_acknowledges msgId s :
  let r := registerMessageHook msgId s in
  posted r.2 = posted s ++ [registered_hook msgId]
  ∧ match this_kernel_connection s with
    | Some c =>
        if JsSet.has msgId (messageHooks (this s))
        then messageHooks (this r.2) = messageHooks (this s) ∧ calls r.2 = calls s
        else messageHooks (this r.2) = messageHooks (this s) ++ [msgId]
             ∧ calls r.2 = calls s ++ [registerMessageHook_call c msgId]
    | None => messageHooks (this r.2) = messageHooks (this s) ∧ calls r.2 = calls s
    end.
Proof.
  unfold registerMessageHook, try_finally. cbn.
  destruct (this_kernel_connection s) as [c|]; cbn; [|done].
  unfold JsSet.add.
  destruct (JsSet.has msgId (messageHooks (this s))) eqn:Hhas; cbn; [done|].
  by rewrite Hhas.
Qed.
End Hooks.

(** ** Message hooks on runs *)

Section HookRuns.
Context `{Collaborators}.

(** A command of the render surface whose handler returns: the turn leaves
    what the handler left, as far as microtasks do not touch it. *)
Lemma step_receive {B} (π : St → B) message s s' :
  beside_microtasks π → hung s = false →
  receiveMessage message s = (Ret tt, s') →
  π (step s (Receive message)) = π s'.
Proof.
  intros Hπ Hhung Hm. unfold step. rewrite Hhung. cbn [handle]. unfold sync. rewrite Hm.
  by apply run_microtasks_beside.
Qed.

(** What the hook commands work on. *)
Definition hooking (s : St) :=
  (messageHooks (this s), pendingHookRemovals (this s), calls s, posted s,
   kernel (this s), env s, hung s).

Lemma hooking_beside : beside_microtasks hooking.
Proof. done. Qed.

Lemma hooking_inv s s' :
  hooking s' = hooking s →
  messageHooks (this s') = messageHooks (this s)
  ∧ pendingHookRemovals (this s') = pendingHookRemovals (this s)
  ∧ calls s' = calls s ∧ posted s' = posted s
  ∧ this_kernel_connection s' = this_kernel_connection s ∧ hung s' = hung s.
Proof.
  intros Heq. unfold this_kernel_connection.
  rewrite (f_equal (λ x, x.1.1.2) Heq : kernel (this s') = _).
  rewrite (f_equal (λ x, x.1.2) Heq : env s' = _).
  split_and!; [exact (f_equal (λ x, x.1.1.1.1.1.1) Heq) | exact (f_equal (λ x, x.1.1.1.1.1.2) Heq)
              | exact (f_equal (λ x, x.1.1.1.1.2) Heq) | exact (f_equal (λ x, x.1.1.1.2) Heq)
              | done | exact (f_equal (λ x, x.2) Heq)].
Qed.

Lemma registerMessageHook_hooking msgId s :
  ∃ s', registerMessageHook msgId s = (Ret tt, s')
        ∧ hooking s'
          = (match this_kernel_connection s with
             | Some c => JsSet.add msgId (messageHooks (this s))
             | None => messageHooks (this s)
             end,
             pendingHookRemovals (this s),
             match this_kernel_connection s with
             | Some c => if JsSet.has msgId (messageHooks (this s)) then calls s
                         else calls s ++ [registerMessageHook_call c msgId]
             | None => calls s
             end,
             posted s ++ [registered_hook msgId], kernel (this s), env s, hung s).
Proof.
  unfold registerMessageHook, try_finally. cbn.
  destruct (this_kernel_connection s) as [c|]; cbn; [|by eexists].
  unfold JsSet.add.
  destruct (JsSet.has msgId (messageHooks (this s))) eqn:Hhas; cbn; eexists; split; try done.
  unfold hooking. cbn. by rewrite Hhas.
Qed.

(** However often the render surface asks for a hook, the kernel connection
    is asked once for each message id that was not hooked, in the order the
    ids join the hooks, and every request is acknowledged. *)
Theorem message_hooks_registered_once ids s c :
  hung s = false → this_kernel_connection s = Some c →
  let s' := run s ((λ i, Receive (IPyWidgets_RegisterMessageHook i)) <$> ids) in
  ∃ new,
    messageHooks (this s') = messageHooks (this s) ++ new
    ∧ calls s' = calls s ++ (registerMessageHook_call c <$> new)
    ∧ posted s' = posted s ++ (registered_hook <$> ids)
    ∧ NoDup new
    ∧ ∀ i, i ∈ new ↔ i ∈ ids ∧ i ∉ messageHooks (this s).
Proof.
  revert s. induction ids as [|i ids IH]; intros s Hhung Hc; cbn.
  - exists []. rewrite !app_nil_r. split_and!; try done; [constructor|].
    intros i. rewrite !elem_of_nil. tauto.
  - destruct (registerMessageHook_hooking i s) as (s1 & Hr & Hs1).
    pose proof (step_receive hooking (IPyWidgets_RegisterMessageHook i) s s1
                  hooking_beside Hhung Hr) as Hstep.
    rewrite Hs1, Hc in Hstep. clear Hr Hs1 s1.
    set (s1 := step s (Receive (IPyWidgets_RegisterMessageHook i))) in *.
    change (hooking s1 = hooking
              (set_posted (posted s ++ [registered_hook i])
                 (set_calls (if JsSet.has i (messageHooks (this s)) then calls s
                             else calls s ++ [registerMessageHook_call c i])
                    (set_this (set_messageHooks (JsSet.add i (messageHooks (this s))) (this s))
                       s)))) in Hstep.
    apply hooking_inv in Hstep as (Hhooks & _ & Hcalls & Hposted & Hconn & Hhung1).
    cbn in Hhooks, Hcalls, Hposted, Hhung1.
    change (this_kernel_connection (set_posted _ _)) with (this_kernel_connection s) in Hconn.
    destruct (IH s1) as (new & Hh & Hcs & Hp & Hnd & Hnew); [congruence.. |].
    rewrite Hhooks in Hh, Hnew. rewrite Hcalls in Hcs. rewrite Hposted in Hp.
    unfold JsSet.add in Hh, Hnew.
    destruct (JsSet.has i (messageHooks (this s))) eqn:Hhas.
    + apply bool_decide_eq_true in Hhas.
      exists new. split_and!; try done.
      * rewrite <- (assoc_L (++)) in Hp. exact Hp.
      * intros j. rewrite Hnew, elem_of_cons. split; [tauto|].
        intros [[->|Hj] Hn]; [done|]. tauto.
    + apply bool_decide_eq_false in Hhas.
      exists (i :: new). split_and!.
      * rewrite <- (assoc_L (++)) in Hh. exact Hh.
      * rewrite <- (assoc_L (++)) in Hcs. exact Hcs.
      * rewrite <- (assoc_L (++)) in Hp. exact Hp.
      * constructor; [|done]. rewrite Hnew, elem_of_app. intros [_ Hn]. apply Hn. right. by left.
      * intros j. rewrite !elem_of_cons, Hnew, elem_of_app, elem_of_cons, elem_of_nil.
        destruct (decide (j = i)) as [->|Hne]; tauto.
Qed.
End HookRuns.

Section HookRemoval.
Context `{Collaborators}.

Lemma filter_all {A} (P : A → Prop) `{∀ x, Decision (P x)} (l : list A) :
  Forall P l → filter P l = l.
Proof.
  induction 1 as [|x l Hx Hl IH]; [done|]. by rewrite filter_cons_True, IH.
Qed.

Lemma JsSet_delete_snoc {A} `{EqDecision A} (x : A) l :
  x ∉ l → JsSet.delete x (l ++ [x]) = l.
Proof.
  intros Hx. unfold JsSet.delete. rewrite filter_app.
  rewrite (filter_cons_False _ x) by (intros Hne; by apply Hne).
  rewrite filter_nil, app_nil_r.
  apply filter_all. apply Forall_forall. intros y Hy ->. done.
Qed.

Lemma removeMessageHook_hooking msgId s :
  ∃ s', removeMessageHook msgId s = (Ret tt, s')
        ∧ hooking s'
          = (match this_kernel_connection s with
             | Some c => if JsSet.has msgId (messageHooks (this s))
                         then JsSet.delete msgId (messageHooks (this s))
                         else messageHooks (this s)
             | None => messageHooks (this s)
             end,
             pendingHookRemovals (this s),
             match this_kernel_connection s with
             | Some c => if JsSet.has msgId (messageHooks (this s))
                         then calls s ++ [removeMessageHook_call c msgId] else calls s
             | None => calls s
             end,
             posted s, kernel (this s), env s, hung s).
Proof.
  unfold removeMessageHook. cbn.
  destruct (this_kernel_connection s) as [c|]; cbn; [|by eexists].
  destruct (JsSet.has msgId (messageHooks (this s))); cbn; by eexists.
Qed.

(** [possiblyRemoveMessageHook] acknowledges the command to the render
    surface once, after its work.  With a last hooked message id that is not
    empty the removal is only noted, for that id; without one the hook is
    removed now, from the table and then from the kernel connection, if
    there is a connection and the table has it.  (How the method ends is not
    stated: that depends on the kernel's own [removeMessageHook].) *)
Theorem possiblyRemoveMessageHook_acknowledges hookMsgId lastHookedMsgId s :
  let r := possiblyRemoveMessageHook hookMsgId lastHookedMsgId s in
  let d := this s in
  let unchanged := messageHooks (this r.2) = messageHooks d ∧ calls r.2 = calls s in
  let removed_now :=
    pendingHookRemovals (this r.2) = pendingHookRemovals d
    ∧ match this_kernel_connection s with
      | Some c =>
          if JsSet.has hookMsgId (messageHooks d)
          then messageHooks (this r.2) = JsSet.delete hookMsgId (messageHooks d)
               ∧ calls r.2 = calls s ++ [removeMessageHook_call c hookMsgId]
          else unchanged
      | None => unchanged
      end in
  posted r.2 = posted s ++ [removed_hook hookMsgId]
  ∧ match lastHookedMsgId with
    | Some l =>
        if truthy l
        then pendingHookRemovals (this r.2) = JsMap.set l hookMsgId (pendingHookRemovals d)
             ∧ unchanged
        else removed_now
    | None => removed_now
    end.
Proof.
  intros r d unchanged removed_now. subst r d unchanged removed_now.
  unfold possiblyRemoveMessageHook.
  set (now := try_finally (removeMessageHook hookMsgId)
                (raisePostMessage (Post_ExtensionOperationHandled hookMsgId RemoveMessageHook))).
  assert (Hnow :
    posted (now s).2 = posted s ++ [removed_hook hookMsgId]
    ∧ pendingHookRemovals (this (now s).2) = pendingHookRemovals (this s)
    ∧ match this_kernel_connection s with
      | Some c =>
          if JsSet.has hookMsgId (messageHooks (this s))
          then messageHooks (this (now s).2) = JsSet.delete hookMsgId (messageHooks (this s))
               ∧ calls (now s).2 = calls s ++ [removeMessageHook_call c hookMsgId]
          else messageHooks (this (now s).2) = messageHooks (this s)
               ∧ calls (now s).2 = calls s
      | None => messageHooks (this (now s).2) = messageHooks (this s)
                ∧ calls (now s).2 = calls s
      end).
  { subst now. unfold try_finally.
    destruct (removeMessageHook_hooking hookMsgId s) as (s1 & -> & Hs1). cbn.
    pose proof (f_equal (λ x, x.1.1.1.1.1.1) Hs1) as Hhooks.
    pose proof (f_equal (λ x, x.1.1.1.1.1.2) Hs1) as Hrem.
    pose proof (f_equal (λ x, x.1.1.1.1.2) Hs1) as Hcalls.
    pose proof (f_equal (λ x, x.1.1.1.2) Hs1) as Hposted.
    cbn in Hhooks, Hrem, Hcalls, Hposted.
    rewrite Hhooks, Hrem, Hcalls, Hposted.
    split_and!; [done..|].
    destruct (this_kernel_connection s); [|done].
    by destruct (JsSet.has hookMsgId (messageHooks (this s))). }
  destruct lastHookedMsgId as [l|]; [destruct (truthy l)|]; try exact Hnow.
  subst now. unfold try_finally. cbn. done.
Qed.

(** A hook registered and removed again: the table is what it was, and the
    kernel connection has been told both. *)
Theorem hook_register_remove_round_trip i s c :
  hung s = false → this_kernel_connection s = Some c → i ∉ messageHooks (this s) →
  let s' := run s [Receive (IPyWidgets_RegisterMessageHook i);
                   Receive (IPyWidgets_RemoveMessageHook i None)] in
  messageHooks (this s') = messageHooks (this s)
  ∧ calls s' = calls s ++ [registerMessageHook_call c i; removeMessageHook_call c i]
  ∧ posted s' = posted s ++ [registered_hook i; removed_hook i].
Proof.
  intros Hhung Hc Hi s'. subst s'. cbn [run foldl].
  assert (Hhas : JsSet.has i (messageHooks (this s)) = false) by by apply bool_decide_eq_false.
  destruct (registerMessageHook_hooking i s) as (s1 & Hr & Hs1).
  pose proof (step_receive hooking (IPyWidgets_RegisterMessageHook i) s s1
                hooking_beside Hhung Hr) as Hstep.
  rewrite Hs1, Hc, Hhas in Hstep. clear Hr Hs1 s1. unfold JsSet.add in Hstep. rewrite Hhas in Hstep.
  set (s1 := step s (Receive (IPyWidgets_RegisterMessageHook i))) in *.
  pose proof (f_equal (λ x, x.1.1.1.1.1.1) Hstep) as Hhooks.
  pose proof (f_equal (λ x, x.1.1.1.1.2) Hstep) as Hcalls.
  pose proof (f_equal (λ x, x.1.1.1.2) Hstep) as Hposted.
  pose proof (f_equal (λ x, x.1.1.2) Hstep) as Hkernel.
  pose proof (f_equal (λ x, x.1.2) Hstep) as Henv.
  pose proof (f_equal (λ x, x.2) Hstep) as Hhung1.
  cbn in Hhooks, Hcalls, Hposted, Hkernel, Henv, Hhung1.
  assert (Hc1 : this_kernel_connection s1 = Some c).
  { unfold this_kernel_connection. by rewrite Hkernel, Henv. }
  assert (Hr2 : ∃ s2, receiveMessage (IPyWidgets_RemoveMessageHook i None) s1 = (Ret tt, s2)
                      ∧ messageHooks (this s2) = messageHooks (this s)
                      ∧ calls s2 = calls s1 ++ [removeMessageHook_call c i]
                      ∧ posted s2 = posted s1 ++ [removed_hook i]).
  { cbn [receiveMessage]. unfold possiblyRemoveMessageHook, try_finally.
    destruct (removeMessageHook_hooking i s1) as (s2 & -> & Hs2). cbn.
    rewrite Hc1, Hhooks in Hs2.
    assert (Hhas1 : JsSet.has i (messageHooks (this s) ++ [i]) = true).
    { apply bool_decide_eq_true, elem_of_app. right. by left. }
    rewrite Hhas1 in Hs2. eexists. split; [done|]. cbn.
    rewrite (f_equal (λ x, x.1.1.1.1.1.1) Hs2 : messageHooks (this s2) = _).
    rewrite (f_equal (λ x, x.1.1.1.1.2) Hs2 : calls s2 = _).
    rewrite (f_equal (λ x, x.1.1.1.2) Hs2 : posted s2 = _).
    split_and!; [by apply JsSet_delete_snoc | done | done]. }
  destruct Hr2 as (s2 & Hr2 & Hh2 & Hc2 & Hp2).
  assert (Hhung1' : hung s1 = false) by congruence.
  rewrite (step_receive (λ s, messageHooks (this s)) _ s1 s2) by done.
  rewrite (step_receive calls _ s1 s2) by done.
  rewrite (step_receive posted _ s1 s2) by done.
  rewrite Hh2, Hc2, Hp2, Hcalls, Hposted, <- !(assoc_L (++)). done.
Qed.
End HookRemoval.

Section HookDecisions.
Context `{Collaborators}.

(** Whether the kernel connection's hook asks the render surface about
    [msg]: when the id of its parent is hooked. *)
Definition hooked (msg : KMessage) (s : St) : bool :=
  match msg_id <$> parent_header msg with
  | Some parentId => JsSet.has parentId (messageHooks (this s))
  | None => false
  end.

Lemma messageHookCallback_spec msg h s :
  header msg = Some h →
  let p := length (promises s) in
  let requestId := generateUuid (uuids s) in
  ∃ s', messageHookCallback msg s = (Await (AwaitHookDecision p), s')
    ∧ tasks s' = tasks s ∧ hung s' = hung s
    ∧ kernel (this s') = kernel (this s) ∧ env s' = env s
    ∧ promises s' = promises s ++ [if hooked msg s then Pending else Resolved (VBool true)]
    ∧ messageHookRequests (this s')
      = (if hooked msg s then JsMap.set requestId p (messageHookRequests (this s))
         else messageHookRequests (this s))
    ∧ posted s'
      = posted s ++ (if hooked msg s
                     then [Post_MessageHookCall requestId (msg_id <$> parent_header msg) msg]
                     else [])
    ∧ microtasks s'
      = microtasks s ++ (if hooked msg s then [] else waiters 0 p (tasks s))
    ∧ match JsMap.get (msg_id h) (pendingHookRemovals (this s)) with
      | Some hookId =>
          pendingHookRemovals (this s')
          = JsMap.delete (msg_id h) (pendingHookRemovals (this s))
          ∧ match this_kernel_connection s with
            | Some c =>
                if JsSet.has hookId (messageHooks (this s))
                then messageHooks (this s') = JsSet.delete hookId (messageHooks (this s))
                     ∧ calls s' = calls s ++ [removeMessageHook_call c hookId]
                else messageHooks (this s') = messageHooks (this s) ∧ calls s' = calls s
            | None => messageHooks (this s') = messageHooks (this s) ∧ calls s' = calls s
            end
      | None =>
          pendingHookRemovals (this s') = pendingHookRemovals (this s)
          ∧ messageHooks (this s') = messageHooks (this s) ∧ calls s' = calls s
      end.
Proof.
  intros Hh p requestId. subst p requestId. unfold messageHookCallback, hooked. rewrite Hh.
  rewrite bind_eq. cbn [createDeferred]. rewrite bind_eq. cbn [uuid]. rewrite bind_eq. cbn [gets].
  set (s1 := set_uuids _ _).
  assert (Hres : resolve (length (promises s)) (VBool true) s1
                 = (Ret tt, set_microtasks
                              (microtasks s ++ waiters 0 (length (promises s)) (tasks s))
                              (set_promises (promises s ++ [Resolved (VBool true)]) s1))).
  { unfold resolve, modify. subst s1. cbn.
    rewrite lookup_app_r, Nat.sub_diag by done. cbn.
    rewrite insert_app_r_alt, Nat.sub_diag by done. done. }
  assert (Hrem : ∀ hookId s2, ∃ s3, removeMessageHook hookId s2 = (Ret tt, s3)
             ∧ s3 = match this_kernel_connection s2 with
                    | Some c =>
                        if JsSet.has hookId (messageHooks (this s2))
                        then set_calls (calls s2 ++ [removeMessageHook_call c hookId])
                               (set_this (set_messageHooks
                                            (JsSet.delete hookId (messageHooks (this s2)))
                                            (this s2)) s2)
                        else s2
                    | None => s2
                    end).
  { intros hookId s2. unfold removeMessageHook. cbn.
    destruct (this_kernel_connection s2); [|by eexists].
    destruct (JsSet.has hookId (messageHooks (this s2))); by eexists. }
  destruct (msg_id <$> parent_header msg) as [parentId|];
    [destruct (JsSet.has parentId (messageHooks (this s))) eqn:Hhas|];
    change (messageHooks (this s1)) with (messageHooks (this s)); rewrite ?Hhas;
    rewrite bind_eq; cbn -[resolve removeMessageHook]; rewrite ?Hres;
    cbn -[resolve removeMessageHook];
    destruct (JsMap.get (msg_id h) (pendingHookRemovals (this s))) as [hookId|] eqn:Hget;
    cbn -[resolve removeMessageHook].
  all: rewrite ?app_nil_r.
  all: rewrite bind_eq; cbn -[removeMessageHook]; rewrite Hget.
  all: first
    [ solve [cbn; eexists; split; [reflexivity|]; done]
    | rewrite bind_eq; cbn -[removeMessageHook];
      match goal with
      | |- context [removeMessageHook ?i ?s2] =>
          destruct (Hrem i s2) as (s3 & -> & ->);
          change (this_kernel_connection s2) with (this_kernel_connection s);
          change (messageHooks (this s2)) with (messageHooks (this s));
          cbn; eexists; (split; [reflexivity|]);
          destruct (this_kernel_connection s); [|done];
          destruct (JsSet.has i (messageHooks (this s))); done
      end ].
Qed.

(** A call suspended on a pending promise is still suspended when the
    microtasks have run. *)
Lemma pending_drain t k fuel s :
  promises s !! awaited k = Some Pending → tasks s !! t = Some (Suspended k) →
  tasks (drain fuel s) !! t = Some (Suspended k).
Proof.
  revert s. induction fuel as [|fuel IH]; intros s Hp Ht; cbn [drain]; [done|].
  case_match; [done|]. apply IH.
  - by destruct (held_inv _ _ (resume_held n (set_microtasks l s))) as (-> & _).
  - by apply suspended_resume.
Qed.

(** The microtask of a call whose promise is resolved takes the call to its
    next stage, which may depend on the promises. *)
Lemma wakes_to t k st s :
  tasks s !! t = Some (Suspended k) →
  is_resolved s (awaited k) = true →
  t ∈ microtasks s →
  (∀ s', promises s' = promises s → next_status k s' = st) →
  (∀ k', st ≠ Suspended k') →
  tasks (run_microtasks s) !! t = Some st.
Proof.
  intros Ht Hr Hin Hnext Hst.
  apply list_elem_of_split in Hin as (pre & post & Hq).
  unfold run_microtasks.
  apply (drain_wakes
           (λ s0, tasks s0 !! t = Some (Suspended k) ∧ promises s0 = promises s)
           (λ s0, tasks s0 !! t = Some st) t) with (pre := pre) (post := post); try done.
  - intros s0 t' Hne [Ht0 Hp0]. split.
    + rewrite resume_tasks. repeat case_match; try done. by rewrite list_lookup_insert_ne.
    + by destruct (held_inv _ _ (resume_held t' s0)) as (-> & _).
  - intros s0 [Ht0 Hp0]. rewrite resume_tasks, Ht0.
    unfold is_resolved in Hr |- *. rewrite Hp0.
    destruct (promises s !! awaited k) as [[|v]|]; try done.
    rewrite (Hnext s0 Hp0). apply list_lookup_insert_eq. by eapply lookup_lt_Some.
  - intros s0 t' Ht0. by apply finished_resume.
  - rewrite Hq, length_app. cbn. lia.
Qed.

Lemma iopub_turn {B} (π : St → B) msg k s s' :
  beside_microtasks π → hung s = false →
  messageHookCallback msg s = (Await k, s') →
  π (step s (IOPubHook msg)) = π s'.
Proof.
  intros Hπ Hhung Hm. unfold step. rewrite Hhung. cbn [handle]. unfold async.
  rewrite run_microtasks_beside by done.
  rewrite settle_call_beside by (try done; by rewrite Hm).
  by rewrite Hm.
Qed.

(** A message whose parent is not hooked goes through: the hook of the
    kernel connection gets [true] in the same turn, and the render surface
    is not asked. *)
Theorem unhooked_message_proceeds msg h parent s :
  hung s = false → header msg = Some h → parent_header msg = Some parent →
  JsSet.has (msg_id parent) (messageHooks (this s)) = false →
  let s' := step s (IOPubHook msg) in
  tasks s' !! length (tasks s) = Some (Returned (VBool true))
  ∧ posted s' = posted s
  ∧ messageHookRequests (this s') = messageHookRequests (this s).
Proof.
  intros Hhung Hh Hparent Hhas s'.
  assert (Hno : hooked msg s = false) by (unfold hooked; by rewrite Hparent).
  destruct (messageHookCallback_spec msg h s Hh)
    as (s1 & Hm & Ht & Hu & _ & _ & HP & HQ & Hposted & Hmicro & _).
  rewrite Hno in HP, HQ, Hposted, Hmicro. rewrite app_nil_r in Hposted.
  split_and!.
  - subst s'. unfold step. rewrite Hhung. cbn [handle]. unfold async. rewrite Hm.
    cbn [fst snd settle_call awaited]. rewrite Ht, decide_False by lia.
    set (s2 := set_tasks _ s1).
    assert (Hr2 : is_resolved s2 (length (promises s)) = true).
    { unfold is_resolved. subst s2. cbn. rewrite HP, lookup_app_r, Nat.sub_diag by done. done. }
    rewrite Hr2.
    apply wakes_to with (k := AwaitHookDecision (length (promises s))).
    + cbn. rewrite lookup_app_r, Nat.sub_diag by done. done.
    + exact Hr2.
    + cbn. apply elem_of_app. right. by left.
    + intros s0 Hs0. cbn. rewrite Hs0. cbn. rewrite HP, lookup_app_r, Nat.sub_diag by done. done.
    + done.
  - subst s'. by rewrite (iopub_turn posted msg _ s s1 ltac:(done) Hhung Hm).
  - subst s'. by rewrite (iopub_turn (λ s, messageHookRequests (this s)) msg _ s s1 ltac:(done) Hhung Hm).
Qed.

(** A message whose parent is hooked: the render surface is asked, under a
    fresh request id, and the hook of the kernel connection waits.  The
    answer to that request makes it return what
    [handleMessageHookResponse] decides. *)
Theorem hook_decision_round_trip msg h parent s parentId msgType result :
  hung s = false → header msg = Some h → parent_header msg = Some parent →
  JsSet.has (msg_id parent) (messageHooks (this s)) = true →
  let requestId := generateUuid (uuids s) in
  let t := length (tasks s) in
  let s1 := step s (IOPubHook msg) in
  let s2 := step s1 (Receive (IPyWidgets_MessageHookResult requestId parentId msgType result)) in
  posted s1 = posted s ++ [Post_MessageHookCall requestId (Some (msg_id parent)) msg]
  ∧ tasks s1 !! t = Some (Suspended (AwaitHookDecision (length (promises s))))
  ∧ tasks s2 !! t = Some (Returned (VBool (if includes msgType "comm" then true else result)))
  ∧ JsMap.get requestId (messageHookRequests (this s2)) = None.
Proof.
  intros Hhung Hh Hparent Hhas requestId t s1 s2.
  assert (Hyes : hooked msg s = true) by (unfold hooked; by rewrite Hparent).
  destruct (messageHookCallback_spec msg h s Hh)
    as (s' & Hm & Ht & Hu & _ & _ & HP & HQ & Hposted & Hmicro & _).
  rewrite Hyes in HP, HQ, Hposted, Hmicro. fold requestId in HQ, Hposted.
  assert (Hs1 : tasks s1 !! t = Some (Suspended (AwaitHookDecision (length (promises s))))
                ∧ held s1 = held s').
  { subst s1. unfold step. rewrite Hhung. cbn [handle]. unfold async. rewrite Hm.
    cbn [fst snd settle_call awaited]. rewrite Ht, decide_False by lia.
    set (s0 := set_tasks _ s').
    assert (Hr0 : is_resolved s0 (length (promises s)) = false).
    { unfold is_resolved. subst s0. cbn. rewrite HP, lookup_app_r, Nat.sub_diag by done. done. }
    rewrite Hr0. split.
    - apply pending_drain.
      + subst s0. cbn. rewrite HP, lookup_app_r, Nat.sub_diag by done. done.
      + subst s0 t. cbn. rewrite lookup_app_r, Nat.sub_diag by done. done.
    - unfold run_microtasks. by rewrite (drain_beside held) by apply held_beside. }
  destruct Hs1 as [Ht1 Hheld].
  pose proof (f_equal (λ x, x.2) Hheld : hung s1 = hung s') as Hhung1.
  apply held_inv in Hheld as (HP1 & _ & HQ1 & _).
  assert (Hget : JsMap.get requestId (messageHookRequests (this s1)) = Some (length (promises s))).
  { rewrite HQ1, HQ, JsMap_get_set. by rewrite decide_True. }
  assert (Hpend : promises s1 !! length (promises s) = Some Pending).
  { rewrite HP1, HP, lookup_app_r, Nat.sub_diag by done. done. }
  assert (Hhung1' : hung s1 = false) by congruence.
  set (v := VBool (if includes msgType "comm" then true else result)).
  assert (Hr : receiveMessage (IPyWidgets_MessageHookResult requestId parentId msgType result) s1
               = (Ret tt,
                  set_microtasks (microtasks s1 ++ waiters 0 (length (promises s)) (tasks s1))
                    (set_promises (<[length (promises s) := Resolved v]> (promises s1))
                       (set_this (set_messageHookRequests
                                    (JsMap.delete requestId (messageHookRequests (this s1)))
                                    (this s1)) s1)))).
  { cbn [receiveMessage]. unfold handleMessageHookResponse. rewrite bind_eq. cbn [gets].
    rewrite Hget. rewrite bind_eq. cbn [upd modify]. unfold resolve, modify. cbn.
    by rewrite Hpend. }
  assert (Hstep2 : s2 = run_microtasks
                          (set_microtasks (microtasks s1 ++ waiters 0 (length (promises s)) (tasks s1))
                    (set_promises (<[length (promises s) := Resolved v]> (promises s1))
                       (set_this (set_messageHookRequests
                                    (JsMap.delete requestId (messageHookRequests (this s1)))
                                    (this s1)) s1)))).
  { subst s2. unfold step. rewrite Hhung1'. cbn [handle]. unfold sync. by rewrite Hr. }
  split_and!.
  - subst s1. rewrite (iopub_turn posted msg _ s s' ltac:(done) Hhung Hm).
    by rewrite Hposted, Hparent.
  - done.
  - rewrite Hstep2.
    apply wakes_to with (k := AwaitHookDecision (length (promises s))).
    + done.
    + unfold is_resolved. cbn. rewrite list_lookup_insert_eq; [done|by eapply lookup_lt_Some].
    + cbn. apply elem_of_app. right.
      by apply (elem_of_waiters 0 _ (tasks s1) t (AwaitHookDecision (length (promises s)))).
    + intros s0 Hs0. cbn. rewrite Hs0. cbn.
      rewrite list_lookup_insert_eq; [done|by eapply lookup_lt_Some].
    + done.
  - rewrite Hstep2.
    rewrite (run_microtasks_beside (λ s, messageHookRequests (this s))) by done.
    cbn. apply JsMap_get_delete.
Qed.

(** A removal that was put off until message [last] is carried out when the
    hook of the kernel connection sees that message, and not before. *)
Theorem deferred_hook_removal hook msg h s c :
  hung s = false → this_kernel_connection s = Some c →
  header msg = Some h → is_Some (parent_header msg) →
  truthy (msg_id h) = true → hook ∈ messageHooks (this s) →
  let s1 := step s (Receive (IPyWidgets_RemoveMessageHook hook (Some (msg_id h)))) in
  let s2 := step s1 (IOPubHook msg) in
  (messageHooks (this s1) = messageHooks (this s) ∧ calls s1 = calls s
   ∧ JsMap.get (msg_id h) (pendingHookRemovals (this s1)) = Some hook)
  ∧ (messageHooks (this s2) = JsSet.delete hook (messageHooks (this s))
     ∧ calls s2 = calls s ++ [removeMessageHook_call c hook]
     ∧ JsMap.get (msg_id h) (pendingHookRemovals (this s2)) = None).
Proof.
  intros Hhung Hc Hh _ Hlast Hin s1 s2.
  assert (Hr : receiveMessage (IPyWidgets_RemoveMessageHook hook (Some (msg_id h))) s
               = (Ret tt, set_posted (posted s ++ [removed_hook hook])
                            (set_this (set_pendingHookRemovals
                                         (JsMap.set (msg_id h) hook (pendingHookRemovals (this s)))
                                         (this s)) s))).
  { cbn [receiveMessage]. unfold possiblyRemoveMessageHook. rewrite Hlast.
    unfold try_finally. cbn. done. }
  pose proof (step_receive hooking _ s _ hooking_beside Hhung Hr) as Hstep.
  fold s1 in Hstep.
  pose proof (f_equal (λ x, x.1.1.1.1.1.1) Hstep) as Hhooks.
  pose proof (f_equal (λ x, x.1.1.1.1.1.2) Hstep) as Hrem.
  pose proof (f_equal (λ x, x.1.1.1.1.2) Hstep) as Hcalls.
  pose proof (f_equal (λ x, x.1.1.2) Hstep) as Hkernel.
  pose proof (f_equal (λ x, x.1.2) Hstep) as Henv.
  pose proof (f_equal (λ x, x.2) Hstep) as Hhung1.
  cbn in Hhooks, Hrem, Hcalls, Hkernel, Henv, Hhung1.
  assert (Hget1 : JsMap.get (msg_id h) (pendingHookRemovals (this s1)) = Some hook).
  { rewrite Hrem, JsMap_get_set. by rewrite decide_True. }
  split; [done|].
  destruct (messageHookCallback_spec msg h s1 Hh) as (s' & Hm & _ & _ & _ & _ & _ & _ & _ & _ & Hremoval).
  rewrite Hget1 in Hremoval.
  assert (Hc1 : this_kernel_connection s1 = Some c).
  { unfold this_kernel_connection. by rewrite Hkernel, Henv. }
  rewrite Hc1, Hhooks in Hremoval.
  assert (Hhas : JsSet.has hook (messageHooks (this s)) = true) by by apply bool_decide_eq_true.
  rewrite Hhas in Hremoval. destruct Hremoval as (Hrem2 & Hhooks2 & Hcalls2).
  assert (Hhung1' : hung s1 = false) by congruence.
  subst s2.
  rewrite (iopub_turn (λ s, messageHooks (this s)) msg _ s1 s' ltac:(done) Hhung1' Hm).
  rewrite (iopub_turn calls msg _ s1 s' ltac:(done) Hhung1' Hm).
  rewrite (iopub_turn (λ s, pendingHookRemovals (this s)) msg _ s1 s' ltac:(done) Hhung1' Hm).
  split_and!; [done | congruence |]. rewrite Hrem2. apply JsMap_get_delete.
Qed.
End HookDecisions.

(** ** Comm targets *)

Section Targets.
Context `{Collaborators}.

(** Whether registering [targetName] goes to the kernel connection [c]: not
    for the predefined target, and not for a target another extension has
    registered on that connection. *)
Definition goes_to_kernel (s : St) (c : nat) (targetName : string) : bool :=
  negb (String.eqb targetName DefaultCommTarget) && negb (third_party_has s c targetName).

(** The calls [registerCommTargets] makes for [names] on the kernel
    connection of [IKernel] number [k]. *)
Definition kernel_registrations (s : St) (k : nat) (names : list string) : list KernelCall :=
  match session_kernel (env s) k with
  | Some c => registerCommTarget_call c <$> filter (λ n, Is_true (goes_to_kernel s c n)) names
  | None => []
  end.

Definition registering (targetName : string) : LogEntry :=
  log_trace ("Registering commtarget " +:+ targetName).

(** What [registerCommTargets] leaves alone. *)
Definition beside_targets (s : St) :=
  (pendingMessages (this s), kernel (this s), subscribedToKernelSocket (this s),
   disposed (this s),
   kernelCommTargets s, env s, posted s, hung s, tasks s, microtasks s, promises s).

Lemma JsSet_delete_head {A} `{EqDecision A} (x : A) l :
  x ∉ l → JsSet.delete x (x :: l) = l.
Proof.
  intros Hx. unfold JsSet.delete.
  rewrite filter_cons_False by (intros Hne; by apply Hne).
  apply filter_all, Forall_forall. by intros y Hy ->.
Qed.

Lemma JsSet_add_fresh {A} `{EqDecision A} (x : A) l :
  JsSet.has x l = false → JsSet.add x l = l ++ [x].
Proof. intros Hx. unfold JsSet.add. by rewrite Hx. Qed.

(** The one place where [registerCommTargets] talks to the kernel. *)
Lemma register_with_kernel k n s :
  (match session_kernel (env s) k with
   | Some c =>
       when (negb (String.eqb n DefaultCommTarget) && negb (third_party_has s c n))
         (call (registerCommTarget_call c n))
   | None => ret tt
   end) s
  = (Ret tt, set_calls (calls s ++ kernel_registrations s k [n]) s).
Proof.
  unfold kernel_registrations. destruct (session_kernel (env s) k) as [c|].
  - rewrite filter_cons, filter_nil. unfold goes_to_kernel.
    destruct (negb (n =? DefaultCommTarget)%string && negb (third_party_has s c n)); cbn.
    + by rewrite decide_True.
    + rewrite decide_False, app_nil_r by tauto. by destruct s.
  - rewrite app_nil_r. by destruct s.
Qed.

Lemma kernel_registrations_app s k l1 l2 :
  kernel_registrations s k (l1 ++ l2)
  = kernel_registrations s k l1 ++ kernel_registrations s k l2.
Proof.
  unfold kernel_registrations. destruct (session_kernel (env s) k); [|done].
  by rewrite filter_app, fmap_app.
Qed.

Lemma registerCommTargets_loop_registers k pending : ∀ rounds s,
  pendingTargetNames (this s) = pending →
  NoDup pending →
  Forall (λ n, truthy n = true) pending →
  (∀ n, n ∈ pending → n ∉ commTargetsRegistered (this s)) →
  length pending < rounds →
  ∃ s', registerCommTargets_loop rounds k s = (Ret tt, s')
        ∧ pendingTargetNames (this s') = []
        ∧ commTargetsRegistered (this s') = commTargetsRegistered (this s) ++ pending
        ∧ calls s' = calls s ++ kernel_registrations s k pending
        ∧ logged s' = logged s ++ (registering <$> pending)
        ∧ beside_targets s' = beside_targets s.
Proof.
  induction pending as [|n rest IH]; intros rounds s Hp Hnd Htruthy Hfresh Hrounds.
  - destruct rounds as [|rounds]; [cbn in Hrounds; lia|].
    cbn [registerCommTargets_loop]. rewrite bind_eq. cbn [gets]. rewrite Hp.
    exists s. unfold kernel_registrations. rewrite !app_nil_r.
    split_and!; try done. destruct (session_kernel (env s) k); by rewrite ?app_nil_r.
  - destruct rounds as [|rounds]; [cbn in Hrounds; lia|].
    apply NoDup_cons in Hnd as [Hn Hnd]. apply Forall_cons in Htruthy as [Hnt Htruthy].
    assert (Hhas : JsSet.has n (commTargetsRegistered (this s)) = false).
    { apply bool_decide_eq_false, Hfresh. by left. }
    cbn [registerCommTargets_loop]. rewrite bind_eq. cbn [gets]. rewrite Hp, Hnt, Hhas.
    cbn [negb]. rewrite bind_eq. cbn [logger modify]. rewrite bind_eq. cbn [upd modify].
    rewrite bind_eq. cbn [upd modify]. rewrite bind_eq. cbn [get]. rewrite bind_eq.
    rewrite register_with_kernel.
    match goal with |- context [registerCommTargets_loop rounds k ?st] => set (s2 := st) end.
    destruct (IH rounds s2) as (s' & Hloop & Hpend & Hreg & Hcalls & Hlog & Hside).
    + subst s2. cbn. rewrite Hp. by apply JsSet_delete_head.
    + done.
    + done.
    + intros m Hm. subst s2. cbn. rewrite (JsSet_add_fresh _ _ Hhas).
      rewrite elem_of_app, elem_of_cons, elem_of_nil.
      intros [Hr|[->|[]]]; [|done]. eapply Hfresh; [by right | done].
    + cbn in Hrounds. lia.
    + exists s'. split; [done|].
      change (kernel_registrations s2 k rest) with (kernel_registrations s k rest) in Hcalls.
      assert (Hreg2 : commTargetsRegistered (this s2) = commTargetsRegistered (this s) ++ [n]).
      { subst s2. cbn. by apply JsSet_add_fresh. }
      assert (Hcalls2 : calls s2 = calls s ++ kernel_registrations s k [n]) by reflexivity.
      assert (Hlog2 : logged s2 = logged s ++ [registering n]) by reflexivity.
      assert (Hside2 : beside_targets s2 = beside_targets s) by reflexivity.
      rewrite Hpend, Hreg, Hcalls, Hlog, Hside, Hreg2, Hcalls2, Hlog2, Hside2.
      rewrite <- !(assoc_L (++)), <- kernel_registrations_app. done.
Qed.

Lemma registerCommTargets_spec k s :
  NoDup (pendingTargetNames (this s)) →
  Forall (λ n, truthy n = true) (pendingTargetNames (this s)) →
  (∀ n, n ∈ pendingTargetNames (this s) → n ∉ commTargetsRegistered (this s)) →
  ∃ s', registerCommTargets k s = (Ret tt, s')
        ∧ pendingTargetNames (this s') = []
        ∧ commTargetsRegistered (this s')
          = commTargetsRegistered (this s) ++ pendingTargetNames (this s)
        ∧ calls s' = calls s ++ kernel_registrations s k (pendingTargetNames (this s))
        ∧ logged s' = logged s ++ (registering <$> pendingTargetNames (this s))
        ∧ beside_targets s' = beside_targets s.
Proof.
  intros Hnd Htruthy Hfresh. unfold registerCommTargets. rewrite bind_eq. cbn [gets].
  apply registerCommTargets_loop_registers; try done. lia.
Qed.

(** With no pending name registered yet, empty or repeated,
    [registerCommTargets] registers every pending name in order: the pending
    set ends up empty, the names are registered, and the kernel connection
    is asked once for each name that is neither the predefined target nor
    registered by another extension. *)
Theorem registerCommTargets_registers_all k s :
  NoDup (pendingTargetNames (this s)) →
  Forall (λ n, truthy n = true) (pendingTargetNames (this s)) →
  (∀ n, n ∈ pendingTargetNames (this s) → n ∉ commTargetsRegistered (this s)) →
  let r := registerCommTargets k s in
  r.1 = Ret tt
  ∧ pendingTargetNames (this r.2) = []
  ∧ commTargetsRegistered (this r.2)
    = commTargetsRegistered (this s) ++ pendingTargetNames (this s)
  ∧ calls r.2 = calls s ++ kernel_registrations s k (pendingTargetNames (this s)).
Proof.
  intros Hnd Htruthy Hfresh r. subst r. unfold registerCommTargets. rewrite bind_eq. cbn [gets].
  destruct (registerCommTargets_loop_registers k (pendingTargetNames (this s))
              (S (length (pendingTargetNames (this s)))) s)
    as (s' & -> & ? & ? & ? & _); try done. lia.
Qed.
End Targets.

Section Restarts.
Context `{Collaborators}.

Lemma delete_all {A} `{EqDecision A} (l : list A) : ∀ acc,
  (∀ x, x ∈ acc → x ∈ l) → foldl (λ a n, JsSet.delete n a) acc l = [].
Proof.
  induction l as [|n l IH]; intros acc Hacc; cbn.
  - destruct acc as [|x acc]; [done|].
    exfalso. apply (not_elem_of_nil x), Hacc. by left.
  - apply IH. intros x [Hne Hx]%list_elem_of_filter.
    apply Hacc in Hx. apply elem_of_cons in Hx as [->|Hx]; done.
Qed.

(** The loop of [handleKernelRestarts]: every registered name goes back to
    the pending names. *)
Lemma handleKernelRestarts_loop l : ∀ s,
  NoDup l → (∀ n, n ∈ l → n ∉ pendingTargetNames (this s)) →
  ∃ s', forEach l (λ targetName,
          upd (λ d, set_commTargetsRegistered
                      (JsSet.delete targetName (commTargetsRegistered d)) d) ;;
          upd (λ d, set_pendingTargetNames
                      (JsSet.add targetName (pendingTargetNames d)) d)) s
        = (Ret tt, s')
        ∧ commTargetsRegistered (this s')
          = foldl (λ a n, JsSet.delete n a) (commTargetsRegistered (this s)) l
        ∧ pendingTargetNames (this s') = pendingTargetNames (this s) ++ l
        ∧ calls s' = calls s ∧ logged s' = logged s
        ∧ beside_targets s' = beside_targets s.
Proof.
  induction l as [|n l IH]; intros s Hnd Hfresh.
  - exists s. by rewrite app_nil_r.
  - apply NoDup_cons in Hnd as [Hn Hnd].
    cbn [forEach]. rewrite bind_eq, bind_eq. cbn [upd modify].
    match goal with |- context [forEach l _ ?st] => set (s1 := st) end.
    assert (Hpend1 : pendingTargetNames (this s1) = pendingTargetNames (this s) ++ [n]).
    { subst s1. cbn. apply JsSet_add_fresh, bool_decide_eq_false, Hfresh. by left. }
    destruct (IH s1) as (s' & -> & Hreg & Hpend & Hcalls & Hlog & Hside); [done| |].
    + intros m Hm. rewrite Hpend1, elem_of_app, elem_of_cons, elem_of_nil.
      intros [Hp|[->|[]]]; [|done]. eapply Hfresh; [by right|done].
    + exists s'. split; [done|]. rewrite Hreg, Hpend, Hcalls, Hlog, Hside, Hpend1.
      by rewrite <- (assoc_L (++)).
Qed.

(** After a restart of the kernel the comm targets are registered again:
    [handleKernelRestarts] moves every registered name back to the pending
    names and registers them, so the same names are registered afterwards
    and the kernel connection has been asked again for each of them that
    goes to the kernel. *)
Theorem handleKernelRestarts_registers_again s k :
  kernel (this s) = Some k →
  has_session (env s) (Some k) = true →
  disposed (this s) = false →
  subscribedToKernelSocket (this s) = true →
  pendingTargetNames (this s) = [] →
  NoDup (commTargetsRegistered (this s)) →
  Forall (λ n, truthy n = true) (commTargetsRegistered (this s)) →
  let r := handleKernelRestarts s in
  r.1 = Ret tt
  ∧ commTargetsRegistered (this r.2) = commTargetsRegistered (this s)
  ∧ pendingTargetNames (this r.2) = []
  ∧ calls r.2 = calls s ++ kernel_registrations s k (commTargetsRegistered (this s)).
Proof.
  intros Hk Hsession Hdisposed Hsub Hpending Hnd Htruthy r. subst r.
  unfold handleKernelRestarts. rewrite bind_eq. cbn [get]. rewrite Hdisposed, Hk, Hsession.
  cbn [orb negb].
  destruct (bool_decide (commTargetsRegistered (this s) = [])) eqn:Hempty; cbn [orb].
  - apply bool_decide_eq_true in Hempty. rewrite Hempty. unfold kernel_registrations. cbn.
    destruct (session_kernel (env s) k); by rewrite app_nil_r.
  - destruct (handleKernelRestarts_loop (commTargetsRegistered (this s)) s)
      as (s1 & Hloop & Hreg & Hpend & Hcalls & Hlog & Hside); [done| |].
    { intros n _. rewrite Hpending. apply not_elem_of_nil. }
    rewrite bind_eq, Hloop. rewrite delete_all in Hreg by done. rewrite Hpending in Hpend.
    cbn in Hpend.
    assert (Hsub1 : subscribedToKernelSocket (this s1) = true).
    { rewrite <- Hsub. exact (f_equal (λ x, x.1.1.1.1.1.1.1.1.2) Hside). }
    assert (Henv1 : env s1 = env s) by exact (f_equal (λ x, x.1.1.1.1.1.2) Hside).
    assert (Htp1 : kernelCommTargets s1 = kernelCommTargets s)
      by exact (f_equal (λ x, x.1.1.1.1.1.1.2) Hside).
    assert (Hsubscribe : subscribeToKernelSocket k s1 = (Ret tt, s1)).
    { unfold subscribeToKernelSocket. rewrite bind_eq. cbn [get]. by rewrite Hsub1. }
    rewrite bind_eq, Hsubscribe.
    unfold registerCommTargets. rewrite bind_eq. cbn [gets].
    destruct (registerCommTargets_loop_registers k (commTargetsRegistered (this s))
                (S (length (pendingTargetNames (this s1)))) s1)
      as (s2 & -> & Hpend2 & Hreg2 & Hcalls2 & _); try done.
    + intros n _. rewrite Hreg. apply not_elem_of_nil.
    + rewrite Hpend. lia.
    + cbn. rewrite Hpend2, Hreg2, Hcalls2, Hreg, Hcalls. split_and!; try done.
      f_equal. unfold kernel_registrations, goes_to_kernel, third_party_has.
      by rewrite Henv1, Htp1.
Qed.
End Restarts.

Section Connect.
Context `{Collaborators}.

(** The dispatcher has no kernel yet, and kernel [k] of the provider has a
    session with connection [c], whose socket is [sock]. *)
Definition about_to_connect (s : St) (k c sock : nat) : Prop :=
  kernel (this s) = None
  ∧ kernelRestartHandlerAttached (this s) = false
  ∧ subscribedToKernelSocket (this s) = false
  ∧ kernelWasConnectedAtLeastOnce (this s) = false
  ∧ JsMap.get c (kernelCommTargets s) = None
  ∧ provider_get (env s) = Some k
  ∧ session (env s) k = Some (Some c)
  ∧ truthy (kid (connection (env s) c)) = true
  ∧ KernelSocketMap (env s) (kid (connection (env s) c)) = Some sock.

(** What a flush leaves alone. *)
Definition beside_queue (s : St) :=
  (pendingTargetNames (this s), commTargetsRegistered (this s), kernel (this s),
   kernelCommTargets s, env s, hung s).

(** A queue of payloads that all dispatch is sent whole. *)
Lemma sendLoop_sends_all protocol c queue :
  ∀ cs s,
    this_kernel_connection s = Some c →
    pendingMessages (this s) = queue →
    Forall2 (λ payload call, dispatch (env s) c protocol payload = Some call) queue cs →
    ∃ s', sendLoop protocol queue s = (Ret tt, s')
          ∧ pendingMessages (this s') = []
          ∧ calls s' = calls s ++ cs
          ∧ beside_queue s' = beside_queue s.
Proof.
  induction queue as [|payload rest IH]; intros cs s Hc Hq Hall.
  - apply Forall2_nil_inv_l in Hall as ->. exists s. cbn. by rewrite app_nil_r.
  - apply Forall2_cons_inv_l in Hall as (call & cs' & Hd & Hall & ->).
    cbn [sendLoop]. unfold try_catch. rewrite !bind_eq.
    rewrite (sendHead_sent _ _ _ _ _ Hc Hd). cbn [fst snd ret].
    set (s1 := set_this _ _).
    destruct (IH cs' s1) as (s' & Hs' & Hq' & Hcalls' & Hside'); try done.
    { subst s1. cbn. by rewrite Hq. }
    exists s'. split_and!; try done.
    rewrite Hcalls'. subst s1. cbn. by rewrite <- (assoc_L (++)).
Qed.

(** The kernel starts.  A dispatcher that was waiting for it takes the
    kernel of the provider, hooks the socket of its connection, registers
    every pending comm target and sends, in the order they were queued, the
    payloads that had to wait. *)
Theorem initialize_connects s k c sock cs :
  about_to_connect s k c sock →
  NoDup (pendingTargetNames (this s)) →
  Forall (λ n, truthy n = true) (pendingTargetNames (this s)) →
  (∀ n, n ∈ pendingTargetNames (this s) → n ∉ commTargetsRegistered (this s)) →
  let protocol := socket_protocol (env s) sock in
  Forall2 (λ payload call, dispatch (env s) c protocol payload = Some call)
    (pendingMessages (this s)) cs →
  ∃ s', initialize s = (Ret tt, s')
    ∧ kernel (this s') = Some k
    ∧ pendingTargetNames (this s') = []
    ∧ pendingMessages (this s') = []
    ∧ commTargetsRegistered (this s')
      = commTargetsRegistered (this s) ++ pendingTargetNames (this s)
    ∧ calls s'
      = calls s ++ [addReceiveHook sock protocol; addSendHook sock protocol]
        ++ (registerCommTarget_call c
              <$> filter (λ n, n ≠ DefaultCommTarget) (pendingTargetNames (this s)))
        ++ cs
    ∧ hung s' = hung s.
Proof.
  intros (Hk & Hatt & Hsub & Hwas & Htp & Hprov & Hsess & Hkid & Hsock) Hnd Htruthy Hfresh
    protocol Hall.
  unfold initialize, getKernel, subscribeToKernelSocket, subscribeToKernelSocketImpl,
    removeOldHandlers, attachToSocket, sendKernelOptions.
  assert (Hsome : is_Some (Some (Some c) : option (option nat))) by done.
  repeat (run_method; cbn -[registerCommTargets sendPendingMessages];
          unfold has_session, session_kernel, this_kernel_connection, JsMap.has;
          cbn -[registerCommTargets sendPendingMessages];
          rewrite ?Hk, ?Hatt, ?Hsub, ?Hwas, ?Hprov, ?Hsess, ?Hkid, ?Hsock, ?Htp,
            ?(bool_decide_true (is_Some (Some (Some c)))) by done).
  match goal with |- context [registerCommTargets k ?st] => set (s1 := st) end.
  destruct (registerCommTargets_spec k s1) as (s2 & -> & Hp2 & Hr2 & Hc2 & _ & Hside2);
    try done.
  assert (Hq2 : pendingMessages (this s2) = pendingMessages (this s))
    by exact (f_equal (λ x, x.1.1.1.1.1.1.1.1.1.1) Hside2).
  assert (Hk2 : kernel (this s2) = Some k)
    by exact (f_equal (λ x, x.1.1.1.1.1.1.1.1.1.2) Hside2).
  assert (He2 : env s2 = env s) by exact (f_equal (λ x, x.1.1.1.1.1.2) Hside2).
  assert (Hh2 : hung s2 = hung s) by exact (f_equal (λ x, x.1.1.1.2) Hside2).
  assert (Hsend : ∃ s3, sendPendingMessages (socket_protocol (env s) sock) s2 = (Ret tt, s3)
                        ∧ pendingMessages (this s3) = []
                        ∧ calls s3 = calls s2 ++ cs
                        ∧ beside_queue s3 = beside_queue s2).
  { unfold sendPendingMessages. rewrite bind_eq. cbn [get].
    assert (Hc2' : this_kernel_connection s2 = Some c).
    { unfold this_kernel_connection, session_kernel. by rewrite Hk2, He2, Hsess. }
    rewrite Hc2'.
    assert (Hproto : (if truthy (socket_protocol (env s) sock)
                      then socket_protocol (env s) sock
                      else protocol_of (env s2) (kid (connection (env s2) c))) = protocol).
    { rewrite He2. unfold protocol_of. rewrite Hsock. subst protocol.
      by destruct (truthy (socket_protocol (env s) sock)). }
    rewrite Hproto. apply sendLoop_sends_all with (c := c); [done | done |].
    rewrite He2, Hq2. exact Hall. }
  destruct Hsend as (s3 & -> & Hq3 & Hc3 & Hside3).
  pose proof (f_equal (λ x, x.1.1.1.1.1) Hside3 : pendingTargetNames (this s3) = _) as Hp3.
  pose proof (f_equal (λ x, x.1.1.1.1.2) Hside3 : commTargetsRegistered (this s3) = _) as Hr3.
  pose proof (f_equal (λ x, x.1.1.1.2) Hside3 : kernel (this s3) = _) as Hk3.
  pose proof (f_equal (λ x, x.2) Hside3 : hung s3 = _) as Hh3.
  cbn in Hp3, Hr3, Hk3, Hh3.
  set (s4 := set_socketChangeListener (Some (k, Some (kid (connection (env s) c)))) s3).
  destruct (registerCommTargets_spec k s4) as (s5 & Hs5 & Hp5 & Hr5 & Hc5 & _ & Hside5).
  { subst s4. cbn. rewrite Hp3, Hp2. constructor. }
  { subst s4. cbn. by rewrite Hp3, Hp2. }
  { subst s4. cbn. rewrite Hp3, Hp2. by intros n []%elem_of_nil. }
  exists s5. split; [exact Hs5|].
  assert (Hregs : kernel_registrations s1 k (pendingTargetNames (this s))
                  = registerCommTarget_call c
                      <$> filter (λ n, n ≠ DefaultCommTarget) (pendingTargetNames (this s))).
  { unfold kernel_registrations, session_kernel. subst s1. cbn. rewrite Hsess. f_equal.
    apply list_filter_iff. intros n. unfold goes_to_kernel, third_party_has. cbn.
    rewrite JsMap_get_set, decide_True by done. cbn.
    rewrite andb_true_r. destruct (String.eqb_spec n DefaultCommTarget); cbn; tauto. }
  change (pendingTargetNames (this s1)) with (pendingTargetNames (this s)) in Hr2, Hc2.
  change (commTargetsRegistered (this s1)) with (commTargetsRegistered (this s)) in Hr2.
  rewrite Hregs in Hc2.
  assert (Hp4 : pendingTargetNames (this s4) = []) by (subst s4; cbn; by rewrite Hp3).
  split_and!.
  - rewrite (f_equal (λ x, x.1.1.1.1.1.1.1.1.1.2) Hside5 : kernel (this s5) = _).
    subst s4. cbn. by rewrite Hk3.
  - done.
  - rewrite (f_equal (λ x, x.1.1.1.1.1.1.1.1.1.1) Hside5 : pendingMessages (this s5) = _).
    subst s4. cbn. exact Hq3.
  - rewrite Hr5, Hp4, app_nil_r. subst s4. cbn. by rewrite Hr3.
  - rewrite Hc5, Hp4. unfold kernel_registrations.
    destruct (session_kernel _ k); cbn [fmap list_fmap filter list_filter];
      rewrite ?app_nil_r; subst s4; cbn; rewrite Hc3, Hc2; subst s1; cbn;
      by rewrite <- !(assoc_L (++)).
  - rewrite (f_equal (λ x, x.1.1.1.2) Hside5 : hung s5 = _). subst s4. cbn. by rewrite Hh3.
Qed.
End Connect.

(** ** Comm targets of other extensions *)

Section ThirdParty.
Context `{Collaborators}.

Lemma step_sync {B} (π : St → B) ev m s s' o :
  beside_microtasks π → hung s = false →
  handle ev s = sync m s → m s = (o, s') → o ≠ Diverge →
  π (step s ev) = π s'.
Proof.
  intros Hπ Hhung Hev Hm Ho. unfold step. rewrite Hhung, Hev. unfold sync. rewrite Hm.
  rewrite run_microtasks_beside by done. by destruct o.
Qed.

(** Another extension registers a comm target on a kernel connection the
    dispatcher has attached to: the render surface is told, and the
    dispatcher will not register that target with the connection itself;
    once the extension has removed the target, it will again.  On a
    connection the dispatcher has not attached to, nothing happens. *)
Theorem third_party_comm_targets c n s :
  hung s = false →
  let s1 := step s (ThirdPartyRegister c n) in
  let s2 := step s1 (ThirdPartyRemove c n) in
  match JsMap.get c (kernelCommTargets s) with
  | Some targets =>
      posted s1 = posted s ++ [Post_registerCommTarget n]
      ∧ JsMap.get c (kernelCommTargets s1) = Some (JsSet.add n targets)
      ∧ goes_to_kernel s1 c n = false
      ∧ posted s2 = posted s1
      ∧ goes_to_kernel s2 c n = negb (String.eqb n DefaultCommTarget)
  | None =>
      posted s1 = posted s ∧ kernelCommTargets s1 = kernelCommTargets s
      ∧ posted s2 = posted s ∧ kernelCommTargets s2 = kernelCommTargets s
  end.
Proof.
  intros Hhung s1 s2.
  set (π := λ s : St, (posted s, kernelCommTargets s, hung s)).
  assert (Hπ : beside_microtasks π) by done.
  destruct (JsMap.get c (kernelCommTargets s)) as [targets|] eqn:Hget.
  - assert (Hm1 : registerCommTargetFor3rdPartyExtensions c n s
                  = (Ret tt, set_posted (posted s ++ [Post_registerCommTarget n])
                               (set_kernelCommTargets
                                  (JsMap.set c (JsSet.add n targets) (kernelCommTargets s)) s))).
    { unfold registerCommTargetFor3rdPartyExtensions. rewrite bind_eq. cbn [get].
      rewrite Hget. reflexivity. }
    pose proof (step_sync π (ThirdPartyRegister c n) _ s _ _ Hπ Hhung eq_refl Hm1 ltac:(done))
      as H1.
    fold s1 in H1.
    pose proof (f_equal (λ x, x.1.1) H1 : posted s1 = _) as Hp1.
    pose proof (f_equal (λ x, x.1.2) H1 : kernelCommTargets s1 = _) as Ht1.
    pose proof (f_equal (λ x, x.2) H1 : hung s1 = _) as Hh1. cbn in Hp1, Ht1, Hh1.
    assert (Hget1 : JsMap.get c (kernelCommTargets s1) = Some (JsSet.add n targets)).
    { rewrite Ht1, JsMap_get_set. by rewrite decide_True. }
    assert (Hm2 : removeCommTargetFor3rdPartyExtensions c n s1
                  = (Ret tt, set_kernelCommTargets
                               (JsMap.set c (JsSet.delete n (JsSet.add n targets))
                                  (kernelCommTargets s1)) s1)).
    { unfold removeCommTargetFor3rdPartyExtensions. rewrite bind_eq. cbn [get].
      rewrite Hget1. reflexivity. }
    assert (Hhung1 : hung s1 = false) by congruence.
    pose proof (step_sync π (ThirdPartyRemove c n) _ s1 _ _ Hπ Hhung1 eq_refl Hm2 ltac:(done))
      as H2.
    fold s2 in H2.
    pose proof (f_equal (λ x, x.1.1) H2 : posted s2 = _) as Hp2.
    pose proof (f_equal (λ x, x.1.2) H2 : kernelCommTargets s2 = _) as Ht2. cbn in Hp2, Ht2.
    split_and!; try done.
    + unfold goes_to_kernel, third_party_has. rewrite Hget1, JsSet_has_add.
      by rewrite andb_false_r.
    + unfold goes_to_kernel, third_party_has. rewrite Ht2, JsMap_get_set.
      rewrite decide_True by done. rewrite JsSet_has_delete. by rewrite andb_true_r.
  - assert (Hm1 : registerCommTargetFor3rdPartyExtensions c n s = (Ret tt, s)).
    { unfold registerCommTargetFor3rdPartyExtensions. rewrite bind_eq. cbn [get].
      rewrite Hget. reflexivity. }
    pose proof (step_sync π (ThirdPartyRegister c n) _ s _ _ Hπ Hhung eq_refl Hm1 ltac:(done))
      as H1.
    fold s1 in H1.
    pose proof (f_equal (λ x, x.1.1) H1 : posted s1 = _) as Hp1.
    pose proof (f_equal (λ x, x.1.2) H1 : kernelCommTargets s1 = _) as Ht1.
    pose proof (f_equal (λ x, x.2) H1 : hung s1 = _) as Hh1. cbn in Hp1, Ht1, Hh1.
    assert (Hm2 : removeCommTargetFor3rdPartyExtensions c n s1 = (Ret tt, s1)).
    { unfold removeCommTargetFor3rdPartyExtensions. rewrite bind_eq. cbn [get].
      rewrite Ht1, Hget. reflexivity. }
    assert (Hhung1 : hung s1 = false) by congruence.
    pose proof (step_sync π (ThirdPartyRemove c n) _ s1 _ _ Hπ Hhung1 eq_refl Hm2 ltac:(done))
      as H2.
    fold s2 in H2.
    pose proof (f_equal (λ x, x.1.1) H2 : posted s2 = _) as Hp2.
    pose proof (f_equal (λ x, x.1.2) H2 : kernelCommTargets s2 = _) as Ht2. cbn in Hp2, Ht2.
    split_and!; congruence.
Qed.

(** An empty comm target name stops the dispatcher for good.  The render
    surface asks for the target [""] while a kernel with a session is
    there: the name joins the pending names, the loop of
    [registerCommTargets] skips it without taking it out, and never ends;
    no event is handled after that. *)
Theorem empty_comm_target_name_hangs s k :
  hung s = false →
  kernel (this s) = Some k → has_session (env s) (Some k) = true →
  kernelRestartHandlerAttached (this s) = true →
  subscribedToKernelSocket (this s) = true →
  pendingTargetNames (this s) = [] →
  let s' := step s (Receive (IPyWidgets_registerCommTarget "")) in
  (registerCommTarget "" s).1 = Diverge
  ∧ hung s' = true
  ∧ pendingTargetNames (this s') = [""]
  ∧ ∀ evs, run s' evs = s'.
Proof.
  intros Hhung Hk Hsess Hatt Hsub Hpend s'.
  set (s1 := set_this (set_pendingTargetNames [""] (this s)) s).
  assert (Hspin : registerCommTargets k s1 = (Diverge, s1)).
  { by apply (registerCommTargets_spins k s1 []). }
  assert (Hm : registerCommTarget "" s = (Diverge, s1)).
  { unfold registerCommTarget, initialize, getKernel, subscribeToKernelSocket.
    rewrite bind_eq. cbn [upd modify]. rewrite Hpend.
    change (set_this (set_pendingTargetNames (JsSet.add "" []) (this s)) s) with s1.
    assert (Hk1 : kernel (this s1) = Some k) by done.
    assert (Hsess1 : has_session (env s1) (Some k) = true) by done.
    assert (Hatt1 : kernelRestartHandlerAttached (this s1) = true) by done.
    assert (Hsub1 : subscribedToKernelSocket (this s1) = true) by done.
    clearbody s1.
    run_method. cbn [fst snd]. rewrite Hk1, Hsess1. cbn [negb fst snd].
    rewrite Hk1, Hatt1. cbn [negb fst snd]. rewrite Hk1, Hsub1. cbn [orb fst snd].
    by rewrite Hspin. }
  assert (Hs' : (pendingTargetNames (this s'), hung s') = ([""], true)).
  { subst s'. unfold step. rewrite Hhung. cbn [handle receiveMessage]. unfold sync.
    rewrite Hm.
    by rewrite (run_microtasks_beside (λ s, (pendingTargetNames (this s), hung s))). }
  injection Hs' as Hp' Hh'. split_and!; [by rewrite Hm | done..|].
  induction evs as [|ev evs IH]; [done|]. cbn [run foldl]. unfold step at 2.
  rewrite Hh'. exact IH.
Qed.
End ThirdParty.

(** ** Disposal, again *)

Section Disposed.
Context `{Collaborators}.

(** [dispose] can be called again: the second call changes nothing. *)
Theorem dispose_idempotent s : dispose (dispose s).2 = (Ret tt, (dispose s).2).
Proof.
  destruct (dispose_loop (disposables (this s)) []
              (set_this (set_disposed true (this s)) s)) as (Ho & Hd & Hdis).
  { cbn. by rewrite app_nil_r. }
  assert (Hs : dispose s = forEach (disposables (this s))
                 (λ disposable, upd (λ d, set_disposables (tail (disposables d)) d) ;;
                                dispose_subscription disposable)
                 (set_this (set_disposed true (this s)) s)).
  { unfold dispose. rewrite bind_eq. cbn [upd modify]. rewrite bind_eq. cbn [gets]. done. }
  rewrite Hs. cbn in Hdis.
  destruct (forEach _ _ _) as [o s']. cbn in Ho, Hd, Hdis. subst o. cbn [snd].
  unfold dispose. rewrite bind_eq. cbn [upd modify]. rewrite bind_eq. cbn [gets].
  cbn [this set_this disposables set_disposed]. 
  replace (disposables (set_disposed true (this s'))) with (@nil Disposable) by (by rewrite <- Hd).
  cbn [forEach ret]. f_equal.
  destruct s' as [d ? ? ? ? ? ? ? ? ? ? ? ? ? ? ?]. cbn in *. f_equal.
  destruct d. cbn in *. by subst.
Qed.
End Disposed.

(** ** The outbound queue without a kernel *)

Section Waiting.
Context `{Collaborators}.

(** Without a kernel connection raw-send commands only queue: the payloads
    are pending in the order they came, and nothing is sent or logged. *)
Theorem payloads_wait_for_kernel payloads s :
  hung s = false → this_kernel_connection s = None →
  let s' := run s ((λ payload, Receive (IPyWidgets_msg payload)) <$> payloads) in
  pendingMessages (this s') = pendingMessages (this s) ++ payloads
  ∧ calls s' = calls s ∧ logged s' = logged s ∧ posted s' = posted s.
Proof.
  revert s. induction payloads as [|payload payloads IH]; intros s Hhung Hc s'.
  - subst s'. cbn. by rewrite app_nil_r.
  - subst s'. cbn [fmap list_fmap run foldl].
    set (π := λ s : St, (pendingMessages (this s), calls s, logged s, posted s,
                          kernel (this s), env s, hung s)).
    assert (Hstep : π (step s (Receive (IPyWidgets_msg payload)))
                    = π (set_this (set_pendingMessages (pendingMessages (this s) ++ [payload])
                                     (this s)) s)).
    { apply step_receive; [done|done|]. cbn [receiveMessage].
      by apply sendRawPayloadToKernelSocket_queues. }
    set (s1 := step s (Receive (IPyWidgets_msg payload))) in *.
    pose proof (f_equal (λ x, x.1.1.1.1.1.1) Hstep : pendingMessages (this s1) = _) as Hq.
    pose proof (f_equal (λ x, x.1.1.1.1.1.2) Hstep : calls s1 = _) as Hcalls.
    pose proof (f_equal (λ x, x.1.1.1.1.2) Hstep : logged s1 = _) as Hlog.
    pose proof (f_equal (λ x, x.1.1.1.2) Hstep : posted s1 = _) as Hposted.
    pose proof (f_equal (λ x, x.1.1.2) Hstep : kernel (this s1) = _) as Hk.
    pose proof (f_equal (λ x, x.1.2) Hstep : env s1 = _) as He.
    pose proof (f_equal (λ x, x.2) Hstep : hung s1 = _) as Hh.
    cbn in Hq, Hcalls, Hlog, Hposted, Hk, He, Hh.
    destruct (IH s1) as (Hq' & Hcalls' & Hlog' & Hposted').
    + congruence.
    + unfold this_kernel_connection in *. by rewrite Hk, He.
    + split_and!.
      * etrans; [exact Hq'|]. by rewrite Hq, <- (assoc_L (++)).
      * by etrans; [exact Hcalls'|].
      * by etrans; [exact Hlog'|].
      * by etrans; [exact Hposted'|].
Qed.



End Waiting.

(** ** Inbound frames, whatever they hold *)

Section Forwarding.
Context `{Collaborators}.

(** What the inspection of a message leaves alone. *)
Definition forwarding (s : St) :=
  (waitingMessageIds (this s), uuids s, posted s, displayed s, calls s, tasks s, hung s).

Local Hint Unfold forwarding : rel.

Lemma forwarding_createDeferred : keeps (same forwarding) createDeferred.
Proof. by intros s. Qed.
Local Hint Resolve forwarding_createDeferred : keeps.

Lemma forwarding_inspect promise message : keeps (same forwarding) (inspect promise message).
Proof. unfold inspect. keeps_go. Qed.

(** How a frame goes to the render surface, under the id [msgUuid]: a
    string as it is, unless the renderer does not mirror it; anything else
    serialized. *)
Definition forwarded (d : Raw) (msgUuid : string) : list PostMsg :=
  match d with
  | RString text =>
      if shouldMessageBeMirroredWithRenderer (inl text) then [Post_msg msgUuid text] else []
  | _ => [Post_binary_msg msgUuid (serializeDataViews [d])]
  end.

(** The display messages among the frames: only a string frame that the
    renderer mirrors and that mentions [display_data] is looked at. *)
Definition fired (protocol : string) (d : Raw) : list KMessage :=
  match d with
  | RString text =>
      if shouldMessageBeMirroredWithRenderer (inl text) && includes text "display_data"
      then match deserialize d protocol with
           | Some message => if isDisplayDataMsg message then [message] else []
           | None => []
           end
      else []
  | _ => []
  end.

Lemma announce_forwarding protocol d msgUuid s :
  let r := announce protocol d msgUuid s in
  forwarding r.2
  = (waitingMessageIds (this s), uuids s, posted s ++ forwarded d msgUuid,
     displayed s ++ fired protocol d, calls s, tasks s, hung s).
Proof.
  unfold announce, forwarded, fired, deserialize_or_throw. destruct d as [text| |]; cbn.
  - destruct (shouldMessageBeMirroredWithRenderer (inl text)); cbn;
      [|by rewrite !app_nil_r].
    destruct (includes text "display_data"); cbn; [|by rewrite !app_nil_r].
    destruct (deserialize (RString text) protocol) as [m|]; cbn; [|by rewrite !app_nil_r].
    destruct (isDisplayDataMsg m); cbn; by rewrite ?app_nil_r.
  - by rewrite !app_nil_r.
  - by rewrite !app_nil_r.
Qed.

Lemma onKernelSocketMessage_forwarding protocol d s :
  forwarding (onKernelSocketMessage protocol d s).2
  = (JsMap.set (generateUuid (uuids s)) (length (promises s)) (waitingMessageIds (this s)),
     S (uuids s), posted s ++ forwarded d (generateUuid (uuids s)),
     displayed s ++ fired protocol d, calls s, tasks s, hung s).
Proof.
  rewrite onKernelSocketMessage_blocks.
  rewrite bind_eq. cbn [uuid]. rewrite bind_eq. cbn [createDeferred]. rewrite bind_eq.
  cbn [upd modify]. rewrite bind_eq.
  match goal with |- context [announce protocol d ?u ?st] =>
    pose proof (announce_forwarding protocol d u st) as Ha;
    destruct (announce protocol d u st) as [o s1] end.
  cbn in Ha.
  assert (Htail : ∀ dm, same forwarding s1
            ((if mustDeserialize d
              then message <- match dm with
                              | Some message => ret message
                              | None => deserialize_or_throw d protocol
                              end ;;
                   inspect (length (promises s)) message
              else ret tt) s1).2).
  { intros dm. 
    assert (Hk : keeps (same forwarding)
              (if mustDeserialize d
               then message <- match dm with
                               | Some message => ret message
                               | None => deserialize_or_throw d protocol
                               end ;;
                    inspect (length (promises s)) message
               else ret tt)).
    { unfold deserialize_or_throw. keeps_go; apply forwarding_inspect. }
    apply Hk. }
  destruct o as [dm| | |]; cbn [fst snd]; try exact Ha.
  rewrite <- Ha. apply (Htail dm).
Qed.

(** Every inbound frame gets a waiting message of its own, under a fresh
    id, and goes to the render surface under that id, unless it is a string
    the renderer does not mirror: however the frame is handled afterwards,
    and also when its deserialization throws. *)
Theorem inbound_frames_are_forwarded protocol d s :
  let r := onKernelSocketMessage protocol d s in
  let msgUuid := generateUuid (uuids s) in
  waitingMessageIds (this r.2)
  = JsMap.set msgUuid (length (promises s)) (waitingMessageIds (this s))
  ∧ uuids r.2 = S (uuids s)
  ∧ posted r.2 = posted s ++ forwarded d msgUuid
  ∧ calls r.2 = calls s.
Proof.
  intros r msgUuid. pose proof (onKernelSocketMessage_forwarding protocol d s) as Hf.
  fold r in Hf. split_and!;
    [exact (f_equal (λ x, x.1.1.1.1.1.1) Hf) | exact (f_equal (λ x, x.1.1.1.1.1.2) Hf)
    | exact (f_equal (λ x, x.1.1.1.1.2) Hf) | exact (f_equal (λ x, x.1.1.2) Hf)].
Qed.

(** [onDisplayMessage] fires for a frame exactly when the frame is a string
    that the renderer mirrors, mentions [display_data] and deserializes to a
    display message; a binary frame never fires it. *)
Theorem display_messages_are_fired protocol d s :
  displayed (onKernelSocketMessage protocol d s).2 = displayed s ++ fired protocol d.
Proof. exact (f_equal (λ x, x.1.1.1.2) (onKernelSocketMessage_forwarding protocol d s)). Qed.

(** A string frame that mentions none of the words the dispatcher looks for
    is never deserialized: its handling ends in the turn it arrives, with
    nothing but the waiting message and the forwarding done. *)
Theorem plain_frames_are_not_deserialized protocol text s :
  mustDeserialize (RString text) = false → includes text "display_data" = false →
  hung s = false →
  let r := onKernelSocketMessage protocol (RString text) s in
  r.1 = Ret tt
  ∧ promises r.2 = promises s ++ [Pending]
  ∧ (outputWidgetIds (this r.2), fullHandleMessage (this r.2), isUsingIPyWidgets (this r.2))
    = (outputWidgetIds (this s), fullHandleMessage (this s), isUsingIPyWidgets (this s))
  ∧ tasks (step s (SocketReceive protocol (RString text))) !! length (tasks s)
    = Some (Returned VUndefined).
Proof.
  intros Hmust Hdd Hhung r.
  assert (Hr : r.1 = Ret tt ∧ promises r.2 = promises s ++ [Pending]
               ∧ (outputWidgetIds (this r.2), fullHandleMessage (this r.2),
                  isUsingIPyWidgets (this r.2))
                 = (outputWidgetIds (this s), fullHandleMessage (this s),
                    isUsingIPyWidgets (this s))
               ∧ tasks r.2 = tasks s).
  { subst r. unfold onKernelSocketMessage. rewrite Hmust. cbn. rewrite Hdd.
    by destruct (shouldMessageBeMirroredWithRenderer (inl text)). }
  destruct Hr as (Hret & HP & Hsame & Ht). split_and!; try done.
  by destruct (returning_turn protocol (RString text) s Hhung Hret Ht) as [-> _].
Qed.
End Forwarding.

(** ** What the send hook leaves alone *)

Section Unmirrored.
Context `{Collaborators}.

(** A message the send hook does not mirror: not on the shell channel, or
    not an [execute_request], or one the mirroring predicate rejects. *)
Definition not_mirrored (msg : KMessage) : Prop :=
  channel msg ≠ Some "shell"
  ∨ ∃ h, header msg = Some h
         ∧ (msg_type h ≠ "execute_request"
            ∨ shouldMessageBeMirroredWithRenderer (inr msg) = false).

(** A frame the send hook passes over: a string that does not mention both
    [shell] and [execute_request], which is not even parsed, or a frame
    whose message is not mirrored. *)
Definition passed_over (protocol : string) (d : Raw) : Prop :=
  (∃ text, d = RString text
           ∧ includes text "shell" && includes text "execute_request" = false)
  ∨ ∃ msg, outbound_message protocol d = Some msg ∧ not_mirrored msg.

(** The send hook does nothing at all for a frame it passes over: it
    returns in the turn of the send, with the state as it was. *)
Theorem mirrorSend_ignores_other_frames protocol d s :
  passed_over protocol d → mirrorSend protocol d s = (Ret tt, s).
Proof.
  intros [(text & -> & Hno)|(msg & Hmsg & Hnot)].
  - unfold mirrorSend. by rewrite Hno.
  - assert (Hbody : mirrorShellExecute msg s = (Ret tt, s)).
    { unfold mirrorShellExecute. destruct Hnot as [Hch|(h & Hh & Hnot)].
      - by rewrite bool_decide_false.
      - rewrite Hh. destruct (bool_decide (channel msg = Some "shell")); [|done].
        destruct Hnot as [Hty|Hrej].
        + destruct (String.eqb_spec (msg_type h) "execute_request"); done.
        + rewrite Hrej. cbn. by destruct (String.eqb (msg_type h) "execute_request"). }
    unfold mirrorSend, outbound_message in *. destruct d as [text| |].
    + destruct (includes text "shell" && includes text "execute_request"); [|done].
      unfold JSON_parse_or_throw. rewrite bind_eq, Hmsg. cbn. exact Hbody.
    + unfold try_catch, deserialize_or_throw. rewrite bind_eq, Hmsg. cbn. by rewrite Hbody.
    + unfold try_catch, deserialize_or_throw. rewrite bind_eq, Hmsg. cbn. by rewrite Hbody.
Qed.
End Unmirrored.

(** ** Malformed frames, on both ways *)

Section MalformedFrames.
Context `{Collaborators}.

(** C8: what the code does with a frame that cannot be read.
    - On its way out and not a string, the frame is dropped: [mirrorSend]
      catches the error of [deserialize], logs it and returns, with nothing
      else changed.
    - On its way out and a string that mentions [shell] and
      [execute_request], [JSON.parse] is outside any [try]: [mirrorSend]
      throws, nothing is logged, and the promise of the hook is rejected.
    - On its way in, nothing catches the error of [deserialize], whether
      the frame is read because of what it mentions or as a mirrored
      [display_data] string: [onKernelSocketMessage] throws once the frame
      has its waiting message and has been forwarded to the render surface,
      no error is logged, and the promise of the call is rejected.  The
      dispatcher goes on: the turn ends and nothing hangs. *)
Theorem malformed_frame_handling protocol d s :
  (is_string d = false → deserialize d protocol = None →
     mirrorSend protocol d s
     = (Ret tt, set_logged (logged s ++ [log_error "Failed to mirror message to kernel"
                                           (Some DeserializeError)]) s))
  ∧ (∀ text, d = RString text →
       includes text "shell" = true → includes text "execute_request" = true →
       JSON_parse text = None → hung s = false →
       mirrorSend protocol d s = (Throw SyntaxError, s)
       ∧ tasks (step s (SocketSend protocol d)) !! length (tasks s)
         = Some (Rejected SyntaxError))
  ∧ (deserialized_inbound d → deserialize d protocol = None → hung s = false →
       let r := onKernelSocketMessage protocol d s in
       let s' := step s (SocketReceive protocol d) in
       r.1 = Throw DeserializeError
       ∧ logged r.2 = logged s ++ console_note d
       ∧ posted r.2 = posted s ++ forwarded d (generateUuid (uuids s))
       ∧ waitingMessageIds (this r.2)
         = JsMap.set (generateUuid (uuids s)) (length (promises s))
             (waitingMessageIds (this s))
       ∧ tasks s' !! length (tasks s) = Some (Rejected DeserializeError)
       ∧ hung s' = false).
Proof.
  split_and!.
  - intros Hbin Hd. unfold mirrorSend, deserialize_or_throw.
    destruct d as [text| |]; [done|..]; cbn; by rewrite Hd.
  - intros text -> Hshell Hexec Hparse Hhung.
    destruct (mirrorSend_string_throws protocol text s Hshell Hexec Hparse) as [Hthrows Htasks].
    split; [done|]. unfold step. rewrite Hhung. cbn [handle]. unfold run_microtasks.
    apply finished_drain; [|done]. rewrite Htasks.
    rewrite lookup_app_r by done. by rewrite Nat.sub_diag.
  - intros Hdes Hd Hhung r s'.
    destruct (onKernelSocketMessage_malformed protocol d s Hdes Hd) as (Hr & Hlog & HW & Ht & Hh).
    pose proof (f_equal (λ x, x.1.1.1.1.2) (onKernelSocketMessage_forwarding protocol d s)
                : posted (onKernelSocketMessage protocol d s).2 = _) as Hposted.
    fold r in Hr, Hlog, HW, Ht, Hh, Hposted. split_and!; [done..| |].
    + subst s'. unfold step. rewrite Hhung. cbn [handle].
      unfold async, void, run_microtasks. rewrite bind_eq. fold r.
      destruct r as [o s1]. cbn in Hr, Ht. subst o.
      cbn [fst snd settle_call]. rewrite Ht, decide_False by lia.
      apply finished_drain; [|done]. cbn. rewrite lookup_app_r by done. by rewrite Nat.sub_diag.
    + subst s'. unfold step. rewrite Hhung. cbn [handle].
      unfold async, void, run_microtasks. rewrite bind_eq. fold r.
      destruct r as [o s1]. cbn in Hr, Hh. subst o.
      cbn [fst snd settle_call]. rewrite hung_drain. cbn. congruence.
Qed.
End MalformedFrames.

(** ** What is never undone *)

(** The marks of the dispatcher's life are set once: nothing clears
    [disposed], [subscribedToKernelSocket], [kernelWasConnectedAtLeastOnce]
    or [kernelRestartHandlerAttached], nothing subscribes to
    [onDidStartKernel] again, and a dispatcher that hangs stays so. *)
Definition marks_kept (s s' : St) : Prop :=
  (disposed (this s) = true → disposed (this s') = true)
  ∧ (subscribedToKernelSocket (this s) = true → subscribedToKernelSocket (this s') = true)
  ∧ (kernelWasConnectedAtLeastOnce (this s) = true
     → kernelWasConnectedAtLeastOnce (this s') = true)
  ∧ (kernelRestartHandlerAttached (this s) = true
     → kernelRestartHandlerAttached (this s') = true)
  ∧ (startKernelListener s = false → startKernelListener s' = false)
  ∧ (hung s = true → hung s' = true).

(** The subscription to [onDidStartKernel] is among the disposables for as
    long as it is listened to. *)
Definition start_listener_held (s : St) : Prop :=
  startKernelListener s = true → onDidStartKernel_subscription ∈ disposables (this s).

(** So is the subscription to [onRestarted]. *)
Definition restart_listener_held (s : St) : Prop :=
  ∀ k, restartedListener s = Some k → onRestarted_subscription k ∈ disposables (this s).

Definition lifecycle (s s' : St) : Prop :=
  marks_kept s s'
  ∧ (start_listener_held s → start_listener_held s')
  ∧ (restart_listener_held s → restart_listener_held s').

#[export] Instance marks_kept_preorder : PreOrder marks_kept.
Proof.
  split; [intros s; unfold marks_kept; tauto|].
  intros s1 s2 s3. unfold marks_kept. tauto.
Qed.

#[export] Instance lifecycle_preorder : PreOrder lifecycle.
Proof.
  split; [intros s; split; [reflexivity | tauto]|].
  intros s1 s2 s3 [H12 K12] [H23 K23]. split; [by etrans | tauto].
Qed.

#[export] Hint Unfold lifecycle marks_kept start_listener_held restart_listener_held : rel.

Section Lifecycle.
Context `{Collaborators}.

#[local] Hint Extern 1 (_ ∧ _) =>
  solve [intuition (first [reflexivity | assumption
                          | apply elem_of_app; left; eauto; fail | eauto; fail])]
  : core.

Lemma lifecycle_resolve p v : keeps lifecycle (resolve p v).
Proof. unfold resolve. keeps_go. Qed.
Hint Resolve lifecycle_resolve : keeps.

Lemma lifecycle_raisePostMessage m : keeps lifecycle (raisePostMessage m).
Proof. unfold raisePostMessage. keeps_go. Qed.
Hint Resolve lifecycle_raisePostMessage : keeps.

Lemma lifecycle_logger l : keeps lifecycle (logger l).
Proof. unfold logger. keeps_go. Qed.
Hint Resolve lifecycle_logger : keeps.

Lemma lifecycle_call c : keeps lifecycle (call c).
Proof. unfold call. keeps_go. Qed.
Hint Resolve lifecycle_call : keeps.

Lemma lifecycle_createDeferred : keeps lifecycle createDeferred.
Proof.
  intros s. unfold lifecycle, marks_kept, start_listener_held, restart_listener_held.
  cbn. tauto.
Qed.
Hint Resolve lifecycle_createDeferred : keeps.

Lemma lifecycle_uuid : keeps lifecycle uuid.
Proof.
  intros s. unfold lifecycle, marks_kept, start_listener_held, restart_listener_held.
  cbn. tauto.
Qed.
Hint Resolve lifecycle_uuid : keeps.

Lemma lifecycle_sendKernelOptions protocol : keeps lifecycle (sendKernelOptions protocol).
Proof. unfold sendKernelOptions. keeps_go. Qed.
Hint Resolve lifecycle_sendKernelOptions : keeps.

Lemma lifecycle_sendHead protocol message : keeps lifecycle (sendHead protocol message).
Proof. unfold sendHead, JSON_parse_or_throw, deserialize_or_throw. keeps_go. Qed.
Hint Resolve lifecycle_sendHead : keeps.

Lemma lifecycle_sendLoop protocol queue : keeps lifecycle (sendLoop protocol queue).
Proof. induction queue as [|message rest IH]; cbn [sendLoop]; keeps_go. Qed.
Hint Resolve lifecycle_sendLoop : keeps.

Lemma lifecycle_sendPendingMessages protocol : keeps lifecycle (sendPendingMessages protocol).
Proof. unfold sendPendingMessages. keeps_go. Qed.
Hint Resolve lifecycle_sendPendingMessages : keeps.

Lemma lifecycle_registerCommTargets_loop rounds k :
  keeps lifecycle (registerCommTargets_loop rounds k).
Proof. induction rounds as [|rounds IH]; cbn [registerCommTargets_loop]; keeps_go. Qed.
Hint Resolve lifecycle_registerCommTargets_loop : keeps.

Lemma lifecycle_registerCommTargets k : keeps lifecycle (registerCommTargets k).
Proof. unfold registerCommTargets. keeps_go. Qed.
Hint Resolve lifecycle_registerCommTargets : keeps.

Lemma lifecycle_subscribeToKernelSocketImpl k old :
  keeps lifecycle (subscribeToKernelSocketImpl k old).
Proof.
  unfold subscribeToKernelSocketImpl, removeOldHandlers, discardOnRestart, attachToSocket,
    sendRestartKernel.
  keeps_go.
Qed.
Hint Resolve lifecycle_subscribeToKernelSocketImpl : keeps.

Lemma lifecycle_subscribeToKernelSocket k : keeps lifecycle (subscribeToKernelSocket k).
Proof. unfold subscribeToKernelSocket. keeps_go. Qed.
Hint Resolve lifecycle_subscribeToKernelSocket : keeps.

Lemma lifecycle_onDidKernelSocketChange : keeps lifecycle onDidKernelSocketChange.
Proof. unfold onDidKernelSocketChange. keeps_go. Qed.

(** [getKernel] subscribes to [onRestarted] and keeps the subscription in
    one statement. *)
Lemma lifecycle_getKernel : keeps lifecycle getKernel.
Proof.
  intros s. unfold getKernel. crunch; run_method; cbn [fst snd].
  all: unfold lifecycle, marks_kept, start_listener_held, restart_listener_held; cbn.
  all: split_and!; try tauto; try (intros; apply elem_of_app; left; eauto; fail).
  all: intros _ k' [= <-]; apply elem_of_app; right; by left.
Qed.
Hint Resolve lifecycle_getKernel : keeps.

Lemma lifecycle_initialize : keeps lifecycle initialize.
Proof. unfold initialize. keeps_go. Qed.
Hint Resolve lifecycle_initialize : keeps.

Lemma lifecycle_handleKernelRestarts : keeps lifecycle handleKernelRestarts.
Proof. unfold handleKernelRestarts. keeps_go. Qed.

Lemma marks_dispose : keeps marks_kept dispose.
Proof. unfold dispose, dispose_subscription. keeps_go. Qed.

Lemma dispose_loop_releases l s :
  let r := forEach l (λ disposable,
             upd (λ d, set_disposables (tail (disposables d)) d) ;;
             dispose_subscription disposable) s in
  (onDidStartKernel_subscription ∈ l ∨ startKernelListener s = false) →
  startKernelListener r.2 = false.
Proof.
  revert s. induction l as [|x l IH]; intros s r Hin.
  - destruct Hin as [[]%elem_of_nil|Hs]. exact Hs.
  - subst r. cbn [forEach]. rewrite !bind_eq. cbn [upd modify].
    set (s1 := set_this _ s).
    destruct x as [|k].
    + cbn [dispose_subscription modify]. apply IH. by right.
    + cbn [dispose_subscription modify]. apply IH.
      destruct Hin as [Hin|Hs]; [|by right].
      apply elem_of_cons in Hin as [Hin|Hin]; [done | by left].
Qed.

(** [dispose] ends the subscription to [onDidStartKernel]. *)
Lemma dispose_releases s :
  start_listener_held s →
  startKernelListener (dispose s).2 = false ∧ disposed (this (dispose s).2) = true.
Proof.
  intros Hheld. split.
  - unfold dispose. rewrite !bind_eq. cbn [upd modify gets].
    apply dispose_loop_releases. cbn.
    destruct (startKernelListener s) eqn:Hs; [left; by apply Hheld | by right].
  - unfold dispose. rewrite !bind_eq. cbn [upd modify gets].
    refine (proj2 (proj2 (dispose_loop (disposables (this s)) []
                            (set_this (set_disposed true (this s)) s) _))).
    cbn. by rewrite app_nil_r.
Qed.

Lemma dispose_loop_releases_restart l s :
  let r := forEach l (λ disposable,
             upd (λ d, set_disposables (tail (disposables d)) d) ;;
             dispose_subscription disposable) s in
  ((∃ k, onRestarted_subscription k ∈ l) ∨ restartedListener s = None) →
  restartedListener r.2 = None.
Proof.
  revert s. induction l as [|x l IH]; intros s r Hin.
  - destruct Hin as [[k []%elem_of_nil]|Hs]. exact Hs.
  - subst r. cbn [forEach]. rewrite !bind_eq. cbn [upd modify].
    set (s1 := set_this _ s).
    destruct x as [|k].
    + cbn [dispose_subscription modify]. apply IH.
      destruct Hin as [[k Hin]|Hs]; [|by right].
      apply elem_of_cons in Hin as [Hin|Hin]; [done | left; by exists k].
    + cbn [dispose_subscription modify]. apply IH. by right.
Qed.

(** [dispose] ends the subscription to [onRestarted]. *)
Lemma dispose_releases_restart s :
  restart_listener_held s → restartedListener (dispose s).2 = None.
Proof.
  intros Hheld. unfold dispose. rewrite !bind_eq. cbn [upd modify gets].
  apply dispose_loop_releases_restart. cbn.
  destruct (restartedListener s) as [k|] eqn:Hs; [left; exists k; by apply Hheld | by right].
Qed.

Lemma lifecycle_dispose : keeps lifecycle dispose.
Proof.
  intros s. split; [apply marks_dispose|]. split.
  - intros Hheld Hl. destruct (dispose_releases s Hheld) as [Hf _]. congruence.
  - intros Hheld k Hk. rewrite (dispose_releases_restart s Hheld) in Hk. done.
Qed.

Lemma lifecycle_removeMessageHook msgId : keeps lifecycle (removeMessageHook msgId).
Proof. unfold removeMessageHook. keeps_go. Qed.
Hint Resolve lifecycle_removeMessageHook : keeps.

Lemma lifecycle_messageHookCallback msg : keeps lifecycle (messageHookCallback msg).
Proof. unfold messageHookCallback. keeps_go. Qed.

Lemma lifecycle_onKernelSocketMessage protocol d :
  keeps lifecycle (onKernelSocketMessage protocol d).
Proof. unfold onKernelSocketMessage, deserialize_or_throw. keeps_go. Qed.

Lemma lifecycle_mirrorSend protocol d : keeps lifecycle (mirrorSend protocol d).
Proof.
  unfold mirrorSend, mirrorShellExecute, mirrorExecuteRequest, JSON_parse_or_throw,
    deserialize_or_throw.
  keeps_go.
Qed.

Lemma lifecycle_receiveMessage message : keeps lifecycle (receiveMessage message).
Proof.
  unfold receiveMessage, sendRawPayloadToKernelSocket, registerCommTarget,
    registerMessageHook, possiblyRemoveMessageHook, handleMessageHookResponse,
    iopubMessageHandled, onKernelSocketResponse.
  keeps_go.
Qed.

Lemma lifecycle_continue k : keeps lifecycle (continue k).
Proof. unfold continue. keeps_go. Qed.

Lemma lifecycle_settle_call t (o : Outcome PValue * St) s :
  lifecycle s o.2 → lifecycle s (settle_call t o).
Proof.
  destruct o as [[v|e|k|] s'];
    unfold lifecycle, marks_kept, start_listener_held, restart_listener_held; cbn;
    repeat case_match; cbn; tauto.
Qed.

Lemma lifecycle_async (m : M PValue) s : keeps lifecycle m → lifecycle s (async m s).
Proof. intros Hm. unfold async. apply lifecycle_settle_call, Hm. Qed.

Lemma lifecycle_void (m : M unit) : keeps lifecycle m → keeps lifecycle (void m).
Proof. intros Hm. unfold void. keeps_go. Qed.

Lemma lifecycle_handle ev s : lifecycle s (handle ev s).
Proof.
  assert (Hhung : ∀ s, lifecycle s (set_hung true s))
    by (intros ?; unfold lifecycle, marks_kept, start_listener_held, restart_listener_held;
        cbn; tauto).
  destruct ev; cbn [handle]; repeat case_match; try reflexivity;
    try (apply keeps_sync; [apply _| |exact Hhung]);
    try apply lifecycle_async; try apply lifecycle_void;
    auto using lifecycle_receiveMessage, lifecycle_initialize,
      lifecycle_onDidKernelSocketChange, lifecycle_handleKernelRestarts,
      lifecycle_onKernelSocketMessage, lifecycle_mirrorSend, lifecycle_messageHookCallback,
      lifecycle_dispose.
  - keeps_go.
  - unfold registerCommTargetFor3rdPartyExtensions. keeps_go.
  - unfold removeCommTargetFor3rdPartyExtensions. keeps_go.
  - unfold lifecycle, marks_kept, start_listener_held, restart_listener_held. cbn. tauto.
Qed.

Lemma lifecycle_resume t s : lifecycle s (resume t s).
Proof.
  unfold resume. repeat case_match; try reflexivity.
  apply lifecycle_settle_call, lifecycle_continue.
Qed.

Lemma lifecycle_drain fuel s : lifecycle s (drain fuel s).
Proof.
  revert s. induction fuel as [|fuel IH]; intros s; cbn [drain]; [reflexivity|].
  case_match; [reflexivity|]. etrans; [|apply IH]. etrans; [|apply lifecycle_resume].
  unfold lifecycle, marks_kept, start_listener_held, restart_listener_held. cbn. tauto.
Qed.

Lemma lifecycle_step s ev : lifecycle s (step s ev).
Proof.
  unfold step, run_microtasks. case_match; [reflexivity|].
  etrans; [apply lifecycle_handle | apply lifecycle_drain].
Qed.

Lemma lifecycle_run evs s : lifecycle s (run s evs).
Proof.
  revert s. induction evs as [|ev evs IH]; intros s; [reflexivity|].
  etrans; [apply lifecycle_step | apply IH].
Qed.

(** The dispatcher subscribes to a kernel socket once in its life.  Once
    [subscribeToKernelSocket] has gone through, whatever happens later, a
    further call returns at once, for whichever kernel: the socket of a
    kernel that replaces the first is reached only through the
    socket-change listener of the first session. *)
Theorem subscribes_only_once s evs k :
  subscribedToKernelSocket (this s) = true →
  let s' := run s evs in
  subscribedToKernelSocket (this s') = true
  ∧ subscribeToKernelSocket k s' = (Ret tt, s').
Proof.
  intros Hsub s'. destruct (lifecycle_run evs s) as ((_ & Hs & _) & _).
  fold s' in Hs. specialize (Hs Hsub). split; [done|].
  unfold subscribeToKernelSocket. rewrite bind_eq. cbn [get]. by rewrite Hs.
Qed.

Lemma run_app s evs evs' : run s (evs ++ evs') = run (run s evs) evs'.
Proof. apply foldl_app. Qed.

(** A disposed dispatcher has done with kernels.  In any life of a
    dispatcher, from its construction on, once [dispose] has run the
    dispatcher stays disposed, it no longer listens to [onDidStartKernel],
    so that a kernel that starts is not noticed, and a kernel restart is
    answered by [handleKernelRestarts] returning at once. *)
Theorem disposed_dispatcher_ignores_kernels e evs evs' :
  let s := run (constructed e) (evs ++ Dispose :: evs') in
  hung s = false →
  disposed (this s) = true
  ∧ startKernelListener s = false
  ∧ (∀ thisDocument, handle (KernelStarted thisDocument) s = s)
  ∧ handleKernelRestarts s = (Ret tt, s).
Proof.
  intros s Hhung. subst s. rewrite run_app in *. cbn [run foldl] in *.
  fold (run (step (run (constructed e) evs) Dispose) evs') in *.
  set (s0 := run (constructed e) evs) in *.
  set (s1 := step s0 Dispose) in *. set (s := run s1 evs') in *.
  destruct (lifecycle_run evs (constructed e)) as (_ & Hheld & _). fold s0 in Hheld.
  assert (Hheld0 : start_listener_held s0).
  { apply Hheld. intros _. cbn. by left. }
  destruct (lifecycle_run evs' s1) as [(Hd & _ & _ & _ & Hl & Hh) _]. fold s in Hd, Hl, Hh.
  assert (Hh1 : hung s1 = false) by (destruct (hung s1); [by rewrite Hh in Hhung | done]).
  destruct (lifecycle_step s0 Dispose) as [(_ & _ & _ & _ & _ & Hh0) _]. fold s1 in Hh0.
  assert (Hhung0 : hung s0 = false) by (destruct (hung s0); [by rewrite Hh0 in Hh1 | done]).
  destruct (dispose_releases s0 Hheld0) as [Hrel Hdis].
  assert (H1 : disposed (this s1) = true ∧ startKernelListener s1 = false).
  { subst s1. unfold step. rewrite Hhung0. unfold run_microtasks.
    match goal with |- context [drain ?f ?st] =>
      destruct (lifecycle_drain f st) as [(Hd' & _ & _ & _ & Hl' & _) _] end.
    cbn [handle] in *. unfold sync in *.
    destruct (dispose s0) as [[[]| | |] s2]; cbn in *; auto. }
  destruct H1 as [Hd1 Hl1]. specialize (Hd Hd1). specialize (Hl Hl1).
  split_and!; try done.
  - intros b. cbn [handle]. by rewrite Hl.
  - unfold handleKernelRestarts. rewrite bind_eq. cbn [get]. by rewrite Hd.
Qed.
End Lifecycle.

(** ** Disposal and the waits *)


Section DisposalAndWaits.
Context `{Collaborators}.





End DisposalAndWaits.

(** ** The hooks follow the socket *)

Section SocketChange.
Context `{Collaborators}.

(** What the discarding of a restart leaves alone. *)
Definition wiring (s : St) :=
  (calls s, kernelSocketHandlers (this s), pendingTargetNames (this s), kernel (this s),
   kernelCommTargets s, socketChangeListener s, env s, hung s).

Local Hint Unfold wiring : rel.

Lemma wiring_resolve p v : keeps (same wiring) (resolve p v).
Proof. unfold resolve. keeps_go. Qed.
Local Hint Resolve wiring_resolve : keeps.

Lemma wiring_discardOnRestart : keeps (same wiring) discardOnRestart.
Proof. unfold discardOnRestart, sendRestartKernel, raisePostMessage. keeps_go. Qed.

Lemma registerCommTargets_nothing_pending k s :
  pendingTargetNames (this s) = [] → registerCommTargets k s = (Ret tt, s).
Proof.
  intros Hp. unfold registerCommTargets. rewrite bind_eq. cbn [gets]. rewrite Hp.
  cbn [length registerCommTargets_loop]. rewrite bind_eq. cbn [gets]. by rewrite Hp.
Qed.

Lemma subscribeToKernelSocketImpl_moves_hooks s k old oldSocket oldProtocol c newSocket :
  truthy old = true →
  KernelSocketMap (env s) old = Some oldSocket →
  JsMap.get oldSocket (kernelSocketHandlers (this s)) = Some oldProtocol →
  kernelWasConnectedAtLeastOnce (this s) = true →
  pendingTargetNames (this s) = [] →
  session_kernel (env s) k = Some c →
  truthy (kid (connection (env s) c)) = true →
  KernelSocketMap (env s) (kid (connection (env s) c)) = Some newSocket →
  let protocol := socket_protocol (env s) newSocket in
  ∃ s', subscribeToKernelSocketImpl k (Some old) s = (Ret tt, s')
        ∧ calls s' = calls s ++ [removeReceiveHook oldSocket oldProtocol;
                                 removeSendHook oldSocket oldProtocol;
                                 addReceiveHook newSocket protocol;
                                 addSendHook newSocket protocol]
        ∧ kernelSocketHandlers (this s')
          = JsMap.set newSocket protocol (kernelSocketHandlers (this s))
        ∧ socketChangeListener s' = socketChangeListener s
        ∧ env s' = env s ∧ hung s' = hung s.
Proof.
  intros Hold Hsock Hhandlers Hwas Hpend Hsess Hkid Hnew protocol.
  unfold subscribeToKernelSocketImpl. rewrite bind_eq.
  set (s1 := set_calls ((calls s ++ [removeReceiveHook oldSocket oldProtocol])
                        ++ [removeSendHook oldSocket oldProtocol])
               (set_calls (calls s ++ [removeReceiveHook oldSocket oldProtocol]) s)).
  assert (Hrem : removeOldHandlers (Some old) s = (Ret tt, s1)).
  { unfold removeOldHandlers. rewrite bind_eq. cbn [get]. rewrite Hold, Hsock, Hhandlers.
    reflexivity. }
  rewrite Hrem. rewrite bind_eq. cbn [gets].
  change (kernelWasConnectedAtLeastOnce (this s1)) with (kernelWasConnectedAtLeastOnce (this s)).
  rewrite Hwas. cbn [when]. rewrite bind_eq.
  destruct (discardOnRestart_discards s1) as (Hret & Hq & _).
  pose proof (wiring_discardOnRestart s1) as Hw. unfold same in Hw.
  destruct (discardOnRestart s1) as [o s2]. cbn [fst snd] in Hret, Hq, Hw. subst o.
  pose proof (f_equal (λ x, x.1.1.1.1.1.1.1) Hw : calls s2 = _) as Hc2.
  pose proof (f_equal (λ x, x.1.1.1.1.1.1.2) Hw : kernelSocketHandlers (this s2) = _) as Hh2.
  pose proof (f_equal (λ x, x.1.1.1.1.1.2) Hw : pendingTargetNames (this s2) = _) as Hp2.
  pose proof (f_equal (λ x, x.1.1.2) Hw : socketChangeListener s2 = _) as Hl2.
  pose proof (f_equal (λ x, x.1.2) Hw : env s2 = _) as He2.
  pose proof (f_equal (λ x, x.2) Hw : hung s2 = _) as Hhung2.
  cbn in Hc2, Hh2, Hp2, Hl2, He2, Hhung2.
  rewrite bind_eq. cbn [get]. rewrite He2, Hsess, Hkid, Hnew.
  unfold attachToSocket. rewrite bind_eq. cbn [modify].
  set (s2' := if JsMap.has c (kernelCommTargets s2) then s2 else _).
  assert (Hs2' : (calls s2', this s2', socketChangeListener s2', env s2', hung s2')
                 = (calls s2, this s2, socketChangeListener s2, env s2, hung s2)).
  { subst s2'. by destruct (JsMap.has c (kernelCommTargets s2)). }
  clearbody s2'. injection Hs2' as Hc2' Ht2' Hl2' He2' Hhung2'.
  rewrite bind_eq. cbn [upd modify]. rewrite bind_eq.
  cbn [gets]. rewrite bind_eq. cbn [call modify]. rewrite bind_eq. cbn [call modify].
  rewrite bind_eq. cbn [upd modify]. rewrite bind_eq.
  match goal with |- context [sendKernelOptions ?p ?st] => set (s3 := st) end.
  assert (Hproto : socket_protocol (env s3) newSocket = protocol).
  { subst s3 protocol. cbn. by rewrite He2', He2. }
  assert (Hc3 : calls s3 = (calls s2' ++ [addReceiveHook newSocket protocol])
                           ++ [addSendHook newSocket protocol]).
  { subst s3 protocol. cbn. by rewrite He2', He2. }
  assert (Hh3 : kernelSocketHandlers (this s3)
                = JsMap.set newSocket protocol (kernelSocketHandlers (this s2'))).
  { subst s3 protocol. cbn. by rewrite He2', He2. }
  assert (Hp3 : pendingTargetNames (this s3) = pendingTargetNames (this s2')) by done.
  assert (Hq3 : pendingMessages (this s3) = pendingMessages (this s2')) by done.
  assert (Hl3 : socketChangeListener s3 = socketChangeListener s2') by done.
  assert (He3 : env s3 = env s2') by done.
  assert (Hhung3 : hung s3 = hung s2') by done.
  match goal with |- context [sendKernelOptions ?p s3] =>
    change p with (socket_protocol (env s3) newSocket) end.
  clearbody s3.
  assert (Hopt : ∃ s4, sendKernelOptions (socket_protocol (env s3) newSocket) s3 = (Ret tt, s4)
                       ∧ (calls s4, this s4, socketChangeListener s4, env s4, hung s4)
                         = (calls s3, this s3, socketChangeListener s3, env s3, hung s3)).
  { unfold sendKernelOptions. rewrite bind_eq. cbn [get].
    destruct (this_kernel_connection s3); eexists; split; reflexivity. }
  destruct Hopt as (s4 & Hs4 & Hside). injection Hside as Hc4 Ht4 Hl4 He4 Hhung4.
  rewrite Hs4. rewrite bind_eq.
  rewrite (registerCommTargets_nothing_pending k s4)
    by (by rewrite Ht4, Hp3, Ht2', Hp2).
  rewrite sendPendingMessages_empty by (by rewrite Ht4, Hq3, Ht2').
  exists s4. split; [done|]. split_and!.
  - rewrite Hc4, Hc3, Hc2', Hc2. by rewrite <- !(assoc_L (++)).
  - rewrite Ht4, Hh3, Ht2', Hh2. done.
  - by rewrite Hl4, Hl3, Hl2', Hl2.
  - by rewrite He4, He3, He2', He2.
  - by rewrite Hhung4, Hhung3, Hhung2', Hhung2.
Qed.

(** The kernel socket changes after the dispatcher has connected.  The
    hooks are taken off the socket they were on, with the handlers that
    were added to it, and put on the socket the kernel has now; the
    listener remembers the id of the kernel for the next change. *)
Theorem socket_change_moves_hooks s k old oldSocket oldProtocol c newSocket :
  hung s = false →
  socketChangeListener s = Some (k, Some old) →
  truthy old = true →
  KernelSocketMap (env s) old = Some oldSocket →
  JsMap.get oldSocket (kernelSocketHandlers (this s)) = Some oldProtocol →
  kernelWasConnectedAtLeastOnce (this s) = true →
  pendingTargetNames (this s) = [] →
  session_kernel (env s) k = Some c →
  truthy (kid (connection (env s) c)) = true →
  KernelSocketMap (env s) (kid (connection (env s) c)) = Some newSocket →
  let s' := step s KernelSocketChanged in
  let protocol := socket_protocol (env s) newSocket in
  calls s' = calls s ++ [removeReceiveHook oldSocket oldProtocol;
                         removeSendHook oldSocket oldProtocol;
                         addReceiveHook newSocket protocol;
                         addSendHook newSocket protocol]
  ∧ JsMap.get newSocket (kernelSocketHandlers (this s')) = Some protocol
  ∧ socketChangeListener s' = Some (k, Some (kid (connection (env s) c))).
Proof.
  intros Hhung Hl Hold Hsock Hhandlers Hwas Hpend Hsess Hkid Hnew s' protocol.
  destruct (subscribeToKernelSocketImpl_moves_hooks s k old oldSocket oldProtocol c newSocket)
    as (s1 & Hs1 & Hc1 & Hh1 & Hl1 & He1 & Hhung1); try done.
  set (π := λ s : St, (calls s, kernelSocketHandlers (this s), socketChangeListener s)).
  assert (Hm : onDidKernelSocketChange s
               = (Ret tt, set_socketChangeListener
                            (Some (k, Some (kid (connection (env s) c)))) s1)).
  { unfold onDidKernelSocketChange. rewrite bind_eq. cbn [get]. rewrite Hl, bind_eq, Hs1.
    cbn [modify]. by rewrite Hsess. }
  assert (Hstep : π s' = π (set_socketChangeListener
                              (Some (k, Some (kid (connection (env s) c)))) s1)).
  { subst s'. unfold step. rewrite Hhung. cbn [handle]. unfold sync. rewrite Hm.
    by rewrite (run_microtasks_beside π). }
  injection Hstep as Hc' Hh' Hl'. split_and!.
  - by rewrite Hc', Hc1.
  - rewrite Hh', Hh1, JsMap_get_set. by rewrite decide_True.
  - exact Hl'.
Qed.
End SocketChange.

(** * The further properties at work *)

Module Scenario.

(** A message on the iopub channel, with id [i], sent in reply to the
    request [parent]. *)
Definition reply (parent i : string) : KMessage :=
  {| channel := Some "iopub"; header := Some {| msg_type := "stream"; msg_id := i |};
     parent_header := Some {| msg_type := "execute_request"; msg_id := parent |};
     content := None; buffers := [] |}.

(** The dispatcher of [Example.started] once the render surface has hooked
    the replies to [e1]. *)
Definition with_hook : St := run Example.started [Receive (IPyWidgets_RegisterMessageHook "e1")].

(** A dispatcher without a kernel that was handed a payload, at the moment
    the kernel appears. *)
Definition waiting : St :=
  run (constructed Example.idle)
    [Receive (IPyWidgets_msg (RString "shell execute_request e1"));
     World (Example.live (λ _, false))].

(** [Example.started] with two more comm targets asked for. *)
Definition asked : St :=
  set_this (set_pendingTargetNames ["foo"; "bar"] (this Example.started)) Example.started.

End Scenario.

(** Three requests for two hooks: [m1] is registered once. *)
Lemma message_hooks_registered_once_witness :
  let s := Example.started in
  let ids := ["m1"; "m2"; "m1"] in
  let s' := run s ((λ i, Receive (IPyWidgets_RegisterMessageHook i)) <$> ids) in
  ∃ new,
    messageHooks (this s') = messageHooks (this s) ++ new
    ∧ calls s' = calls s ++ (registerMessageHook_call 0 <$> new)
    ∧ posted s' = posted s ++ (registered_hook <$> ids)
    ∧ NoDup new
    ∧ ∀ i, i ∈ new ↔ i ∈ ids ∧ i ∉ messageHooks (this s).
Proof.
  intros s ids.
  assert (Hhung : hung s = false) by (vm_compute; reflexivity).
  assert (Hc : this_kernel_connection s = Some 0) by (vm_compute; reflexivity).
  exact (message_hooks_registered_once ids s 0 Hhung Hc).
Defined.

(** A hook is registered and removed again. *)
Lemma hook_register_remove_round_trip_witness :
  let s := Example.started in
  let s' := run s [Receive (IPyWidgets_RegisterMessageHook "m1");
                   Receive (IPyWidgets_RemoveMessageHook "m1" None)] in
  messageHooks (this s') = messageHooks (this s)
  ∧ calls s' = calls s ++ [registerMessageHook_call 0 "m1"; removeMessageHook_call 0 "m1"]
  ∧ posted s' = posted s ++ [registered_hook "m1"; removed_hook "m1"].
Proof.
  intros s.
  assert (Hhung : hung s = false) by (vm_compute; reflexivity).
  assert (Hc : this_kernel_connection s = Some 0) by (vm_compute; reflexivity).
  assert (Hnew : "m1" ∉ messageHooks (this s)).
  { assert (Hnone : messageHooks (this s) = []) by (vm_compute; reflexivity).
    rewrite Hnone. apply not_elem_of_nil. }
  exact (hook_register_remove_round_trip "m1" s 0 Hhung Hc Hnew).
Defined.

(** A reply to [e1] while nothing is hooked. *)
Lemma unhooked_message_proceeds_witness :
  let s := Example.started in
  let s' := step s (IOPubHook (Scenario.reply "e1" "r1")) in
  tasks s' !! length (tasks s) = Some (Returned (VBool true))
  ∧ posted s' = posted s
  ∧ messageHookRequests (this s') = messageHookRequests (this s).
Proof.
  intros s.
  assert (Hhung : hung s = false) by (vm_compute; reflexivity).
  assert (Hno : JsSet.has "e1" (messageHooks (this s)) = false) by (vm_compute; reflexivity).
  exact (unhooked_message_proceeds (Scenario.reply "e1" "r1")
           {| msg_type := "stream"; msg_id := "r1" |}
           {| msg_type := "execute_request"; msg_id := "e1" |} s Hhung eq_refl eq_refl Hno).
Defined.

(** A reply to the hooked [e1]: the render surface is asked and says no. *)
Lemma hook_decision_round_trip_witness :
  let s := Scenario.with_hook in
  let msg := Scenario.reply "e1" "r1" in
  let requestId := generateUuid (uuids s) in
  let t := length (tasks s) in
  let s1 := step s (IOPubHook msg) in
  let s2 := step s1 (Receive (IPyWidgets_MessageHookResult requestId "e1" "stream" false)) in
  posted s1 = posted s ++ [Post_MessageHookCall requestId (Some "e1") msg]
  ∧ tasks s1 !! t = Some (Suspended (AwaitHookDecision (length (promises s))))
  ∧ tasks s2 !! t = Some (Returned (VBool false))
  ∧ JsMap.get requestId (messageHookRequests (this s2)) = None.
Proof.
  intros s msg.
  assert (Hhung : hung s = false) by (vm_compute; reflexivity).
  assert (Hyes : JsSet.has "e1" (messageHooks (this s)) = true) by (vm_compute; reflexivity).
  exact (hook_decision_round_trip msg {| msg_type := "stream"; msg_id := "r1" |}
           {| msg_type := "execute_request"; msg_id := "e1" |} s "e1" "stream" false
           Hhung eq_refl eq_refl Hyes).
Defined.

(** The hook of [e1] is to be removed after message [r1]. *)
Lemma deferred_hook_removal_witness :
  let s := Scenario.with_hook in
  let s1 := step s (Receive (IPyWidgets_RemoveMessageHook "e1" (Some "r1"))) in
  let s2 := step s1 (IOPubHook (Scenario.reply "e1" "r1")) in
  (messageHooks (this s1) = messageHooks (this s) ∧ calls s1 = calls s
   ∧ JsMap.get "r1" (pendingHookRemovals (this s1)) = Some "e1")
  ∧ (messageHooks (this s2) = JsSet.delete "e1" (messageHooks (this s))
     ∧ calls s2 = calls s ++ [removeMessageHook_call 0 "e1"]
     ∧ JsMap.get "r1" (pendingHookRemovals (this s2)) = None).
Proof.
  intros s.
  assert (Hhung : hung s = false) by (vm_compute; reflexivity).
  assert (Hc : this_kernel_connection s = Some 0) by (vm_compute; reflexivity).
  assert (Hin : "e1" ∈ messageHooks (this s)).
  { assert (Hhooks : messageHooks (this s) = ["e1"]) by (vm_compute; reflexivity).
    rewrite Hhooks. apply list_elem_of_here. }
  exact (deferred_hook_removal "e1" (Scenario.reply "e1" "r1")
           {| msg_type := "stream"; msg_id := "r1" |} s 0 Hhung Hc eq_refl
           (ex_intro _ _ eq_refl) eq_refl Hin).
Defined.

(** Two pending names are registered, with the kernel as well. *)
Lemma registerCommTargets_registers_all_witness :
  let s := Scenario.asked in
  let r := registerCommTargets 0 s in
  r.1 = Ret tt
  ∧ pendingTargetNames (this r.2) = []
  ∧ commTargetsRegistered (this r.2)
    = commTargetsRegistered (this s) ++ pendingTargetNames (this s)
  ∧ calls r.2 = calls s ++ kernel_registrations s 0 (pendingTargetNames (this s)).
Proof.
  intros s.
  assert (Hp : pendingTargetNames (this s) = ["foo"; "bar"]) by reflexivity.
  assert (Hr : commTargetsRegistered (this s) = ["jupyter.widget"])
    by (vm_compute; reflexivity).
  assert (Hnd : NoDup (pendingTargetNames (this s))).
  { rewrite Hp. apply (bool_decide_unpack _). vm_compute. exact I. }
  assert (Htruthy : Forall (λ n, truthy n = true) (pendingTargetNames (this s))).
  { rewrite Hp. apply Forall_cons; split; [reflexivity|].
    apply Forall_cons; split; [reflexivity|]. by apply Forall_nil_2. }
  assert (Hfresh : ∀ n, n ∈ pendingTargetNames (this s) → n ∉ commTargetsRegistered (this s)).
  { rewrite Hp, Hr. apply Forall_forall. apply (bool_decide_unpack _). vm_compute. exact I. }
  exact (registerCommTargets_registers_all 0 s Hnd Htruthy Hfresh).
Defined.

(** The kernel of [Example.started] restarts. *)
Lemma handleKernelRestarts_registers_again_witness :
  let s := Example.started in
  let r := handleKernelRestarts s in
  r.1 = Ret tt
  ∧ commTargetsRegistered (this r.2) = commTargetsRegistered (this s)
  ∧ pendingTargetNames (this r.2) = []
  ∧ calls r.2 = calls s ++ kernel_registrations s 0 (commTargetsRegistered (this s)).
Proof.
  intros s.
  assert (Hk : kernel (this s) = Some 0) by (vm_compute; reflexivity).
  assert (Hsess : has_session (env s) (Some 0) = true) by (vm_compute; reflexivity).
  assert (Hd : disposed (this s) = false) by (vm_compute; reflexivity).
  assert (Hsub : subscribedToKernelSocket (this s) = true) by (vm_compute; reflexivity).
  assert (Hp : pendingTargetNames (this s) = []) by (vm_compute; reflexivity).
  assert (Hr : commTargetsRegistered (this s) = ["jupyter.widget"])
    by (vm_compute; reflexivity).
  assert (Hnd : NoDup (commTargetsRegistered (this s))).
  { rewrite Hr. apply (bool_decide_unpack _). vm_compute. exact I. }
  assert (Htruthy : Forall (λ n, truthy n = true) (commTargetsRegistered (this s))).
  { rewrite Hr. apply Forall_cons; split; [reflexivity|]. by apply Forall_nil_2. }
  exact (handleKernelRestarts_registers_again s 0 Hk Hsess Hd Hsub Hp Hnd Htruthy).
Defined.

(** The kernel starts for a dispatcher that holds one payload. *)
Lemma initialize_connects_witness :
  let s := Scenario.waiting in
  let protocol := "v1.kernel.websocket.jupyter.org" in
  ∃ s', initialize s = (Ret tt, s')
    ∧ kernel (this s') = Some 0
    ∧ pendingTargetNames (this s') = []
    ∧ pendingMessages (this s') = []
    ∧ commTargetsRegistered (this s') = ["jupyter.widget"]
    ∧ calls s' = [addReceiveHook 0 protocol; addSendHook 0 protocol;
                  sendShellMessage 0 (Example.execute "e1")]
    ∧ hung s' = false.
Proof.
  intros s protocol.
  assert (Hp : pendingTargetNames (this s) = ["jupyter.widget"]) by (vm_compute; reflexivity).
  assert (Hr : commTargetsRegistered (this s) = []) by (vm_compute; reflexivity).
  assert (Hq : pendingMessages (this s) = [RString "shell execute_request e1"])
    by (vm_compute; reflexivity).
  assert (Hready : about_to_connect s 0 0 0).
  { repeat split; vm_compute; reflexivity. }
  assert (Hnd : NoDup (pendingTargetNames (this s))).
  { rewrite Hp. apply (bool_decide_unpack _). vm_compute. exact I. }
  assert (Htruthy : Forall (λ n, truthy n = true) (pendingTargetNames (this s))).
  { rewrite Hp. apply Forall_cons; split; [reflexivity|]. by apply Forall_nil_2. }
  assert (Hfresh : ∀ n, n ∈ pendingTargetNames (this s) → n ∉ commTargetsRegistered (this s)).
  { rewrite Hr. intros n _. apply not_elem_of_nil. }
  assert (Hall : Forall2 (λ payload call,
                            dispatch (env s) 0 (socket_protocol (env s) 0) payload = Some call)
                   (pendingMessages (this s)) [sendShellMessage 0 (Example.execute "e1")]).
  { rewrite Hq. constructor; [vm_compute; reflexivity | constructor]. }
  destruct (initialize_connects s 0 0 0 _ Hready Hnd Htruthy Hfresh Hall)
    as (s' & Hs' & Hk' & Hp' & Hq' & Hr' & Hc' & Hh').
  exists s'. split_and!; [exact Hs' | exact Hk' | exact Hp' | exact Hq' | | |].
  - rewrite Hr', Hr, Hp. reflexivity.
  - rewrite Hc', Hp. vm_compute. reflexivity.
  - rewrite Hh'. vm_compute. reflexivity.
Defined.

(** Another extension registers [foo] on the connection of
    [Example.started], and removes it. *)
Lemma third_party_comm_targets_witness :
  let s := Example.started in
  let s1 := step s (ThirdPartyRegister 0 "foo") in
  let s2 := step s1 (ThirdPartyRemove 0 "foo") in
  posted s1 = posted s ++ [Post_registerCommTarget "foo"]
  ∧ JsMap.get 0 (kernelCommTargets s1) = Some ["foo"]
  ∧ goes_to_kernel s1 0 "foo" = false
  ∧ posted s2 = posted s1
  ∧ goes_to_kernel s2 0 "foo" = true.
Proof.
  intros s.
  assert (Hhung : hung s = false) by (vm_compute; reflexivity).
  assert (Hget : JsMap.get 0 (kernelCommTargets s) = Some []) by (vm_compute; reflexivity).
  pose proof (third_party_comm_targets 0 "foo" s Hhung) as Hthird.
  cbv zeta in Hthird. rewrite Hget in Hthird. exact Hthird.
Defined.

(** The render surface asks for the comm target with the empty name. *)
Lemma empty_comm_target_name_hangs_witness :
  let s := Example.started in
  let s' := step s (Receive (IPyWidgets_registerCommTarget "")) in
  (registerCommTarget "" s).1 = Diverge
  ∧ hung s' = true
  ∧ pendingTargetNames (this s') = [""]
  ∧ ∀ evs, run s' evs = s'.
Proof.
  intros s.
  assert (Hhung : hung s = false) by (vm_compute; reflexivity).
  assert (Hk : kernel (this s) = Some 0) by (vm_compute; reflexivity).
  assert (Hsess : has_session (env s) (Some 0) = true) by (vm_compute; reflexivity).
  assert (Hatt : kernelRestartHandlerAttached (this s) = true) by (vm_compute; reflexivity).
  assert (Hsub : subscribedToKernelSocket (this s) = true) by (vm_compute; reflexivity).
  assert (Hp : pendingTargetNames (this s) = []) by (vm_compute; reflexivity).
  exact (empty_comm_target_name_hangs s 0 Hhung Hk Hsess Hatt Hsub Hp).
Defined.

(** Two payloads for a dispatcher that has no kernel. *)
Lemma payloads_wait_for_kernel_witness :
  let s := constructed Example.idle in
  let payloads := [RString "shell execute_request e1"; RString "control comm_msg k1"] in
  let s' := run s ((λ payload, Receive (IPyWidgets_msg payload)) <$> payloads) in
  pendingMessages (this s') = pendingMessages (this s) ++ payloads
  ∧ calls s' = calls s ∧ logged s' = logged s ∧ posted s' = posted s.
Proof.
  intros s payloads.
  exact (payloads_wait_for_kernel payloads s eq_refl eq_refl).
Defined.

(** A frame that is none of the dispatcher's business. *)
Lemma plain_frames_are_not_deserialized_witness :
  let s := Example.started in
  let text := "iopub status idle" in
  let r := onKernelSocketMessage "" (RString text) s in
  r.1 = Ret tt
  ∧ promises r.2 = promises s ++ [Pending]
  ∧ (outputWidgetIds (this r.2), fullHandleMessage (this r.2), isUsingIPyWidgets (this r.2))
    = (outputWidgetIds (this s), fullHandleMessage (this s), isUsingIPyWidgets (this s))
  ∧ tasks (step s (SocketReceive "" (RString text))) !! length (tasks s)
    = Some (Returned VUndefined).
Proof.
  intros s text.
  assert (Hhung : hung s = false) by (vm_compute; reflexivity).
  assert (Hmust : mustDeserialize (RString text) = false) by (vm_compute; reflexivity).
  assert (Hdd : includes text "display_data" = false) by (vm_compute; reflexivity).
  exact (plain_frames_are_not_deserialized "" text s Hmust Hdd Hhung).
Defined.

(** A control message goes by the send hook. *)
Lemma mirrorSend_ignores_other_frames_witness :
  mirrorSend "" (RString "control comm_msg k1") Example.started = (Ret tt, Example.started).
Proof.
  apply mirrorSend_ignores_other_frames.
  left. exists "control comm_msg k1". split; [reflexivity | vm_compute; reflexivity].
Defined.

(** The kernel of [Example.started] is disposed of and another starts. *)
Lemma subscribes_only_once_witness :
  let s' := run Example.started [KernelDisposed 0; KernelStarted true] in
  subscribedToKernelSocket (this s') = true
  ∧ subscribeToKernelSocket 1 s' = (Ret tt, s').
Proof.
  assert (Hsub : subscribedToKernelSocket (this Example.started) = true)
    by (vm_compute; reflexivity).
  exact (subscribes_only_once Example.started [KernelDisposed 0; KernelStarted true] 1 Hsub).
Defined.

(** A dispatcher is disposed of once its kernel has started; the kernel
    restarts later. *)
Lemma disposed_dispatcher_ignores_kernels_witness :
  let s := run (constructed (Example.live (λ _, false)))
             ([KernelStarted true] ++ Dispose :: [KernelRestarted 0]) in
  disposed (this s) = true
  ∧ startKernelListener s = false
  ∧ (∀ thisDocument, handle (KernelStarted thisDocument) s = s)
  ∧ handleKernelRestarts s = (Ret tt, s).
Proof.
  intros s.
  assert (Hhung : hung s = false) by (vm_compute; reflexivity).
  exact (disposed_dispatcher_ignores_kernels (Example.live (λ _, false))
           [KernelStarted true] [KernelRestarted 0] Hhung).
Defined.

(** The socket of [Example.started] changes. *)
Lemma socket_change_moves_hooks_witness :
  let s := Example.started in
  let s' := step s KernelSocketChanged in
  let protocol := "v1.kernel.websocket.jupyter.org" in
  calls s' = calls s ++ [removeReceiveHook 0 protocol; removeSendHook 0 protocol;
                         addReceiveHook 0 protocol; addSendHook 0 protocol]
  ∧ JsMap.get 0 (kernelSocketHandlers (this s')) = Some protocol
  ∧ socketChangeListener s' = Some (0, Some "kernel-1").
Proof.
  intros s.
  assert (Hhung : hung s = false) by (vm_compute; reflexivity).
  assert (Hl : socketChangeListener s = Some (0, Some "kernel-1")) by (vm_compute; reflexivity).
  assert (Hsock : KernelSocketMap (env s) "kernel-1" = Some 0) by (vm_compute; reflexivity).
  assert (Hhandlers : JsMap.get 0 (kernelSocketHandlers (this s))
                      = Some "v1.kernel.websocket.jupyter.org") by (vm_compute; reflexivity).
  assert (Hwas : kernelWasConnectedAtLeastOnce (this s) = true) by (vm_compute; reflexivity).
  assert (Hpend : pendingTargetNames (this s) = []) by (vm_compute; reflexivity).
  assert (Hsess : session_kernel (env s) 0 = Some 0) by (vm_compute; reflexivity).
  assert (Hkid : truthy (kid (connection (env s) 0)) = true) by (vm_compute; reflexivity).
  assert (Hnew : KernelSocketMap (env s) (kid (connection (env s) 0)) = Some 0)
    by (vm_compute; reflexivity).
  exact (socket_change_moves_hooks s 0 "kernel-1" 0 "v1.kernel.websocket.jupyter.org" 0 0
           Hhung Hl eq_refl Hsock Hhandlers Hwas Hpend Hsess Hkid Hnew).
Defined.


(** C8 on three frames that cannot be read.  A binary frame on its way out
    is caught and logged.  An execute request that does not parse makes the
    send hook throw.  A frame that mentions [comm_msg] and one that is
    forwarded as [display_data] both make the receive hook throw, after
    they were forwarded. *)
Lemma malformed_frame_handling_witness :
  let s := Example.started in
  let binary := RBinary [Byte.x02] in
  let request := RString "shell execute_request {" in
  let update := RString "iopub comm_msg {" in
  let display := RString "iopub display_data {" in
  mirrorSend "" binary s
  = (Ret tt, set_logged (logged s ++ [log_error "Failed to mirror message to kernel"
                                        (Some DeserializeError)]) s)
  ∧ tasks (step s (SocketSend "" request)) !! length (tasks s) = Some (Rejected SyntaxError)
  ∧ ((onKernelSocketMessage "" update s).1 = Throw DeserializeError
     ∧ posted (onKernelSocketMessage "" update s).2
       = posted s ++ [Post_msg "uuid-0" "iopub comm_msg {"]
     ∧ tasks (step s (SocketReceive "" update)) !! length (tasks s)
       = Some (Rejected DeserializeError))
  ∧ ((onKernelSocketMessage "" display s).1 = Throw DeserializeError
     ∧ logged (onKernelSocketMessage "" display s).2 = logged s
     ∧ tasks (step s (SocketReceive "" display)) !! length (tasks s)
       = Some (Rejected DeserializeError)).
Proof.
  intros s binary request update display.
  assert (Hhung : hung s = false) by (vm_compute; reflexivity).
  destruct (malformed_frame_handling "" binary s) as (Hout & _ & _).
  destruct (malformed_frame_handling "" request s) as (_ & Hrequest & _).
  destruct (malformed_frame_handling "" update s) as (_ & _ & Hupdate).
  destruct (malformed_frame_handling "" display s) as (_ & _ & Hdisplay).
  destruct (Hrequest "shell execute_request {" eq_refl) as [_ Hrejected];
    [vm_compute; reflexivity..|exact Hhung|].
  destruct Hupdate as (Hu1 & _ & Hu2 & _ & Hu3 & _);
    [left; vm_compute; reflexivity | vm_compute; reflexivity | exact Hhung|].
  destruct Hdisplay as (Hd1 & Hd2 & _ & _ & Hd3 & _);
    [right; exists "iopub display_data {"; split_and!; vm_compute; reflexivity
    | vm_compute; reflexivity | exact Hhung|].
  split_and!.
  - apply Hout; vm_compute; reflexivity.
  - exact Hrejected.
  - exact Hu1.
  - rewrite Hu2. vm_compute. reflexivity.
  - exact Hu3.
  - exact Hd1.
  - rewrite Hd2. unfold console_note. cbn. apply app_nil_r.
  - exact Hd3.
Defined.

